(** * Resilience infrastructure of the JSX agents

    A shallow embedding of the infrastructure classes that
    [agents/jsxcreate/jsx_content_analyzer.py] and
    [agents/jsxcreate/jsx_generator.py] both carry: [CircuitBreaker],
    [AsyncWorkQueue] and [BaseAsyncAgent.execute_with_resilience], together
    with the [reset_system_state] method of the two agent classes; then the
    entry points of the two agents that call into it, the repair and the
    validation of JSX text in the generator, and the session manager of
    [utils/session_isolation.py].

    Conventions of the embedding:
    - Python [int] is [Z]; Python [float] (seconds, factors) is an exact
      rational [Q], so rounding is not modelled;
    - a method that mutates [self] is a computation in the monad [M], which
      threads the object and returns either a value or a raised exception;
      state changes made before a [raise] are kept, as in Python;
    - what the environment decides (the readings of [time.monotonic], the
      length of [inspect.stack()], how an awaited callable ends) is read from
      an oracle the theorems quantify over;
    - [exn] stands for instances of [Exception] subclasses; signals that only
      derive from [BaseException] are outside the model, except for the
      cancellation [asyncio.wait_for] performs on expiry, which is the
      [Expired] case of [AwaitResult];
    - logger calls have no effect on the modelled state and are left out. *)

From Stdlib Require Import ZArith QArith Qpower Lqa Lia List String.
From stdpp Require Import gmap strings pretty.
Import ListNotations.

Local Open Scope string_scope.
Local Open Scope Z_scope.

(** ** Exceptions and results *)

Inductive exn : Type :=
| TimeoutError (msg : string)             (* asyncio.TimeoutError *)
| RecursionError (msg : string)
| CircuitBreakerOpenError (msg : string)
| AttributeError (msg : string)
| ValueError (msg : string)
| TypeError (msg : string)
| RuntimeError (msg : string)
| QueueFull                               (* asyncio.QueueFull *)
| Exception (msg : string).               (* any other Exception subclass *)

(** [str(e)] *)
Definition str (e : exn) : string :=
  match e with
  | TimeoutError m | RecursionError m | CircuitBreakerOpenError m
  | AttributeError m | ValueError m | TypeError m | RuntimeError m
  | Exception m => m
  | QueueFull => ""
  end.

(** How a computation ends: with a value, with a raised exception, or
    cancelled at an [await] because an enclosing [asyncio.wait_for] expired
    ([CancelledError], which no [except Exception] clause catches). *)
Inductive Result (A : Type) : Type :=
| Ok (a : A)
| Raise (e : exn)
| Cancelled.
Arguments Ok {A} a.
Arguments Raise {A} e.
Arguments Cancelled {A}.

(** State-and-exception monad: [S] is the mutable object graph. *)
Definition M (S A : Type) : Type := S -> Result A * S.

Definition ret {S A} (a : A) : M S A := fun s => (Ok a, s).
Definition raise {S A} (e : exn) : M S A := fun s => (Raise e, s).
Definition bind {S A B} (m : M S A) (k : A -> M S B) : M S B :=
  fun s => match m s with
           | (Ok a, s') => k a s'
           | (Raise e, s') => (Raise e, s')
           | (Cancelled, s') => (Cancelled, s')
           end.
Definition modify {S} (f : S -> S) : M S unit := fun s => (Ok tt, f s).
Definition reads_ {S A} (f : S -> A) : M S A := fun s => (Ok (f s), s).
(** [try: m except Exception as e: h e] *)
Definition try_except {S A} (m : M S A) (h : exn -> M S A) : M S A :=
  fun s => match m s with
           | (Ok a, s') => (Ok a, s')
           | (Raise e, s') => h e s'
           | (Cancelled, s') => (Cancelled, s')
           end.
(** [try: m finally: f]; an exception of [f] replaces the outcome of [m]. *)
Definition try_finally {S A} (m : M S A) (f : M S unit) : M S A :=
  fun s => match m s with
           | (r, s') => match f s' with
                        | (Ok _, s'') => (r, s'')
                        | (Raise e, s'') => (Raise e, s'')
                        | (Cancelled, s'') => (Cancelled, s'')
                        end
           end.
(** [await asyncio.wait_for(m, timeout=...)] for a positive timeout: when
    the budget expires the inner computation is cancelled and
    [asyncio.TimeoutError()] is raised to the waiter. Whether the budget
    expires is decided where the inner computation awaits its callable. A
    timeout of zero or less is not covered: the library then cancels the
    inner computation before it has run at all. *)
Definition wait_for {S A} (m : M S A) : M S A :=
  fun s => match m s with
           | (Cancelled, s') => (Raise (TimeoutError ""), s')
           | r => r
           end.

Declare Scope py_scope.
Delimit Scope py_scope with py.
Notation "x <- m ;; k" := (bind m (fun x => k))
  (at level 100, m at next level, right associativity) : py_scope.
Notation "m ;;; k" := (bind m (fun _ => k))
  (at level 100, right associativity) : py_scope.
Local Open Scope py_scope.

(** ** Floats as rationals *)

(** [a > b] *)
Definition Qgtb (a b : Q) : bool := negb (Qle_bool a b).
(** truth value of a float: [0.0] is falsy *)
Definition truthy (x : Q) : bool := negb (Qeq_bool x 0).

(** ** The clock *)

(** [time.monotonic()] is an effect: the [n]-th call of a run returns
    [readings n]. *)
Record Clock := { readings : nat -> Q; reads : nat }.

Definition tick (c : Clock) : Clock :=
  {| readings := readings c; reads := S (reads c) |}.
Definition now (c : Clock) : Q := readings c (reads c).

(** ** CircuitBreaker *)

Inductive CircuitBreakerState := CLOSED | OPEN | HALF_OPEN.

Definition CircuitBreakerState_eqb (a b : CircuitBreakerState) : bool :=
  match a, b with
  | CLOSED, CLOSED | OPEN, OPEN | HALF_OPEN, HALF_OPEN => true
  | _, _ => false
  end.

(** The fields [__init__] creates, and [failure_count]: an instance attribute
    of that name, which the class does not define and which exists only once
    somebody assigns it (it is not [_failure_count]). *)
Record CircuitBreaker := {
  failure_threshold : Z;
  recovery_timeout : Q;
  half_open_attempts : Z;
  _state : CircuitBreakerState;
  _failure_count : Z;
  _success_count : Z;
  _last_failure_time : option Q;
  failure_count : option Z
}.

(** [CircuitBreaker(failure_threshold, recovery_timeout, half_open_attempts)] *)
Definition CircuitBreaker__init__ (ft : Z) (rt : Q) (hoa : Z) : CircuitBreaker :=
  {| failure_threshold := ft; recovery_timeout := rt; half_open_attempts := hoa;
     _state := CLOSED; _failure_count := 0; _success_count := 0;
     _last_failure_time := None; failure_count := None |}.

Definition set__state (v : CircuitBreakerState) (b : CircuitBreaker) :=
  {| failure_threshold := failure_threshold b; recovery_timeout := recovery_timeout b;
     half_open_attempts := half_open_attempts b;
     _state := v; _failure_count := _failure_count b;
     _success_count := _success_count b;
     _last_failure_time := _last_failure_time b; failure_count := failure_count b |}.
Definition set__failure_count (v : Z) (b : CircuitBreaker) :=
  {| failure_threshold := failure_threshold b; recovery_timeout := recovery_timeout b;
     half_open_attempts := half_open_attempts b;
     _state := _state b; _failure_count := v;
     _success_count := _success_count b;
     _last_failure_time := _last_failure_time b; failure_count := failure_count b |}.
Definition set__success_count (v : Z) (b : CircuitBreaker) :=
  {| failure_threshold := failure_threshold b; recovery_timeout := recovery_timeout b;
     half_open_attempts := half_open_attempts b;
     _state := _state b; _failure_count := _failure_count b;
     _success_count := v;
     _last_failure_time := _last_failure_time b; failure_count := failure_count b |}.
Definition set__last_failure_time (v : option Q) (b : CircuitBreaker) :=
  {| failure_threshold := failure_threshold b; recovery_timeout := recovery_timeout b;
     half_open_attempts := half_open_attempts b;
     _state := _state b; _failure_count := _failure_count b;
     _success_count := _success_count b;
     _last_failure_time := v; failure_count := failure_count b |}.
Definition set_failure_count (v : option Z) (b : CircuitBreaker) :=
  {| failure_threshold := failure_threshold b; recovery_timeout := recovery_timeout b;
     half_open_attempts := half_open_attempts b;
     _state := _state b; _failure_count := _failure_count b;
     _success_count := _success_count b;
     _last_failure_time := _last_failure_time b; failure_count := v |}.

(** A breaker method runs against the breaker and the clock. *)
Record BreakerWorld := { cb : CircuitBreaker; clock : Clock }.

Definition update_cb (f : CircuitBreaker -> CircuitBreaker) : M BreakerWorld unit :=
  modify (fun w => {| cb := f (cb w); clock := clock w |}).
Definition read_cb {A} (f : CircuitBreaker -> A) : M BreakerWorld A :=
  reads_ (fun w => f (cb w)).
(** [time.monotonic()] *)
Definition monotonic : M BreakerWorld Q :=
  fun w => (Ok (now (clock w)), {| cb := cb w; clock := tick (clock w) |}).

(** The [state] property. The clock is read only when [_state] is OPEN and
    [_last_failure_time] is truthy ([and] short-circuits). *)
Definition state : M BreakerWorld CircuitBreakerState :=
  s <- read_cb _state ;;
  (match s with
   | OPEN =>
       lft <- read_cb _last_failure_time ;;
       match lft with
       | Some t =>
           if truthy t then
             t_now <- monotonic ;;
             rt <- read_cb recovery_timeout ;;
             if Qgtb (t_now - t) rt then
               update_cb (set__state HALF_OPEN) ;;;
               update_cb (set__success_count 0)
             else ret tt
           else ret tt
       | None => ret tt
       end
   | _ => ret tt
   end) ;;;
  read_cb _state.

Definition record_failure : M BreakerWorld unit :=
  update_cb (fun b => set__failure_count (_failure_count b + 1) b) ;;;
  t_now <- monotonic ;;
  update_cb (set__last_failure_time (Some t_now)) ;;;
  s <- state ;;
  if CircuitBreakerState_eqb s HALF_OPEN then
    update_cb (set__state OPEN) ;;;
    update_cb (fun b => set__failure_count (failure_threshold b) b)
  else
    fc <- read_cb _failure_count ;;
    ft <- read_cb failure_threshold ;;
    if fc >=? ft then
      s' <- state ;;
      if CircuitBreakerState_eqb s' CLOSED then update_cb (set__state OPEN)
      else ret tt
    else ret tt.

Definition _reset_counts : M BreakerWorld unit :=
  update_cb (set__failure_count 0) ;;;
  update_cb (set__success_count 0).

Definition record_success : M BreakerWorld unit :=
  s <- state ;;
  if CircuitBreakerState_eqb s HALF_OPEN then
    update_cb (fun b => set__success_count (_success_count b + 1) b) ;;;
    sc <- read_cb _success_count ;;
    hoa <- read_cb half_open_attempts ;;
    if sc >=? hoa then
      update_cb (set__state CLOSED) ;;;
      _reset_counts
    else ret tt
  else
    s' <- state ;;
    if CircuitBreakerState_eqb s' CLOSED then _reset_counts else ret tt.

(** [n] consecutive [record_failure()] calls. *)
Fixpoint record_failures (n : nat) : M BreakerWorld unit :=
  match n with
  | O => ret tt
  | S n' => record_failure ;;; record_failures n'
  end.

(** ** Values and callables *)

(** A Python value as far as the infrastructure looks at it: it only asks
    whether a result is a coroutine object. How awaiting a coroutine ends
    depends on the time budget [asyncio.wait_for] grants it. *)
Inductive Value : Type :=
| VNone
| VStr (s : string)
| VInt (z : Z)
| VCoroutine (run : Q -> AwaitResult)
with AwaitResult : Type :=
| Completed (v : Value)
| Failed (e : exn)
| Expired.                       (* not done when the budget runs out *)

(** What is handed over as [task_func]. A function may answer each call
    differently: [call n budget] is the call made by attempt number [n]. *)
Inductive Callable : Type :=
| CoroutineObject (name : string) (run : Q -> AwaitResult)   (* asyncio.iscoroutine *)
| FutureObject (run : Q -> AwaitResult)                      (* asyncio.isfuture *)
| CoroutineFunction (name : string) (call : Z -> Q -> AwaitResult)
                                                  (* inspect.iscoroutinefunction *)
| PlainFunction (name : string) (call : Z -> Q -> AwaitResult).

(** [getattr(task_func, '__name__', 'unknown_task')] *)
Definition name_of (f : Callable) : string :=
  match f with
  | CoroutineObject n _ | CoroutineFunction n _ | PlainFunction n _ => n
  | FutureObject _ => "unknown_task"
  end.

(** [await x], for an awaitable that ends as [r]. *)
Definition await {S} (r : AwaitResult) : M S Value :=
  fun s => match r with
           | Completed v => (Ok v, s)
           | Failed e => (Raise e, s)
           | Expired => (Cancelled, s)
           end.

(** [CircuitBreaker.execute]. [n] and [budget] are not arguments of the
    method: they select the answer of the callable, which depends on the
    attempt and on the time the enclosing [wait_for] leaves it. *)
Definition execute (task_func : Callable) (n : Z) (budget : Q) : M BreakerWorld Value :=
  s <- state ;;
  if CircuitBreakerState_eqb s OPEN then
    raise (CircuitBreakerOpenError
             ("CircuitBreaker is OPEN for " ++ name_of task_func ++ ". Call rejected."))
  else
    try_except
      (result <- match task_func with
                 | FutureObject run => await (run budget)
                 | CoroutineObject _ run => await (run budget)
                 | CoroutineFunction _ call => await (call n budget)
                 | PlainFunction _ call => await (call n budget)   (* run_in_executor *)
                 end ;;
       record_success ;;;
       ret result)
      (fun e => record_failure ;;; raise e).

(** ** BaseAsyncAgent *)

Record ExecutionStats := {
  total_attempts : Z;
  successful_executions : Z;
  fallback_used : Z;
  circuit_breaker_triggered : Z;
  timeout_occurred : Z
}.

Definition zero_stats : ExecutionStats :=
  {| total_attempts := 0; successful_executions := 0; fallback_used := 0;
     circuit_breaker_triggered := 0; timeout_occurred := 0 |}.

(** The attributes the modelled methods use ([work_queue], [timeouts],
    [retry_config] and [recursion_threshold] are not read by them). *)
Record BaseAsyncAgent := {
  circuit_breaker : CircuitBreaker;
  fallback_to_sync : bool;
  _recursion_check_buffer : Z;
  execution_stats : ExecutionStats
}.

Definition BaseAsyncAgent__init__ : BaseAsyncAgent :=
  {| circuit_breaker := CircuitBreaker__init__ 8 30 2;
     fallback_to_sync := false;
     _recursion_check_buffer := 50;
     execution_stats := zero_stats |}.

Definition set_circuit_breaker (v : CircuitBreaker) (a : BaseAsyncAgent) :=
  {| circuit_breaker := v; fallback_to_sync := fallback_to_sync a;
     _recursion_check_buffer := _recursion_check_buffer a;
     execution_stats := execution_stats a |}.
Definition set_fallback_to_sync (v : bool) (a : BaseAsyncAgent) :=
  {| circuit_breaker := circuit_breaker a; fallback_to_sync := v;
     _recursion_check_buffer := _recursion_check_buffer a;
     execution_stats := execution_stats a |}.
Definition set_execution_stats (v : ExecutionStats) (a : BaseAsyncAgent) :=
  {| circuit_breaker := circuit_breaker a; fallback_to_sync := fallback_to_sync a;
     _recursion_check_buffer := _recursion_check_buffer a;
     execution_stats := v |}.

Definition incr_timeout_occurred (st : ExecutionStats) :=
  {| total_attempts := total_attempts st;
     successful_executions := successful_executions st;
     fallback_used := fallback_used st;
     circuit_breaker_triggered := circuit_breaker_triggered st;
     timeout_occurred := timeout_occurred st + 1 |}.
Definition incr_circuit_breaker_triggered (st : ExecutionStats) :=
  {| total_attempts := total_attempts st;
     successful_executions := successful_executions st;
     fallback_used := fallback_used st;
     circuit_breaker_triggered := circuit_breaker_triggered st + 1;
     timeout_occurred := timeout_occurred st |}.

(** What a run of [execute_with_resilience] does that a caller can observe
    from outside: it starts an attempt (the "Attempt k/n ... with timeout"
    record, [k] counted from 1), it sleeps, it awaits a pending object. *)
Inductive event :=
| EvAttempt (k : Z) (timeout : Q)
| EvSleep (seconds : Q)
| EvAwait (timeout : Q).

(** Which breaker object the [circuit_breaker] argument denotes: the agent's
    own ([self.circuit_breaker] passed explicitly) or another object. *)
Inductive BreakerRef := OwnBreaker | GivenBreaker.

Record World := {
  self : BaseAsyncAgent;
  given_breaker : CircuitBreaker;
  wclock : Clock;
  trace : list event
}.

Definition update_self (f : BaseAsyncAgent -> BaseAsyncAgent) : M World unit :=
  modify (fun w => {| self := f (self w); given_breaker := given_breaker w;
                      wclock := wclock w; trace := trace w |}).
Definition record_event (e : event) (w : World) : World :=
  {| self := self w; given_breaker := given_breaker w;
     wclock := wclock w; trace := trace w ++ [e] |}.
Definition emit (e : event) : M World unit := modify (record_event e).

Definition breaker_at (r : BreakerRef) (w : World) : CircuitBreaker :=
  match r with
  | OwnBreaker => circuit_breaker (self w)
  | GivenBreaker => given_breaker w
  end.

(** Runs a breaker method on the object [r] denotes. *)
Definition on_breaker {A} (r : BreakerRef) (m : M BreakerWorld A) : M World A :=
  fun w =>
    let (res, bw) := m {| cb := breaker_at r w; clock := wclock w |} in
    (res,
     match r with
     | OwnBreaker =>
         {| self := set_circuit_breaker (cb bw) (self w);
            given_breaker := given_breaker w;
            wclock := clock bw; trace := trace w |}
     | GivenBreaker =>
         {| self := self w; given_breaker := cb bw;
            wclock := clock bw; trace := trace w |}
     end).

(** The interpreter's stack as the loop sees it: [stack_depth k] is
    [len(inspect.stack())] measured by attempt [k] (counted from 0, as
    [current_retry]), [getrecursionlimit] is [sys.getrecursionlimit()]. *)
Record Env := { stack_depth : Z -> Z; getrecursionlimit : Z }.

Definition _check_recursion_depth (env : Env) (k : Z) : Z := stack_depth env k.

(** [_get_fallback_result] is overridden by both agent classes; an override
    reads the task id and may count the use in [execution_stats]. *)
Class AgentClass := {
  _get_fallback_result : string -> ExecutionStats -> Value * ExecutionStats
}.

(** [BaseAsyncAgent._get_fallback_result] *)
Definition Base_get_fallback_result (task_id : string) (st : ExecutionStats)
  : Value * ExecutionStats :=
  (VStr ("FALLBACK_RESULT_FOR_" ++ task_id), st).

#[export] Instance BaseAsyncAgent_class : AgentClass :=
  {| _get_fallback_result := Base_get_fallback_result |}.

Definition get_fallback `{AgentClass} (task_id : string) : M World Value :=
  fun w =>
    let (v, st) := _get_fallback_result task_id (execution_stats (self w)) in
    (Ok v, {| self := set_execution_stats st (self w);
              given_breaker := given_breaker w;
              wclock := wclock w; trace := trace w |}).

(** How the [while] loop of [execute_with_resilience] is left. *)
Inductive LoopExit :=
| Return (v : Value)                  (* [return result] inside the loop *)
| Exhausted (current_retry : Z) (current_timeout : Q) (last_exception : option exn)
                                      (* the loop condition became false *)
| OutOfFuel.

Section RetryLoop.
Context (env : Env) (task_id : string) (task_func : Callable)
        (max_retries : Z) (backoff_factor : Q) (actual_circuit_breaker : BreakerRef).

(** [f"{task_id}-attempt-{current_retry + 1}"] *)
Definition task_full_id (current_retry : Z) : string :=
  task_id ++ "-attempt-" ++ pretty (current_retry + 1).

(** The [try] block of one iteration. *)
Definition attempt (current_retry : Z) (current_timeout : Q) : M World Value :=
  buffer <- reads_ (fun w => _recursion_check_buffer (self w)) ;;
  (if _check_recursion_depth env current_retry >=? getrecursionlimit env - buffer
   then raise (RecursionError
                 ("Preemptive recursion depth stop for " ++ task_full_id current_retry))
   else ret tt) ;;;
  wait_for (on_breaker actual_circuit_breaker
              (execute task_func current_retry current_timeout)).

(** The [except] clauses in their order; what is returned becomes
    [last_exception]. *)
Definition on_error (e : exn) : M World exn :=
  match e with
  | TimeoutError _ =>
      update_self (fun a => set_execution_stats
                              (incr_timeout_occurred (execution_stats a)) a) ;;;
      ret e
  | RecursionError _ =>
      update_self (set_fallback_to_sync true) ;;;
      raise e
  | CircuitBreakerOpenError _ =>
      update_self (fun a => set_execution_stats
                              (incr_circuit_breaker_triggered (execution_stats a)) a) ;;;
      ret e
  | _ => ret e
  end.

(** [while current_retry <= max_retries: ...] *)
Fixpoint retry_loop (fuel : nat) (current_retry : Z) (current_timeout : Q)
         (last_exception : option exn) : M World LoopExit :=
  match fuel with
  | O => ret OutOfFuel
  | S fuel' =>
      if current_retry <=? max_retries then
        emit (EvAttempt (current_retry + 1) current_timeout) ;;;
        outcome <- try_except
                     (result <- attempt current_retry current_timeout ;;
                      ret (inl result))
                     (fun e => e' <- on_error e ;; ret (inr e')) ;;
        match outcome with
        | inl result => ret (Return result)
        | inr e =>
            let current_retry := current_retry + 1 in
            if current_retry <=? max_retries then
              let sleep_duration := Qpower backoff_factor (current_retry - 1) in
              emit (EvSleep sleep_duration) ;;;
              retry_loop fuel' current_retry (current_timeout * backoff_factor)%Q
                         (Some e)
            else
              retry_loop fuel' current_retry current_timeout (Some e)
        end
      else ret (Exhausted current_retry current_timeout last_exception)
  end.
End RetryLoop.

(** [circuit_breaker if circuit_breaker else self.circuit_breaker] *)
Definition actual_breaker (circuit_breaker : option BreakerRef) : BreakerRef :=
  match circuit_breaker with Some r => r | None => OwnBreaker end.

(** [execute_with_resilience(task_id, task_func, args, kwargs, max_retries,
    initial_timeout, backoff_factor, circuit_breaker)]. The loop runs at most
    [max_retries + 1] times, which is the fuel it gets (one more step sees
    the condition fail); [None] would be a loop the fuel did not cover. *)
Definition execute_with_resilience `{AgentClass} (env : Env)
    (task_id : string) (task_func : Callable)
    (max_retries : Z) (initial_timeout backoff_factor : Q)
    (circuit_breaker : option BreakerRef) : M World (option Value) :=
  match task_func with
  | CoroutineObject _ run =>
      try_except
        (emit (EvAwait initial_timeout) ;;;
         v <- wait_for (await (run initial_timeout)) ;; ret (Some v))
        (fun e => v <- get_fallback task_id ;; ret (Some v))
  | FutureObject run =>
      try_except
        (emit (EvAwait initial_timeout) ;;;
         v <- wait_for (await (run initial_timeout)) ;; ret (Some v))
        (fun e => v <- get_fallback task_id ;; ret (Some v))
  | _ =>
      let actual_circuit_breaker := actual_breaker circuit_breaker in
      exit <- retry_loop env task_id task_func max_retries backoff_factor
                actual_circuit_breaker
                (S (Z.to_nat (max_retries + 1))) 0 initial_timeout None ;;
      match exit with
      | Return result => ret (Some result)
      | Exhausted _ _ (Some last_exception) => raise last_exception
      | Exhausted _ _ None =>
          raise (Exception ("Task '" ++ task_id ++
                   "' failed after max retries without a specific exception."))
      | OutOfFuel => ret None
      end
  end.

(** ** reset_system_state of the two agent classes *)

(** Assignment to [breaker.state]: [state] is a property defined without a
    setter, so the assignment raises and stores nothing. *)
Definition assign_state (v : CircuitBreakerState) : M BaseAsyncAgent unit :=
  raise (AttributeError "property 'state' of 'CircuitBreaker' object has no setter").

Module JSXContentAnalyzer.
(** jsx_content_analyzer.py, [JSXContentAnalyzer.reset_system_state] *)
Definition reset_system_state : M BaseAsyncAgent unit :=
  modify (fun a => set_circuit_breaker
                     (set_failure_count (Some 0) (circuit_breaker a)) a) ;;;
  assign_state CLOSED ;;;
  modify (set_fallback_to_sync false) ;;;
  modify (set_execution_stats zero_stats).
End JSXContentAnalyzer.

Module JSXCreatorAgent.
(** jsx_generator.py, [JSXCreatorAgent.reset_system_state]. Between the
    flag and the statistics it schedules [work_queue.clear_results()] with
    [asyncio.create_task], which needs a running event loop. *)
Definition reset_system_state (loop_is_running : bool) : M BaseAsyncAgent unit :=
  modify (fun a => set_circuit_breaker
                     (set__success_count 0
                        (set__failure_count 0 (circuit_breaker a))) a) ;;;
  modify (fun a => set_circuit_breaker (set__state CLOSED (circuit_breaker a)) a) ;;;
  modify (set_fallback_to_sync false) ;;;
  (if loop_is_running then ret tt
   else raise (RuntimeError "no running event loop")) ;;;
  modify (set_execution_stats zero_stats).
End JSXCreatorAgent.

(** [n] consecutive calls of a method; the first exception ends the run. *)
Fixpoint repeat_call {S} (m : M S unit) (n : nat) : M S unit :=
  match n with
  | O => ret tt
  | S n' => m ;;; repeat_call m n'
  end.

(** ** AsyncWorkQueue *)

Module WorkItem.
(** [args] and [kwargs] are part of what the callable answers. *)
Record t := mk {
  id : string;
  task_func : Callable;
  priority : Z;
  max_retries : Z;
  current_retry : Z;
  timeout : Q;
  created_at : Q
}.
(** [__lt__] *)
Definition lt (a b : t) : bool := priority a <? priority b.
End WorkItem.

(** [asyncio.PriorityQueue(maxsize)] as the class uses it. [heap] lists the
    queued items in the order [get] hands them out; among items of equal
    priority the library fixes no order and the model keeps that of
    insertion. [putters] are the items of [put] calls that wait for a slot. *)
Record PriorityQueue := {
  maxsize : Z;
  heap : list WorkItem.t;
  unfinished_tasks : Z;
  putters : list WorkItem.t
}.

(** [heapq.heappush] on the list in hand-out order: the item comes before
    the first queued item of greater priority ([__lt__] compares priorities
    only). Its place among items of equal priority is the model's choice. *)
Fixpoint heappush (x : WorkItem.t) (l : list WorkItem.t) : list WorkItem.t :=
  match l with
  | [] => [x]
  | y :: l' => if WorkItem.lt x y then x :: y :: l' else y :: heappush x l'
  end.

Definition qsize (q : PriorityQueue) : Z := Z.of_nat (length (heap q)).
Definition empty (q : PriorityQueue) : bool := qsize q =? 0.
Definition full (q : PriorityQueue) : bool :=
  if maxsize q <=? 0 then false else qsize q >=? maxsize q.

(** [put_nowait]: the only place that raises [QueueFull]. *)
Definition put_nowait (item : WorkItem.t) : M PriorityQueue unit :=
  fun q =>
    if full q then (Raise QueueFull, q)
    else (Ok tt, {| maxsize := maxsize q; heap := heappush item (heap q);
                    unfinished_tasks := unfinished_tasks q + 1;
                    putters := putters q |}).

(** A coroutine either finishes or stays suspended at an [await] that only
    another task can complete. *)
Inductive Step (A : Type) : Type :=
| Finished (r : Result A)
| Suspended.
Arguments Finished {A} r.
Arguments Suspended {A}.

(** [await queue.put(item)]: [while self.full(): await putter] and then
    [put_nowait]. On a full queue the caller is parked. *)
Definition put (item : WorkItem.t) (q : PriorityQueue) : Step unit * PriorityQueue :=
  if full q then
    (Suspended, {| maxsize := maxsize q; heap := heap q;
                   unfinished_tasks := unfinished_tasks q;
                   putters := putters q ++ [item] |})
  else let (r, q') := put_nowait item q in (Finished r, q').

(** [await queue.get()] under [wait_for(..., timeout=1.0)]: on an empty
    queue nothing arrives while the worker waits, and the wait is cancelled. *)
Definition get_item : M PriorityQueue WorkItem.t :=
  fun q =>
    match heap q with
    | [] => (Cancelled, q)
    | item :: rest =>
        (Ok item, {| maxsize := maxsize q; heap := rest;
                     unfinished_tasks := unfinished_tasks q;
                     putters := putters q |})
    end.

Definition task_done : M PriorityQueue unit :=
  fun q =>
    if unfinished_tasks q <=? 0 then
      (Raise (ValueError "task_done() called too many times"), q)
    else (Ok tt, {| maxsize := maxsize q; heap := heap q;
                    unfinished_tasks := unfinished_tasks q - 1;
                    putters := putters q |}).

(** One entry of [_results]: a dict with "status" and either "result" or
    "error". *)
Record ResultEntry := {
  status : string;
  result : option Value;
  error : option string
}.

Record AsyncWorkQueue := {
  _queue : PriorityQueue;
  _workers : list Z;                 (* the worker tasks, by worker_id *)
  _max_workers : Z;
  _running : bool;
  _results : gmap string ResultEntry
}.

(** [AsyncWorkQueue(max_workers, max_queue_size)], the fields the two files
    share. The analyzer's constructor also makes
    [asyncio.Semaphore(max_workers)], which raises [ValueError] for a
    negative [max_workers]: the constructor is modelled for
    [max_workers >= 0]. *)
Definition AsyncWorkQueue__init__ (max_workers max_queue_size : Z) : AsyncWorkQueue :=
  {| _queue := {| maxsize := if max_queue_size >? 0 then max_queue_size else 0;
                  heap := []; unfinished_tasks := 0; putters := [] |};
     _workers := []; _max_workers := max_workers; _running := false;
     _results := ∅ |}.

Definition set__queue (v : PriorityQueue) (wq : AsyncWorkQueue) :=
  {| _queue := v; _workers := _workers wq; _max_workers := _max_workers wq;
     _running := _running wq; _results := _results wq |}.
Definition set__results (v : gmap string ResultEntry) (wq : AsyncWorkQueue) :=
  {| _queue := _queue wq; _workers := _workers wq; _max_workers := _max_workers wq;
     _running := _running wq; _results := v |}.

(** Runs a queue operation on [self._queue]. *)
Definition on_queue {A} (m : M PriorityQueue A) : M AsyncWorkQueue A :=
  fun wq => let (r, q') := m (_queue wq) in (r, set__queue q' wq).

(** [range(n)] *)
Definition range (n : Z) : list Z := map Z.of_nat (seq 0 (Z.to_nat n)).

(** [start()]: it has no suspension point. *)
Definition start (wq : AsyncWorkQueue) : AsyncWorkQueue :=
  if negb (_running wq) then
    {| _queue := _queue wq; _workers := range (_max_workers wq);
       _max_workers := _max_workers wq; _running := true;
       _results := _results wq |}
  else wq.

(** What [enqueue_work] does once [put] is past its [await]. *)
Definition enqueue_work_after_put (st : Step unit) : Step bool :=
  match st with
  | Finished (Ok _) => Finished (Ok true)
  | Finished (Raise QueueFull) => Finished (Ok false)
  | Finished (Raise e) => Finished (Raise e)
  | Finished Cancelled => Finished Cancelled
  | Suspended => Suspended
  end.

Definition enqueue_work (item : WorkItem.t) (wq : AsyncWorkQueue)
  : Step bool * AsyncWorkQueue :=
  let wq := if negb (_running wq) then start wq else wq in
  let (st, q') := put item (_queue wq) in
  (enqueue_work_after_put st, set__queue q' wq).

(** The parked caller at the head of [putters] is woken (a [get] does this)
    and goes round the [while self.full()] loop of [put] again. *)
Definition resume_enqueue_work (wq : AsyncWorkQueue)
  : option (Step bool * AsyncWorkQueue) :=
  match putters (_queue wq) with
  | [] => None
  | item :: waiting =>
      let q := {| maxsize := maxsize (_queue wq); heap := heap (_queue wq);
                  unfinished_tasks := unfinished_tasks (_queue wq);
                  putters := waiting |} in
      let (st, q') := put item q in
      Some (enqueue_work_after_put st, set__queue q' wq)
  end.

Definition store_result (id : string) (e : ResultEntry) : M AsyncWorkQueue unit :=
  modify (fun wq => set__results (<[id := e]> (_results wq)) wq).

(** The call of [item.task_func] under [wait_for(..., timeout=item.timeout)].
    An object that is not callable makes the call raise [TypeError]. *)
Definition run_task_func (item : WorkItem.t) : M AsyncWorkQueue Value :=
  match WorkItem.task_func item with
  | CoroutineFunction _ call =>
      wait_for (await (call (WorkItem.current_retry item) (WorkItem.timeout item)))
  | PlainFunction _ call =>
      wait_for (await (call (WorkItem.current_retry item) (WorkItem.timeout item)))
  | CoroutineObject _ _ =>
      wait_for (await (Failed (TypeError "'coroutine' object is not callable")))
  | FutureObject _ =>
      wait_for (await (Failed (TypeError "'Future' object is not callable")))
  end.

(** The inner [try ... except ... finally] of [_worker], for the item just
    taken from the queue. *)
Definition process_item (item : WorkItem.t) : M AsyncWorkQueue unit :=
  try_finally
    (try_except
       (result <- run_task_func item ;;
        unwrapped <- match result with
                     | VCoroutine run =>
                         try_except
                           (v <- wait_for (await (run (WorkItem.timeout item))) ;;
                            ret (Some v))
                           (fun e =>
                              store_result (WorkItem.id item)
                                {| status := "error"; result := None;
                                   error := Some ("Nested coroutine execution failed: "
                                                  ++ str e) |} ;;;
                              ret None)                       (* continue *)
                     | _ => ret (Some result)
                     end ;;
        match unwrapped with
        | Some v =>
            store_result (WorkItem.id item)
              {| status := "success"; result := Some v; error := None |}
        | None => ret tt
        end)
       (fun e =>
          match e with
          | TimeoutError _ =>
              store_result (WorkItem.id item)
                {| status := "timeout"; result := None;
                   error := Some ("Task " ++ WorkItem.id item ++ " timed out") |}
          | _ =>
              store_result (WorkItem.id item)
                {| status := "error"; result := None; error := Some (str e) |}
          end))
    (on_queue task_done).

Inductive LoopCtl := Continue | Break.

(** One round of the [while] loop of [_worker]. *)
Definition _worker_iteration : M AsyncWorkQueue LoopCtl :=
  try_except
    (item <- wait_for (on_queue get_item) ;;
     process_item item ;;;
     ret Continue)
    (fun e =>
       match e with
       | TimeoutError _ =>
           running <- reads_ _running ;;
           is_empty <- reads_ (fun wq => empty (_queue wq)) ;;
           if negb running && is_empty then ret Break else ret Continue
       | _ => ret Continue                       (* log, asyncio.sleep(1) *)
       end).

(** [_worker]: [while self._running or not self._queue.empty()]. [None]
    when the fuel ends before the loop does. *)
Fixpoint _worker (fuel : nat) : M AsyncWorkQueue (option unit) :=
  match fuel with
  | O => ret None
  | S fuel' =>
      running <- reads_ _running ;;
      is_empty <- reads_ (fun wq => empty (_queue wq)) ;;
      if running || negb is_empty then
        ctl <- _worker_iteration ;;
        match ctl with
        | Continue => _worker fuel'
        | Break => ret (Some tt)
        end
      else ret (Some tt)
  end.

(** ** Vocabulary of the statements *)

(** How the callable answers attempt [n] under [budget]. *)
Definition answer (f : Callable) (n : Z) (budget : Q) : AwaitResult :=
  match f with
  | CoroutineObject _ run | FutureObject run => run budget
  | CoroutineFunction _ call | PlainFunction _ call => call n budget
  end.

(** A callable the retry loop gets to run: not an already pending object. *)
Definition is_function (f : Callable) : bool :=
  match f with
  | CoroutineFunction _ _ | PlainFunction _ _ => true
  | _ => false
  end.


Definition is_RecursionError (e : exn) : bool :=
  match e with RecursionError _ => true | _ => false end.

(** A failure the loop retries: the budget expired, or an exception other
    than [RecursionError] was raised. *)
Definition retryable (r : AwaitResult) : Prop :=
  match r with
  | Completed _ => False
  | Failed e => is_RecursionError e = false
  | Expired => True
  end.

Definition is_attempt (e : event) : bool :=
  match e with EvAttempt _ _ => true | _ => false end.
Definition count_attempts (tr : list event) : nat := length (filter is_attempt tr).

(** The events of one run of the loop as the code produces them: [n]
    attempts, the first with [current_retry = c] under timeout [t]. *)
Fixpoint schedule (backoff_factor : Q) (n : nat) (c : Z) (t : Q) : list event :=
  match n with
  | O => []
  | S n' =>
      EvAttempt (c + 1) t ::
      match n' with
      | O => []
      | S _ => EvSleep (Qpower backoff_factor (c + 1 - 1)) ::
               schedule backoff_factor n' (c + 1) (t * backoff_factor)%Q
      end
  end.

(** The timeout of the last of [n] attempts: multiplied [n - 1] times. *)
Fixpoint grown (backoff_factor : Q) (m : nat) (t : Q) : Q :=
  match m with
  | O => t
  | S m' => grown backoff_factor m' (t * backoff_factor)%Q
  end.

(** The same schedule in the closed form of the specification: attempt [k]
    (counted from 1) runs under [initial_timeout * backoff_factor^(k-1)],
    and after every attempt but the last of the [n] the run sleeps
    [backoff_factor^(k-1)] seconds. *)
Definition spec_schedule (initial_timeout backoff_factor : Q) (n : nat) : list event :=
  flat_map
    (fun k : nat =>
       EvAttempt (Z.of_nat k)
                 (initial_timeout * Qpower backoff_factor (Z.of_nat k - 1))%Q ::
       if (k <? n)%nat then [EvSleep (Qpower backoff_factor (Z.of_nat k - 1))] else [])
    (seq 1 n).

(** Events that agree up to the representation of the rationals. *)
Definition event_equiv (a b : event) : Prop :=
  match a, b with
  | EvAttempt k t, EvAttempt k' t' => k = k' /\ (t == t')%Q
  | EvSleep d, EvSleep d' => (d == d')%Q
  | EvAwait t, EvAwait t' => (t == t')%Q
  | _, _ => False
  end.


(** What calling [item.task_func] under the item's timeout gives. *)
Definition call_outcome (item : WorkItem.t) : AwaitResult :=
  match WorkItem.task_func item with
  | CoroutineFunction _ call | PlainFunction _ call =>
      call (WorkItem.current_retry item) (WorkItem.timeout item)
  | CoroutineObject _ _ => Failed (TypeError "'coroutine' object is not callable")
  | FutureObject _ => Failed (TypeError "'Future' object is not callable")
  end.

Definition success_entry (v : Value) : ResultEntry :=
  {| status := "success"; result := Some v; error := None |}.
Definition timeout_entry (id : string) : ResultEntry :=
  {| status := "timeout"; result := None;
     error := Some ("Task " ++ id ++ " timed out") |}.
Definition error_entry (msg : string) : ResultEntry :=
  {| status := "error"; result := None; error := Some msg |}.

(** The entry a worker leaves for an item, case by case: the three cases of
    the specification and the extra await of a result that is a coroutine. *)
Definition expected_entry (item : WorkItem.t) : ResultEntry :=
  match call_outcome item with
  | Completed (VCoroutine run) =>
      match run (WorkItem.timeout item) with
      | Completed v => success_entry v
      | Failed e => error_entry ("Nested coroutine execution failed: " ++ str e)
      | Expired => error_entry "Nested coroutine execution failed: "
      end
  | Completed v => success_entry v
  | Expired => timeout_entry (WorkItem.id item)
  | Failed (TimeoutError _) => timeout_entry (WorkItem.id item)
  | Failed e => error_entry (str e)
  end.

(** The tagging property read literally, with three cases only: a callable
    that completes gives "success", one that exceeds the timeout gives
    "timeout", one that raises anything else gives "error". *)
Definition tagging_as_stated : Prop :=
  forall (wq : AsyncWorkQueue) (item : WorkItem.t) (rest : list WorkItem.t),
    heap (_queue wq) = item :: rest ->
    exists wq' entry,
      _worker_iteration wq = (Ok Continue, wq') /\
      _results wq' = <[WorkItem.id item := entry]> (_results wq) /\
      status entry =
        match call_outcome item with
        | Completed _ => "success"
        | Expired => "timeout"
        | Failed (TimeoutError _) => "timeout"
        | Failed _ => "error"
        end.

(** What a step of the loop leaves alone in any case: the events recorded so
    far and the configured buffer. *)
Definition keeps (w w' : World) : Prop :=
  trace w' = trace w /\
  _recursion_check_buffer (self w') = _recursion_check_buffer (self w).

(** The depth gate of attempt [c] is open in [w]. *)
Definition below_limit (env : Env) (c : Z) (w : World) : Prop :=
  _check_recursion_depth env c < getrecursionlimit env - _recursion_check_buffer (self w).

(** The breaker [r] denotes lets a call through when it is read in [w]. *)
Definition admits (r : BreakerRef) (w : World) : Prop :=
  fst (state {| cb := breaker_at r w; clock := wclock w |}) <> Ok OPEN.

(** What the waiter of [wait_for] sees for an answer of the callable. *)
Definition seen (a : AwaitResult) : Result Value :=
  match a with
  | Completed v => Ok v
  | Failed e => Raise e
  | Expired => Raise (TimeoutError "")
  end.

Definition rejection (f : Callable) : exn :=
  CircuitBreakerOpenError ("CircuitBreaker is OPEN for " ++ name_of f ++ ". Call rejected.").

(** ** More of the infrastructure *)

(** What is left of [task_func] once it has been awaited: a coroutine object
    can be awaited once only, and a second [await] raises [RuntimeError]; a
    function makes a new coroutine at every call, and a future that is done
    gives its outcome again. *)
Definition awaited (f : Callable) : Callable :=
  match f with
  | CoroutineObject name _ =>
      CoroutineObject name
        (fun _ => Failed (RuntimeError "cannot reuse already awaited coroutine"))
  | _ => f
  end.

(** A caller that calls [execute] [n] times in a row with the same
    [task_func] and catches what each call raises: the outcomes in order.
    [k] numbers the first call. A call that the breaker rejects does not
    await [task_func]; any other call does. *)
Fixpoint execute_calls (f : Callable) (budget : Q) (n : nat) (k : Z) (w : BreakerWorld)
  : list (Result Value) * BreakerWorld :=
  match n with
  | O => ([], w)
  | S n' =>
      let (r, w1) := execute f k budget w in
      let f' := match fst (state w) with
                | Ok OPEN => f
                | _ => awaited f
                end in
      let (rs, w2) := execute_calls f' budget n' (k + 1) w1 in
      (r :: rs, w2)
  end.

(** [n] consecutive [record_success()] calls. *)
Fixpoint record_successes (n : nat) : M BreakerWorld unit :=
  match n with
  | O => ret tt
  | S n' => record_success ;;; record_successes n'
  end.

(** [BaseAsyncAgent._should_use_sync]; [k] selects the measurement of the
    stack that [_check_recursion_depth] returns. *)
Definition _should_use_sync (env : Env) (k : Z) : M World bool :=
  buffer <- reads_ (fun w => _recursion_check_buffer (self w)) ;;
  if _check_recursion_depth env k >=? getrecursionlimit env - buffer then
    update_self (set_fallback_to_sync true) ;;;
    ret true
  else reads_ (fun w => fallback_to_sync (self w)).

(** [await self._queue.join()] returns at once when no task is unfinished
    and waits otherwise. *)
Definition join (q : PriorityQueue) : Step unit :=
  if unfinished_tasks q >? 0 then Suspended else Finished (Ok tt).




(** What [get_results] makes of one stored entry: a result that is a
    coroutine is awaited under 60 seconds. *)
Definition collect_entry (entry : ResultEntry) : ResultEntry :=
  match result entry with
  | Some (VCoroutine run) =>
      match run 60%Q with
      | Completed v =>
          {| status := status entry; result := Some v; error := error entry |}
      | Failed e =>
          {| status := "error"; result := Some VNone;
             error := Some ("Nested coroutine execution failed: " ++ str e) |}
      | Expired =>
          {| status := "error"; result := Some VNone;
             error := Some "Nested coroutine execution failed: " |}
      end
  | _ => entry
  end.

(** The stored entry after the collection: the dict is not replaced, but a
    coroutine object in it has been awaited and cannot be awaited again. *)
Definition consume_entry (entry : ResultEntry) : ResultEntry :=
  match result entry with
  | Some (VCoroutine _) =>
      {| status := status entry;
         result := Some (VCoroutine
                           (fun _ => Failed (RuntimeError
                                               "cannot reuse already awaited coroutine")));
         error := error entry |}
  | _ => entry
  end.

(** [get_results(specific_ids)]. [if specific_ids:] is false for [None] and
    for the empty list alike. *)
Definition get_results (specific_ids : option (list string)) (wq : AsyncWorkQueue)
  : Step (gmap string ResultEntry) * AsyncWorkQueue :=
  match join (_queue wq) with
  | Finished (Ok _) =>
      let processed_results := collect_entry <$> _results wq in
      let wq := set__results (consume_entry <$> _results wq) wq in
      match specific_ids with
      | Some (id :: ids) =>
          (Finished (Ok (filter (fun kv => kv.1 ∈ id :: ids) processed_results)), wq)
      | _ => (Finished (Ok processed_results), wq)
      end
  | Finished (Raise e) => (Finished (Raise e), wq)
  | Finished Cancelled => (Finished Cancelled, wq)
  | Suspended => (Suspended, wq)
  end.

(** [clear_results()] *)
Definition clear_results (wq : AsyncWorkQueue) : AsyncWorkQueue :=
  set__results ∅ wq.

(** [clear_result(work_id)] *)
Definition clear_result (work_id : string) (wq : AsyncWorkQueue) : AsyncWorkQueue :=
  match _results wq !! work_id with
  | Some _ => set__results (delete work_id (_results wq)) wq
  | None => wq
  end.

(** [submit_work(work_item)] *)
Definition submit_work (work_item : WorkItem.t) (wq : AsyncWorkQueue)
  : Step string * AsyncWorkQueue :=
  let (st, wq) := enqueue_work work_item wq in
  (match st with
   | Finished (Ok true) => Finished (Ok (WorkItem.id work_item))
   | Finished (Ok false) => Finished (Raise (Exception "Failed to submit work"))
   | Finished (Raise e) => Finished (Raise e)
   | Finished Cancelled => Finished Cancelled
   | Suspended => Suspended
   end, wq).

(** [_execute_work_item_safe], the per-item body of the batch path
    (jsx_content_analyzer.py only): as the worker's, without the extra await
    of a result that is a coroutine. *)
Definition _execute_work_item_safe (work_item : WorkItem.t) : M AsyncWorkQueue unit :=
  try_finally
    (try_except
       (result <- run_task_func work_item ;;
        store_result (WorkItem.id work_item)
          {| status := "success"; result := Some result; error := None |})
       (fun e =>
          match e with
          | TimeoutError _ =>
              store_result (WorkItem.id work_item)
                {| status := "timeout"; result := None;
                   error := Some ("Task " ++ WorkItem.id work_item ++ " timed out") |}
          | _ =>
              store_result (WorkItem.id work_item)
                {| status := "error"; result := None; error := Some (str e) |}
          end))
    (on_queue task_done).




(** The entry the batch path leaves for an item: three cases. *)
Definition batch_entry (item : WorkItem.t) : ResultEntry :=
  match call_outcome item with
  | Completed v => success_entry v
  | Expired => timeout_entry (WorkItem.id item)
  | Failed (TimeoutError _) => timeout_entry (WorkItem.id item)
  | Failed e => error_entry (str e)
  end.


(** ** JSX source text (jsx_generator.py) *)

From Stdlib Require Import Ascii.

(** A Python [str] is taken in its UTF-8 encoding. The characters counted
    and the markers looked for below are ASCII, and an ASCII byte never
    occurs inside the encoding of another character, so counts and
    occurrences are those of the [str]. *)

(** [s.count(c)] for a one-character [c] *)
Fixpoint str_count (c : Ascii.ascii) (s : string) : nat :=
  match s with
  | EmptyString => 0
  | String a s' => (if Ascii.eqb a c then 1 else 0) + str_count c s'
  end.

(** [c * n] *)
Fixpoint str_times (c : Ascii.ascii) (n : nat) : string :=
  match n with
  | O => EmptyString
  | S n' => String c (str_times c n')
  end.

(** [sub in s] *)
Fixpoint str_contains (sub s : string) : bool :=
  String.prefix sub s ||
  match s with
  | EmptyString => false
  | String _ s' => str_contains sub s'
  end.

(** [JSXCreatorAgent._fix_all_syntax_errors]: declared [async], it awaits
    nothing. *)
Definition _fix_all_syntax_errors (jsx_code : string) : string :=
  let open_braces := str_count "{"%char jsx_code in
  let close_braces := str_count "}"%char jsx_code in
  let jsx_code :=
    if (close_braces <? open_braces)%nat
    then jsx_code ++ str_times "}"%char (open_braces - close_braces)
    else jsx_code in
  let open_parens := str_count "("%char jsx_code in
  let close_parens := str_count ")"%char jsx_code in
  let jsx_code :=
    if (close_parens <? open_parens)%nat
    then jsx_code ++ str_times ")"%char (open_parens - close_parens)
    else jsx_code in
  jsx_code.

(** [JSXCreatorAgent._validate_jsx_syntax] *)
Definition _validate_jsx_syntax (jsx_code : string) : bool :=
  let has_react_import := str_contains "import React" jsx_code in
  let has_export := str_contains "export const" jsx_code in
  let has_return := str_contains "return (" jsx_code in
  let balanced_parens :=
    (str_count "("%char jsx_code =? str_count ")"%char jsx_code)%nat in
  let balanced_braces :=
    (str_count "{"%char jsx_code =? str_count "}"%char jsx_code)%nat in
  has_react_import && has_export && has_return && balanced_parens && balanced_braces.

(** ** The entry points of the two agents *)

(** How a call binds its keyword arguments: the first keyword that names no
    parameter of the function, if there is one. Such a call raises
    [TypeError] before the body runs; none of the functions called below
    declares [**kwargs]. *)
Definition unexpected_keyword (params keywords : list string) : option string :=
  find (fun k => negb (existsb (String.eqb k) params)) keywords.

Definition unexpected_keyword_error (qualname keyword : string) : exn :=
  TypeError (qualname ++ "() got an unexpected keyword argument '" ++ keyword ++ "'").

(** The parameters of [BaseAsyncAgent.execute_with_resilience] after [self]. *)
Definition execute_with_resilience_params : list string :=
  ["task_id"; "task_func"; "args"; "kwargs"; "max_retries"; "initial_timeout";
   "backoff_factor"; "circuit_breaker"].

(** The parameters of [JSXCreatorAgent._get_fallback_result] after [self]. *)
Definition _get_fallback_result_params : list string := ["task_id"].

Definition incr_total_attempts (st : ExecutionStats) :=
  {| total_attempts := total_attempts st + 1;
     successful_executions := successful_executions st;
     fallback_used := fallback_used st;
     circuit_breaker_triggered := circuit_breaker_triggered st;
     timeout_occurred := timeout_occurred st |}.

(** [return await m], for a method whose callers here return [option]. *)
Definition returning {S} (m : M S Value) : M S (option Value) :=
  v <- m ;; ret (Some v).

Section ContentAnalysis.
(** jsx_content_analyzer.py, [JSXContentAnalyzer]. [sync_mode] is
    [_analyze_content_for_jsx_sync_mode(content, section_index,
    total_sections)], which works through the result manager and the vector
    manager; [_safe_content_analysis] is the closure over
    [_execute_content_analysis_pipeline]; [is_usable result] is the value of
    [result and not str(result).startswith("FALLBACK_RESULT")]. *)
Context `{AgentClass} (env : Env) (sync_mode : M World Value)
        (_safe_content_analysis : Callable) (is_usable : Value -> bool).

(** [_analyze_content_for_jsx_batch_mode]; [task_id] is
    [f"content_analysis_{section_index}_{int(time.time())}"]. The call names
    [timeout] and [max_retries]; the parameters it does not name would keep
    their defaults. *)
Definition _analyze_content_for_jsx_batch_mode (task_id : string)
  : M World (option Value) :=
  try_except
    (result <- match unexpected_keyword execute_with_resilience_params
                       ["timeout"; "max_retries"] with
               | Some keyword =>
                   raise (unexpected_keyword_error
                            "BaseAsyncAgent.execute_with_resilience" keyword)
               | None =>
                   execute_with_resilience env task_id _safe_content_analysis
                     2 180 (3 # 2) None
               end ;;
     match result with
     | Some v => if is_usable v then ret (Some v) else returning sync_mode
     | None => ret None
     end)
    (fun e => returning sync_mode).

(** [analyze_content_for_jsx]; [k] selects the measurement of the stack that
    [_should_use_sync] takes. *)
Definition analyze_content_for_jsx (k : Z) (task_id : string) : M World (option Value) :=
  use_sync <- _should_use_sync env k ;;
  if use_sync then returning sync_mode
  else
    fun w =>
      match _analyze_content_for_jsx_batch_mode task_id w with
      | (Raise (RecursionError _), w') =>
          (update_self (set_fallback_to_sync true) ;;; returning sync_mode) w'
      | (Raise (CircuitBreakerOpenError _), w') =>
          (update_self (set_fallback_to_sync true) ;;; returning sync_mode) w'
      | r => r
      end.
End ContentAnalysis.

Section JSXGeneration.
(** jsx_generator.py, [JSXCreatorAgent]. [batch_mode] and [sync_mode] are
    [_generate_jsx_components_batch_mode] and
    [_generate_jsx_components_sync_mode] on the arguments of the call; they
    work through CrewAI and the result manager. *)
Context `{AgentClass} (env : Env) (batch_mode sync_mode : M World Value).

(** [generate_jsx_components_async]; [task_id] is built from the path and
    [time.time_ns()], [k] selects the measurement of the stack. In the last
    handler [_load_template_data_for_fallback] runs first: it catches every
    [Exception], returns the data or [None] and changes nothing here. *)
Definition generate_jsx_components_async (k : Z) (task_id : string) : M World Value :=
  update_self (fun a => set_execution_stats
                          (incr_total_attempts (execution_stats a)) a) ;;;
  use_sync <- _should_use_sync env k ;;
  flag <- reads_ (fun w => fallback_to_sync (self w)) ;;
  if use_sync || flag then sync_mode
  else
    fun w =>
      match batch_mode w with
      | (Raise (RecursionError _), w') =>
          (update_self (set_fallback_to_sync true) ;;; sync_mode) w'
      | (Raise (CircuitBreakerOpenError _), w') =>
          (update_self (set_fallback_to_sync true) ;;; sync_mode) w'
      | (Raise _, w') =>
          match unexpected_keyword _get_fallback_result_params ["template_data"] with
          | Some keyword =>
              (Raise (unexpected_keyword_error
                        "JSXCreatorAgent._get_fallback_result" keyword), w')
          | None => get_fallback task_id w'
          end
      | r => r
      end.
End JSXGeneration.

Definition is_CircuitBreakerOpenError (e : exn) : bool :=
  match e with CircuitBreakerOpenError _ => true | _ => false end.

(** The agent as the two modes of [generate_jsx_components_async] find it:
    the attempt counted and [_should_use_sync] asked. *)
Definition at_dispatch (env : Env) (k : Z) (w : World) : World :=
  snd ((update_self (fun a => set_execution_stats
                                (incr_total_attempts (execution_stats a)) a) ;;;
        _should_use_sync env k) w).

(** [self.fallback_to_sync = True] *)
Definition in_sync_mode (w : World) : World :=
  {| self := set_fallback_to_sync true (self w); given_breaker := given_breaker w;
     wclock := wclock w; trace := trace w |}.

(** ** Session isolation (utils/session_isolation.py) *)

Module SessionIsolation.

(** A dict whose iteration order is observed, in insertion order:
    [d.get(k)], [d[k] = v] (a key already present keeps its place) and
    [del d[k]]. *)
Definition dict_get {A} (k : string) (d : list (string * A)) : option A :=
  match find (fun p => String.eqb (fst p) k) d with
  | Some p => Some (snd p)
  | None => None
  end.

Fixpoint dict_set {A} (k : string) (v : A) (d : list (string * A)) : list (string * A) :=
  match d with
  | [] => [(k, v)]
  | (k', v') :: d' =>
      if String.eqb k' k then (k, v) :: d' else (k', v') :: dict_set k v d'
  end.

Definition dict_del {A} (k : string) (d : list (string * A)) : list (string * A) :=
  List.filter (fun p => negb (String.eqb (fst p) k)) d.

Record SessionConfig := {
  session_id : string;
  isolation_level : string;
  data_retention_hours : Z;
  enable_cross_session_learning : bool;
  vector_index_isolation : bool
}.

(** One element of [agent_results[agent_name]]. *)
Record StoredResult := {
  timestamp : Q;
  stored_result : Value;
  isolation_verified : bool
}.

(** One element of [contamination_log]. *)
Record Contamination := {
  agent : string;
  detected_at : Q;
  contamination_type : string
}.

(** [session_data[session_id]]. Its "vector_data" and "shared_state" are
    created empty and no method of the class reads or writes them. *)
Record SessionData := {
  created_at : Q;
  agent_results : gmap string (list StoredResult);
  contamination_log : list Contamination
}.

Record SessionManager := {
  sessions : list (string * SessionConfig);
  session_data : gmap string SessionData;
  session_locks : gset string               (* the ids that have a lock *)
}.

(** The manager and the wall clock: the [n]-th call of [time.time()]
    returns [readings n]. *)
Record SessionWorld := { manager : SessionManager; time : Clock }.

(** [SessionManager.__init__] *)
Definition SessionManager__init__ : SessionManager :=
  {| sessions := []; session_data := ∅; session_locks := ∅ |}.

Definition time_time : M SessionWorld Q :=
  fun w => (Ok (now (time w)), {| manager := manager w; time := tick (time w) |}).

(** [KeyError] is an [Exception] subclass. *)
Definition KeyError (k : string) : exn := Exception ("KeyError: '" ++ k ++ "'").

(** [int(x)] of a float: towards zero. *)
Definition int_of_float (x : Q) : Z := Z.quot (Qnum x) (Zpos (Qden x)).

(** What the file system does to a method that writes: nothing goes wrong,
    or an exception is raised before the file is open ([mkdir], [open]), or
    while it is written. *)
Inductive FsOutcome :=
| FsOk
| FailsBeforeWrite (e : exn)
| FailsInWrite (e : exn).

(** [_create_session_directory] *)
Definition _create_session_directory (id : string) (fs : FsOutcome)
  : M SessionWorld unit :=
  match fs with
  | FailsBeforeWrite e => raise e
  | _ =>
      time_time ;;;
      config <- reads_ (fun w => dict_get id (sessions (manager w))) ;;
      match config with
      | None => raise (KeyError id)
      | Some _ =>
          match fs with
          | FailsInWrite e => raise e
          | _ => ret tt
          end
      end
  end.

(** [create_session(isolation_level)]; [uuid8] is [uuid.uuid4().hex[:8]]. *)
Definition create_session (level uuid8 : string) (fs : FsOutcome)
  : M SessionWorld string :=
  t <- time_time ;;
  let id := "session_" ++ pretty (int_of_float t) ++ "_" ++ uuid8 in
  let config := {| session_id := id; isolation_level := level;
                   data_retention_hours := 24;
                   enable_cross_session_learning := false;
                   vector_index_isolation := true |} in
  created <- time_time ;;
  modify (fun w =>
            {| manager :=
                 {| sessions := dict_set id config (sessions (manager w));
                    session_data :=
                      <[id := {| created_at := created; agent_results := ∅;
                                 contamination_log := [] |}]>
                        (session_data (manager w));
                    session_locks := {[ id ]} ∪ session_locks (manager w) |};
               time := time w |}) ;;;
  _create_session_directory id fs ;;;
  ret id.

Definition set_session_data (id : string) (d : SessionData) (w : SessionWorld)
  : SessionWorld :=
  {| manager := {| sessions := sessions (manager w);
                   session_data := <[id := d]> (session_data (manager w));
                   session_locks := session_locks (manager w) |};
     time := time w |}.

(** [_cleanup_session]; [rm] is what removing the directory raises, if
    anything. *)
Definition _cleanup_session (id : string) (rm : option exn) : M SessionWorld unit :=
  modify (fun w =>
            {| manager :=
                 {| sessions := dict_del id (sessions (manager w));
                    session_data := delete id (session_data (manager w));
                    session_locks := session_locks (manager w) ∖ {[ id ]} |};
               time := time w |}) ;;;
  match rm with
  | Some e => raise e
  | None => ret tt
  end.

(** The first loop of [cleanup_expired_sessions], over
    [self.sessions.items()]: the ids whose age exceeds the retention time. *)
Fixpoint expired_sessions_of (items : list (string * SessionConfig))
         (data : gmap string SessionData) (current_time : Q) : Result (list string) :=
  match items with
  | [] => Ok []
  | (id, config) :: rest =>
      match data !! id with
      | None => Raise (KeyError id)
      | Some d =>
          match expired_sessions_of rest data current_time with
          | Ok expired =>
              Ok (if Qgtb (current_time - created_at d)
                          (inject_Z (data_retention_hours config * 3600))
                  then id :: expired else expired)
          | r => r
          end
      end
  end.

(** Its second loop; [rm id] is what removing the directory of [id] raises. *)
Fixpoint cleanup_sessions (ids : list string) (rm : string -> option exn)
  : M SessionWorld unit :=
  match ids with
  | [] => ret tt
  | id :: rest => _cleanup_session id (rm id) ;;; cleanup_sessions rest rm
  end.

(** [cleanup_expired_sessions] *)
Definition cleanup_expired_sessions (rm : string -> option exn) : M SessionWorld unit :=
  current_time <- time_time ;;
  expired <- (fun w => (expired_sessions_of (sessions (manager w))
                          (session_data (manager w)) current_time, w)) ;;
  cleanup_sessions expired rm.

Section Manager.
(** [self.isolation_manager.is_contaminated(result, context)], of
    [utils.ai_search_isolation], by what it answers. *)
Context (is_contaminated : Value -> string -> bool).

(** [store_agent_result]. [_save_session_data] at its end catches what the
    file system raises and changes nothing here. *)
Definition store_agent_result (id agent_name : string) (result : Value)
  : M SessionWorld bool :=
  config <- reads_ (fun w => dict_get id (sessions (manager w))) ;;
  match config with
  | None => raise (ValueError ("세션 " ++ id ++ "가 존재하지 않습니다"))
  | Some _ =>
      locked <- reads_ (fun w => bool_decide (id ∈ session_locks (manager w))) ;;
      if negb locked then raise (KeyError id)
      else
        data <- reads_ (fun w => session_data (manager w) !! id) ;;
        match data with
        | None => raise (KeyError id)
        | Some d =>
            if is_contaminated result (agent_name ++ "_result") then
              t <- time_time ;;
              modify (set_session_data id
                        {| created_at := created_at d;
                           agent_results := agent_results d;
                           contamination_log :=
                             (contamination_log d ++
                              [{| agent := agent_name; detected_at := t;
                                  contamination_type := "agent_result" |}])%list |}) ;;;
              ret false
            else
              t <- time_time ;;
              modify (set_session_data id
                        {| created_at := created_at d;
                           agent_results :=
                             <[agent_name :=
                                 (default [] (agent_results d !! agent_name) ++
                                  [{| timestamp := t; stored_result := result;
                                      isolation_verified := true |}])%list]>
                               (agent_results d);
                           contamination_log := contamination_log d |}) ;;;
              ret true
        end
  end.

(** [[r for r in results if time.time() - r["timestamp"] < 3600]]: the
    clock is read once for every element. *)
Fixpoint recent_results (results : list StoredResult) : M SessionWorld (list StoredResult) :=
  match results with
  | [] => ret []
  | r :: rest =>
      t <- time_time ;;
      kept <- recent_results rest ;;
      ret (if Qgtb 3600 (t - timestamp r) then r :: kept else kept)
  end.

(** [get_agent_results] *)
Definition get_agent_results (id agent_name : string) : M SessionWorld (list Value) :=
  config <- reads_ (fun w => dict_get id (sessions (manager w))) ;;
  match config with
  | None => ret []
  | Some config =>
      locked <- reads_ (fun w => bool_decide (id ∈ session_locks (manager w))) ;;
      if negb locked then raise (KeyError id)
      else
        data <- reads_ (fun w => session_data (manager w) !! id) ;;
        match data with
        | None => raise (KeyError id)
        | Some d =>
            let results := default [] (agent_results d !! agent_name) in
            if String.eqb (isolation_level config) "strict" then
              ret (map stored_result results)
            else if String.eqb (isolation_level config) "moderate" then
              recent <- recent_results results ;;
              ret (map stored_result recent)
            else ret (map stored_result results)
        end
  end.

(** The [for] loop of [get_cross_session_data] over [self.sessions.items()]. *)
Fixpoint cross_session_loop (items : list (string * SessionConfig))
         (current agent_name : string) (max_sessions session_count : Z)
         (cross_session_results : list Value) : M SessionWorld (list Value) :=
  match items with
  | [] => ret cross_session_results
  | (id, _) :: rest =>
      if String.eqb id current || (session_count >=? max_sessions) then
        cross_session_loop rest current agent_name max_sessions session_count
          cross_session_results
      else
        results <- get_agent_results id agent_name ;;
        cross_session_loop rest current agent_name max_sessions (session_count + 1)
          (cross_session_results ++
           List.filter (fun r => negb (is_contaminated r ("cross_session_" ++ agent_name)))
             results)%list
  end.

(** [get_cross_session_data] *)
Definition get_cross_session_data (current agent_name : string) (max_sessions : Z)
  : M SessionWorld (list Value) :=
  config <- reads_ (fun w => dict_get current (sessions (manager w))) ;;
  match config with
  | None => ret []
  | Some config =>
      if negb (enable_cross_session_learning config) then ret []
      else
        items <- reads_ (fun w => sessions (manager w)) ;;
        cross_session_loop items current agent_name max_sessions 0 []
  end.

(** [SessionAwareMixin], by the two attributes its methods use. *)
Record SessionAware := { current_session_id : string; agent_name_of : string }.

(** [SessionAwareMixin.store_result] *)
Definition store_result (a : SessionAware) (result : Value) : M SessionWorld bool :=
  store_agent_result (current_session_id a) (agent_name_of a) result.

(** [l[-n:]] *)
Definition slice_last {A} (l : list A) (n : Z) : list A :=
  let len := Z.of_nat (length l) in
  let start := if - n <? 0 then Z.max (len - n) 0 else Z.min (- n) len in
  skipn (Z.to_nat start) l.

(** [SessionAwareMixin.get_previous_results] *)
Definition get_previous_results (a : SessionAware) (max_results : Z)
  : M SessionWorld (list Value) :=
  results <- get_agent_results (current_session_id a) (agent_name_of a) ;;
  ret (match results with
       | [] => []
       | _ => slice_last results max_results
       end).

(** A call on the manager, and the state a sequence of calls leaves. *)
Inductive Call :=
| CreateSession (level uuid8 : string) (fs : FsOutcome)
| StoreAgentResult (id agent_name : string) (result : Value)
| GetAgentResults (id agent_name : string)
| GetCrossSessionData (current agent_name : string) (max_sessions : Z)
| CleanupSession (id : string) (rm : option exn)
| CleanupExpiredSessions (rm : string -> option exn).

Definition run_call (c : Call) (w : SessionWorld) : SessionWorld :=
  match c with
  | CreateSession level uuid8 fs => snd (create_session level uuid8 fs w)
  | StoreAgentResult id agent_name result => snd (store_agent_result id agent_name result w)
  | GetAgentResults id agent_name => snd (get_agent_results id agent_name w)
  | GetCrossSessionData current agent_name max_sessions =>
      snd (get_cross_session_data current agent_name max_sessions w)
  | CleanupSession id rm => snd (_cleanup_session id rm w)
  | CleanupExpiredSessions rm => snd (cleanup_expired_sessions rm w)
  end.

Definition run_calls (cs : list Call) (w : SessionWorld) : SessionWorld :=
  fold_left (fun w c => run_call c w) cs w.

End Manager.

(** No session of the manager has cross-session learning on. *)
Definition learning_off (m : SessionManager) : Prop :=
  Forall (fun p => enable_cross_session_learning (snd p) = false) (sessions m).

End SessionIsolation.

(** * Theorems *)

(** ** Comparisons on rationals *)

Lemma Qgtb_true (a b : Q) : Qgtb a b = true <-> (b < a)%Q.
Proof.
  unfold Qgtb. rewrite negb_true_iff, <- not_true_iff_false, Qle_bool_iff.
  split; [apply Qnot_le_lt | apply Qlt_not_le].
Qed.

Lemma Qgtb_false (a b : Q) : Qgtb a b = false <-> (a <= b)%Q.
Proof.
  unfold Qgtb. rewrite negb_false_iff. apply Qle_bool_iff.
Qed.

Lemma truthy_true (x : Q) : truthy x = true <-> ~ (x == 0)%Q.
Proof.
  unfold truthy. rewrite negb_true_iff, <- not_true_iff_false, Qeq_bool_iff.
  reflexivity.
Qed.

(** ** The breaker *)

Ltac run_breaker :=
  unfold record_failure, record_success, _reset_counts, state, bind, ret,
    read_cb, reads_, update_cb, modify, monotonic; simpl.

(** A breaker whose stored state is not OPEN reports it without touching
    anything, the clock included. *)
Lemma state_not_open (w : BreakerWorld) :
  _state (cb w) <> OPEN -> state w = (Ok (_state (cb w)), w).
Proof.
  intros H. destruct w as [b c]. simpl in *. run_breaker.
  destruct (_state b) eqn:E; simpl; rewrite ?E; try reflexivity; contradiction.
Qed.

(** An Open breaker read before [recovery_timeout] has elapsed since its
    last failure reports Open. *)
Lemma state_open_within (b : CircuitBreaker) (c : Clock) (t : Q) :
  _state b = OPEN -> _last_failure_time b = Some t ->
  (now c - t <= recovery_timeout b)%Q ->
  fst (state {| cb := b; clock := c |}) = Ok OPEN.
Proof.
  intros Hs Ht Hcmp. apply Qgtb_false in Hcmp.
  destruct b; simpl in *; subst. run_breaker.
  destruct (truthy t); simpl; [|reflexivity].
  unfold now in *. simpl in *. rewrite Hcmp. reflexivity.
Qed.

(** One failure recorded on a CLOSED breaker. *)
Lemma record_failure_closed (b : CircuitBreaker) (c : Clock) :
  _state b = CLOSED ->
  record_failure {| cb := b; clock := c |} =
  (Ok tt,
   {| cb := (if _failure_count b + 1 >=? failure_threshold b
             then set__state OPEN else (fun x => x))
              (set__last_failure_time (Some (now c))
                 (set__failure_count (_failure_count b + 1) b));
      clock := tick c |}).
Proof.
  intros H. destruct b; simpl in *; subst. run_breaker.
  destruct (_ >=? _); reflexivity.
Qed.

Lemma record_failures_closed_below (k : nat) :
  forall (b : CircuitBreaker) (c : Clock),
    _state b = CLOSED -> 0 <= _failure_count b ->
    _failure_count b + Z.of_nat k < failure_threshold b ->
    exists b' c',
      record_failures k {| cb := b; clock := c |} = (Ok tt, {| cb := b'; clock := c' |}) /\
      _state b' = CLOSED /\ _failure_count b' = _failure_count b + Z.of_nat k /\
      failure_threshold b' = failure_threshold b /\
      recovery_timeout b' = recovery_timeout b.
Proof.
  induction k as [|k IH]; intros b c Hs Hc Hlt.
  - exists b, c. simpl. unfold ret. repeat split; try assumption; lia.
  - simpl record_failures. unfold bind at 1.
    rewrite (record_failure_closed b c Hs).
    assert (Hb : (_failure_count b + 1 >=? failure_threshold b) = false)
      by (rewrite Z.geb_leb; apply Z.leb_gt; lia).
    rewrite Hb.
    destruct (IH (set__last_failure_time (Some (now c))
                    (set__failure_count (_failure_count b + 1) b)) (tick c))
      as (b' & c' & Hrun & Hs' & Hc' & Hft & Hrt); simpl; try lia; try assumption.
    exists b', c'. rewrite Hrun. simpl in *. repeat split; try assumption; lia.
Qed.

(** C3. Starting from a Closed breaker with no failure counted and a
    positive threshold: any number of consecutive [record_failure()] calls
    strictly below [failure_threshold] leaves the breaker Closed (stored and
    as reported by the [state] property), and exactly [failure_threshold]
    calls leave it Open, with the count at the threshold; the [state]
    property reports Open for as long as [recovery_timeout] has not elapsed
    since the last of these failures. *)
Theorem breaker_opens_exactly_at_threshold (b : CircuitBreaker) (c : Clock) :
  _state b = CLOSED -> _failure_count b = 0 -> 0 < failure_threshold b ->
  (forall k : nat, Z.of_nat k < failure_threshold b ->
     exists w', record_failures k {| cb := b; clock := c |} = (Ok tt, w') /\
                _state (cb w') = CLOSED /\ fst (state w') = Ok CLOSED) /\
  (exists w', record_failures (Z.to_nat (failure_threshold b)) {| cb := b; clock := c |}
              = (Ok tt, w') /\
              _state (cb w') = OPEN /\ _failure_count (cb w') = failure_threshold b /\
              (forall t, _last_failure_time (cb w') = Some t ->
                         (now (clock w') - t <= recovery_timeout b)%Q ->
                         fst (state w') = Ok OPEN)).
Proof.
  intros Hs Hc Hpos. split.
  - intros k Hk.
    destruct (record_failures_closed_below k b c Hs) as (b' & c' & Hrun & Hs' & _);
      try lia.
    eexists. split; [exact Hrun|]. split; [exact Hs'|].
    rewrite state_not_open; simpl; rewrite Hs'; [reflexivity | discriminate].
  - remember (Z.to_nat (failure_threshold b - 1)) as k eqn:Hk.
    replace (Z.to_nat (failure_threshold b)) with (k + 1)%nat by lia.
    assert (Hsplit : forall n m w, record_failures (n + m) w =
               bind (record_failures n) (fun _ => record_failures m) w).
    { clear. induction n as [|n IH]; intros m w; simpl.
      - unfold bind, ret. reflexivity.
      - unfold bind in *.
        destruct (record_failure w) as [[[]|e|] w1]; [apply IH | reflexivity | reflexivity]. }
    rewrite Hsplit. unfold bind at 1.
    destruct (record_failures_closed_below k b c Hs)
      as (b' & c' & Hrun & Hs' & Hc' & Hft & Hrt); try lia.
    rewrite Hrun. simpl record_failures. unfold bind at 1.
    rewrite (record_failure_closed b' c' Hs').
    assert (Hb : (_failure_count b' + 1 >=? failure_threshold b') = true)
      by (rewrite Z.geb_leb; apply Z.leb_le; lia).
    rewrite Hb. eexists. split; [reflexivity|]. simpl.
    split; [reflexivity|]. split; [lia|].
    intros t Ht Hcmp. apply (state_open_within _ _ t); simpl;
      [reflexivity | exact Ht | rewrite Hrt; exact Hcmp].
Qed.

(** A concrete instance of C3: the agents' own breaker
    ([failure_threshold=8], [recovery_timeout=30.0]). *)
Lemma breaker_opens_exactly_at_threshold_witness :
  let b := CircuitBreaker__init__ 8 30 2 in
  let c := {| readings := fun n => inject_Z (Z.of_nat n + 1); reads := 0 |} in
  (forall k : nat, Z.of_nat k < 8 ->
     exists w', record_failures k {| cb := b; clock := c |} = (Ok tt, w') /\
                _state (cb w') = CLOSED /\ fst (state w') = Ok CLOSED) /\
  (exists w', record_failures 8 {| cb := b; clock := c |} = (Ok tt, w') /\
              _state (cb w') = OPEN /\ _failure_count (cb w') = 8 /\
              (forall t, _last_failure_time (cb w') = Some t ->
                         (now (clock w') - t <= 30)%Q ->
                         fst (state w') = Ok OPEN)).
Proof.
  intros b c.
  apply (breaker_opens_exactly_at_threshold b c); [reflexivity | reflexivity | reflexivity].
Defined.

(** C4. A breaker whose stored state is Open and whose last failure has a
    (truthy) timestamp [t]: a read of [state] at clock reading [now] returns
    Open and leaves the breaker as it is while [now - t <= recovery_timeout];
    once [now - t > recovery_timeout] the read itself stores HalfOpen (and a
    zero success count) and returns HalfOpen. The read is the only actor:
    it takes one clock reading and nothing else. *)
Theorem open_breaker_recovers_on_read (b : CircuitBreaker) (c : Clock) (t : Q) :
  _state b = OPEN -> _last_failure_time b = Some t -> ~ (t == 0)%Q ->
  ((now c - t <= recovery_timeout b)%Q ->
     state {| cb := b; clock := c |} = (Ok OPEN, {| cb := b; clock := tick c |})) /\
  ((recovery_timeout b < now c - t)%Q ->
     state {| cb := b; clock := c |} =
     (Ok HALF_OPEN,
      {| cb := set__success_count 0 (set__state HALF_OPEN b); clock := tick c |})).
Proof.
  intros Hs Ht Hnz. apply truthy_true in Hnz.
  split; intros Hcmp.
  - apply Qgtb_false in Hcmp.
    destruct b; simpl in *; subst. run_breaker. rewrite Hnz. simpl.
    unfold now in *. simpl in *. rewrite Hcmp. reflexivity.
  - apply Qgtb_true in Hcmp.
    destruct b; simpl in *; subst. run_breaker. rewrite Hnz. simpl.
    unfold now in *. simpl in *. rewrite Hcmp. reflexivity.
Qed.

(** An instance of C4: last failure at 10 s, [recovery_timeout = 30]; a read
    at 40 s still reports Open, a read at 41 s reports HalfOpen. *)
Lemma open_breaker_recovers_on_read_witness :
  let b := set__last_failure_time (Some 10%Q)
             (set__state OPEN (CircuitBreaker__init__ 8 30 2)) in
  fst (state {| cb := b; clock := {| readings := fun _ => 40%Q; reads := 0 |} |})
    = Ok OPEN /\
  fst (state {| cb := b; clock := {| readings := fun _ => 41%Q; reads := 0 |} |})
    = Ok HALF_OPEN.
Proof.
  intros b. split.
  - rewrite (proj1 (open_breaker_recovers_on_read b
               {| readings := fun _ => 40%Q; reads := 0 |} 10%Q
               eq_refl eq_refl ltac:(discriminate))); [reflexivity | discriminate].
  - rewrite (proj2 (open_breaker_recovers_on_read b
               {| readings := fun _ => 41%Q; reads := 0 |} 10%Q
               eq_refl eq_refl ltac:(discriminate))); [reflexivity | reflexivity].
Defined.

(** C5. On a breaker whose stored state is HalfOpen, whatever its success
    count, one [record_failure()] returns normally and leaves the state Open
    with [failure_count] equal to [failure_threshold]; the success count is
    not consulted and stays as it was. *)
Theorem half_open_failure_reopens (b : CircuitBreaker) (c : Clock) :
  _state b = HALF_OPEN ->
  exists w',
    record_failure {| cb := b; clock := c |} = (Ok tt, w') /\
    _state (cb w') = OPEN /\
    _failure_count (cb w') = failure_threshold b /\
    failure_threshold (cb w') = failure_threshold b /\
    _success_count (cb w') = _success_count b /\
    _last_failure_time (cb w') = Some (now c).
Proof.
  intros Hs. destruct b; simpl in *; subst.
  eexists. split; [run_breaker; reflexivity |]. simpl. repeat split.
Qed.

(** An instance of C5: a probing breaker that already has one success. *)
Lemma half_open_failure_reopens_witness :
  let b := set__success_count 1 (set__state HALF_OPEN (CircuitBreaker__init__ 8 30 2)) in
  exists w',
    record_failure {| cb := b; clock := {| readings := fun _ => 5%Q; reads := 0 |} |}
      = (Ok tt, w') /\
    _state (cb w') = OPEN /\
    _failure_count (cb w') = 8 /\
    failure_threshold (cb w') = 8 /\
    _success_count (cb w') = 1 /\
    _last_failure_time (cb w') = Some 5%Q.
Proof.
  intros b.
  exact (half_open_failure_reopens b {| readings := fun _ => 5%Q; reads := 0 |} eq_refl).
Defined.

(** ** reset_system_state *)

(** The analyzer's reset never gets past its second statement, whatever the
    agent: the first creates the attribute [failure_count] (the breaker's
    own counter is [_failure_count]), the second assigns to the read-only
    property. *)
Lemma analyzer_reset_always_raises (a : BaseAsyncAgent) :
  JSXContentAnalyzer.reset_system_state a =
  (Raise (AttributeError "property 'state' of 'CircuitBreaker' object has no setter"),
   set_circuit_breaker (set_failure_count (Some 0) (circuit_breaker a)) a).
Proof. reflexivity. Qed.

(** The reset of the sibling class, called inside a running event loop, does
    what the specification asks, any number of times in a row. *)
Lemma creator_reset_repeatable (n : nat) (a : BaseAsyncAgent) :
  (1 <= n)%nat ->
  exists a',
    repeat_call (JSXCreatorAgent.reset_system_state true) n a = (Ok tt, a') /\
    _state (circuit_breaker a') = CLOSED /\
    _failure_count (circuit_breaker a') = 0 /\
    fallback_to_sync a' = false /\
    execution_stats a' = zero_stats.
Proof.
  intros Hn. destruct n as [|n]; [lia|]. clear Hn. revert a.
  induction n as [|n IH]; intros a.
  - eexists. split; [reflexivity|]. simpl. repeat split.
  - destruct (IH (snd (JSXCreatorAgent.reset_system_state true a)))
      as (a' & Hrun & Hprops).
    exists a'. split; [|exact Hprops].
    change (repeat_call (JSXCreatorAgent.reset_system_state true) (S (S n)) a)
      with (bind (JSXCreatorAgent.reset_system_state true)
              (fun _ => repeat_call (JSXCreatorAgent.reset_system_state true) (S n)) a).
    unfold bind at 1.
    change (JSXCreatorAgent.reset_system_state true a)
      with (Ok tt, snd (JSXCreatorAgent.reset_system_state true a)).
    exact Hrun.
Qed.

(** C2, evaluated on an analyzer whose breaker has tripped and whose
    counters have moved: [reset_system_state()] raises [AttributeError], and
    afterwards the breaker is still Open with its failure count, the
    sync-mode flag is still set and the counters are what they were. *)
Theorem analyzer_reset_system_state_raises :
  let tripped :=
    {| circuit_breaker :=
         set__failure_count 8 (set__state OPEN (CircuitBreaker__init__ 8 30 2));
       fallback_to_sync := true;
       _recursion_check_buffer := 50;
       execution_stats :=
         {| total_attempts := 5; successful_executions := 3; fallback_used := 1;
            circuit_breaker_triggered := 1; timeout_occurred := 2 |} |} in
  exists msg a',
    JSXContentAnalyzer.reset_system_state tripped = (Raise (AttributeError msg), a') /\
    _state (circuit_breaker a') = OPEN /\
    _failure_count (circuit_breaker a') = 8 /\
    fallback_to_sync a' = true /\
    execution_stats a' = execution_stats tripped.
Proof.
  intros tripped. eexists. eexists. split; [reflexivity|]. simpl. repeat split.
Qed.

(** ** The queue *)

(** [put] parks the caller on a full queue and never raises [QueueFull]. *)
Lemma put_never_raises_QueueFull (item : WorkItem.t) (q : PriorityQueue) :
  fst (put item q) = Suspended \/ fst (put item q) = Finished (Ok tt).
Proof.
  unfold put, put_nowait. destruct (full q); [left | right]; reflexivity.
Qed.

(** So [enqueue_work] has no way to return [False]. *)
Lemma enqueue_work_never_false (item : WorkItem.t) (wq : AsyncWorkQueue) :
  fst (enqueue_work item wq) <> Finished (Ok false).
Proof.
  unfold enqueue_work.
  set (wq1 := if negb (_running wq) then start wq else wq).
  pose proof (put_never_raises_QueueFull item (_queue wq1)) as Hput.
  destruct (put item (_queue wq1)) as [st q']. simpl in *.
  destruct Hput as [-> | ->]; simpl; discriminate.
Qed.

(** On a queue at capacity the caller is suspended; the stored items are as
    before and the new item waits outside the queue. *)
Lemma enqueue_work_at_capacity_suspends (item : WorkItem.t) (wq : AsyncWorkQueue) :
  full (_queue wq) = true ->
  exists wq',
    enqueue_work item wq = (Suspended, wq') /\
    heap (_queue wq') = heap (_queue wq) /\
    putters (_queue wq') = (putters (_queue wq) ++ [item])%list.
Proof.
  intros Hfull. unfold enqueue_work.
  assert (Hq : _queue (if negb (_running wq) then start wq else wq) = _queue wq).
  { unfold start. destruct (_running wq); reflexivity. }
  unfold put. rewrite Hq, Hfull. eexists. split; [reflexivity|]. simpl. split; reflexivity.
Qed.

(** C1, evaluated on [AsyncWorkQueue(max_workers=2, max_queue_size=1)] that
    holds one item: the next [enqueue_work] does not return [False]; it is
    suspended in [put] with the queue contents unchanged, and as soon as a
    worker has taken the stored item the suspended call goes on, puts its
    item in the queue and returns [True]. *)
Theorem enqueue_work_on_full_queue_waits :
  let job := PlainFunction "job" (fun _ _ => Completed VNone) in
  let first := WorkItem.mk "a" job 0 3 0 300 0 in
  let second := WorkItem.mk "b" job 0 3 0 300 0 in
  exists wq1 wq2 wq3 wq4,
    enqueue_work first (AsyncWorkQueue__init__ 2 1) = (Finished (Ok true), wq1) /\
    qsize (_queue wq1) = maxsize (_queue wq1) /\
    enqueue_work second wq1 = (Suspended, wq2) /\
    heap (_queue wq2) = [first] /\
    on_queue get_item wq2 = (Ok first, wq3) /\
    resume_enqueue_work wq3 = Some (Finished (Ok true), wq4) /\
    heap (_queue wq4) = [second].
Proof.
  intros job first second.
  eexists. eexists. eexists. eexists.
  split; [reflexivity|]. split; [reflexivity|]. split; [reflexivity|].
  split; [reflexivity|]. split; [reflexivity|]. split; reflexivity.
Qed.

(** ** The worker *)

Ltac run_worker :=
  unfold _worker_iteration, process_item, run_task_func, store_result, on_queue,
    get_item, task_done, try_finally, try_except, wait_for, await, bind, ret,
    raise, modify, reads_; simpl.

(** One round of the worker on a queue that holds an item: the round ends
    normally, the item is gone from the queue and the table differs from the
    old one in the entry of that item only, which is [expected_entry]. *)
Lemma worker_iteration_entry (wq : AsyncWorkQueue) (item : WorkItem.t)
      (rest : list WorkItem.t) :
  heap (_queue wq) = item :: rest ->
  exists wq',
    _worker_iteration wq = (Ok Continue, wq') /\
    _results wq' = <[WorkItem.id item := expected_entry item]> (_results wq) /\
    heap (_queue wq') = rest.
Proof.
  intros Hheap.
  destruct wq as [[ms h u ps] ws mw run res]. simpl in Hheap. subst h.
  unfold expected_entry, call_outcome.
  run_worker.
  destruct (WorkItem.task_func item) as [nm r | r | nm call | nm call]; simpl.
  1, 2: destruct (u <=? 0); simpl; eexists; (split; [reflexivity|]); simpl;
        split; reflexivity.
  all: destruct (call (WorkItem.current_retry item) (WorkItem.timeout item))
         as [v | e |]; simpl.
  all: try (destruct v as [| s | z | run']; simpl).
  all: try (destruct (run' (WorkItem.timeout item)) as [v' | e' |]; simpl).
  all: try (destruct e; simpl).
  all: destruct (u <=? 0); simpl; eexists; (split; [reflexivity|]); simpl;
       split; reflexivity.
Qed.

(** A round never ends with an exception, whatever the queue holds. *)
Lemma worker_iteration_contains_exceptions (wq : AsyncWorkQueue) :
  exists ctl wq', _worker_iteration wq = (Ok ctl, wq').
Proof.
  destruct (heap (_queue wq)) as [|item rest] eqn:Hheap.
  - destruct wq as [[ms h u ps] ws mw run res]. simpl in Hheap. subst h.
    run_worker. destruct (negb run && _); eexists; eexists; reflexivity.
  - destruct (worker_iteration_entry wq item rest Hheap) as (wq' & Hrun & _).
    eexists. eexists. exact Hrun.
Qed.

(** Nor does the loop as a whole. *)
Lemma worker_contains_exceptions (fuel : nat) :
  forall wq : AsyncWorkQueue, exists r wq', _worker fuel wq = (Ok r, wq').
Proof.
  induction fuel as [|fuel IH]; intros wq.
  - eexists. eexists. reflexivity.
  - simpl. unfold bind, reads_. simpl.
    destruct (_running wq || negb (empty (_queue wq))).
    + destruct (worker_iteration_contains_exceptions wq) as (ctl & wq1 & Hrun).
      rewrite Hrun. destruct ctl.
      * apply IH.
      * eexists. eexists. reflexivity.
    + eexists. eexists. reflexivity.
Qed.

(** C9, as amended. For the item a worker takes from the queue, the round
    ends normally and the result table is the old one with the single entry
    of that item set: "success" with the value when the callable completes
    (when the value is itself a coroutine it is awaited once more under the
    item's timeout: "success" with what that gives, "error" with the prefix
    "Nested coroutine execution failed: " when that raises or expires);
    "timeout" when the callable exceeds the item's timeout; "error" with
    [str(e)] for any other exception. No exception leaves the round or the
    worker loop. *)
Theorem worker_stores_one_tagged_entry (wq : AsyncWorkQueue) (item : WorkItem.t)
        (rest : list WorkItem.t) :
  heap (_queue wq) = item :: rest ->
  (exists wq',
     _worker_iteration wq = (Ok Continue, wq') /\
     _results wq' = <[WorkItem.id item := expected_entry item]> (_results wq) /\
     (forall other, other <> WorkItem.id item ->
                    _results wq' !! other = _results wq !! other) /\
     heap (_queue wq') = rest) /\
  (forall fuel, exists r wq', _worker fuel wq = (Ok r, wq')).
Proof.
  intros Hheap. split.
  - destruct (worker_iteration_entry wq item rest Hheap) as (wq' & Hrun & Hres & Hrest).
    exists wq'. repeat split; try assumption.
    intros other Hne. rewrite Hres. apply lookup_insert_ne. congruence.
  - intros fuel. apply worker_contains_exceptions.
Qed.

(** An instance of C9: the callable returns 7. *)
Lemma worker_stores_one_tagged_entry_witness :
  let item := WorkItem.mk "a" (PlainFunction "job" (fun _ _ => Completed (VInt 7)))
                0 3 0 300 0 in
  let wq := snd (enqueue_work item (AsyncWorkQueue__init__ 2 50)) in
  (exists wq',
     _worker_iteration wq = (Ok Continue, wq') /\
     _results wq' = <["a" := success_entry (VInt 7)]> (_results wq) /\
     (forall other, other <> "a" -> _results wq' !! other = _results wq !! other) /\
     heap (_queue wq') = []) /\
  (forall fuel, exists r wq', _worker fuel wq = (Ok r, wq')).
Proof.
  intros item wq.
  exact (worker_stores_one_tagged_entry wq item [] eq_refl).
Defined.

(** The three-case reading fails on a callable that returns a coroutine
    whose extra await runs out of time: the callable completed and the
    item's timeout was exceeded, yet the entry is tagged "error". *)
Lemma tagging_as_stated_fails : ~ tagging_as_stated.
Proof.
  intros Hclaim.
  pose (item := WorkItem.mk "a"
                  (PlainFunction "job"
                     (fun _ _ => Completed (VCoroutine (fun _ => Expired))))
                  0 3 0 300 0).
  pose (wq := {| _queue := {| maxsize := 50; heap := [item]; unfinished_tasks := 1;
                              putters := [] |};
                 _workers := [0; 1]; _max_workers := 2; _running := true;
                 _results := ∅ |}).
  destruct (Hclaim wq item [] eq_refl) as (wq1 & entry & Hrun & Hres & Hstatus).
  destruct (worker_iteration_entry wq item [] eq_refl) as (wq2 & Hrun' & Hres' & _).
  rewrite Hrun in Hrun'. injection Hrun' as <-.
  assert (Hentry : Some entry = Some (expected_entry item)).
  { rewrite <- (lookup_insert_eq (_results wq) (WorkItem.id item) entry), <- Hres, Hres'.
    apply lookup_insert_eq. }
  injection Hentry as ->. discriminate Hstatus.
Qed.

(** ** The breaker inside an attempt *)

Lemma state_total (w : BreakerWorld) : exists s w', state w = (Ok s, w').
Proof.
  destruct w as [[ft rt hoa st fc sc lft fca] c]. run_breaker.
  destruct st; simpl; try (eexists; eexists; reflexivity).
  destruct lft as [t|]; simpl; [|eexists; eexists; reflexivity].
  destruct (truthy t); simpl; [|eexists; eexists; reflexivity].
  destruct (Qgtb _ _); simpl; eexists; eexists; reflexivity.
Qed.

Lemma record_failure_total (w : BreakerWorld) : exists w', record_failure w = (Ok tt, w').
Proof.
  unfold record_failure. unfold bind at 1. unfold update_cb at 1, modify. simpl.
  unfold bind at 1. unfold monotonic at 1. simpl.
  unfold bind at 1. unfold update_cb at 1, modify. simpl.
  unfold bind at 1.
  match goal with |- context [state ?x] => destruct (state_total x) as (s & w1 & ->) end.
  destruct (CircuitBreakerState_eqb s HALF_OPEN).
  - eexists. reflexivity.
  - unfold bind, read_cb, reads_. simpl.
    destruct (_ >=? _); [|eexists; reflexivity].
    destruct (state_total w1) as (s' & w2 & ->).
    destruct (CircuitBreakerState_eqb s' CLOSED); eexists; reflexivity.
Qed.

Lemma record_success_total (w : BreakerWorld) : exists w', record_success w = (Ok tt, w').
Proof.
  unfold record_success. unfold bind at 1.
  destruct (state_total w) as (s & w1 & ->).
  destruct (CircuitBreakerState_eqb s HALF_OPEN).
  - unfold bind, update_cb, read_cb, reads_, modify, _reset_counts. simpl.
    destruct (_ >=? _); eexists; reflexivity.
  - unfold bind at 1. destruct (state_total w1) as (s' & w2 & ->).
    destruct (CircuitBreakerState_eqb s' CLOSED); eexists; reflexivity.
Qed.

(** An Open breaker rejects the call without running it. *)
Lemma execute_rejected (f : Callable) (n : Z) (budget : Q) (w : BreakerWorld) :
  fst (state w) = Ok OPEN ->
  execute f n budget w = (Raise (rejection f), snd (state w)).
Proof.
  intros H. unfold execute. unfold bind at 1.
  destruct (state w) as [r w1]. simpl in *. subst r. reflexivity.
Qed.

(** Any other breaker runs it; the caller gets the value or the exception
    of the callable, or is cancelled with it when the budget expires. *)
Lemma execute_admitted (f : Callable) (n : Z) (budget : Q) (w : BreakerWorld) :
  fst (state w) <> Ok OPEN ->
  exists w',
    execute f n budget w =
    (match answer f n budget with
     | Completed v => Ok v
     | Failed e => Raise e
     | Expired => Cancelled
     end, w').
Proof.
  intros H. unfold execute. unfold bind at 1.
  destruct (state_total w) as (s & w1 & Hs). rewrite Hs in *. simpl in H.
  destruct s; simpl; try congruence.
  all: unfold try_except, bind at 1.
  all: replace (match f with
                | CoroutineObject _ run => await (run budget)
                | FutureObject run => await (run budget)
                | CoroutineFunction _ call => await (call n budget)
                | PlainFunction _ call => await (call n budget)
                end) with (@await BreakerWorld (answer f n budget))
         by (destruct f; reflexivity).
  all: unfold await; destruct (answer f n budget) as [v | e |]; simpl.
  all: try (unfold bind; destruct (record_success_total w1) as (w2 & ->);
            eexists; reflexivity).
  all: try (unfold bind; destruct (record_failure_total w1) as (w2 & ->);
            eexists; reflexivity).
  all: eexists; reflexivity.
Qed.

(** ** One attempt of the retry loop *)

Section RetryLoopFacts.
Context (env : Env) (task_id : string) (f : Callable)
        (max_retries : Z) (bf : Q) (br : BreakerRef).

Lemma below_limit_dec (c : Z) (w : World) :
  below_limit env c w \/ ~ below_limit env c w.
Proof. unfold below_limit. lia. Qed.

Lemma admits_dec (w : World) : admits br w \/ ~ admits br w.
Proof.
  unfold admits.
  destruct (state_total {| cb := breaker_at br w; clock := wclock w |}) as (s & w' & ->).
  simpl. destruct s; [left | right | left]; congruence.
Qed.

(** With the stack at or past the limit, the attempt raises before it
    touches the breaker or the callable. *)
Lemma attempt_gate_closed (c : Z) (t : Q) (w : World) :
  ~ below_limit env c w ->
  attempt env task_id f br c t w =
  (Raise (RecursionError ("Preemptive recursion depth stop for "
                          ++ task_full_id task_id c)), w).
Proof.
  intros H. unfold below_limit in H. unfold attempt, bind, reads_. simpl.
  assert (Hb : (_check_recursion_depth env c >=?
                getrecursionlimit env - _recursion_check_buffer (self w)) = true)
    by (rewrite Z.geb_leb; apply Z.leb_le; lia).
  rewrite Hb. reflexivity.
Qed.

Lemma attempt_rejected (c : Z) (t : Q) (w : World) :
  below_limit env c w -> ~ admits br w ->
  exists w',
    attempt env task_id f br c t w = (Raise (rejection f), w') /\ keeps w w' /\
    fallback_to_sync (self w') = fallback_to_sync (self w) /\
    execution_stats (self w') = execution_stats (self w).
Proof.
  intros Hlim Hrej. unfold below_limit in Hlim. unfold admits in Hrej.
  assert (Hopen : fst (state {| cb := breaker_at br w; clock := wclock w |}) = Ok OPEN).
  { destruct (state_total {| cb := breaker_at br w; clock := wclock w |})
      as (s & w' & Hs). rewrite Hs in *. simpl in *.
    destruct s; try (exfalso; apply Hrej; discriminate). reflexivity. }
  unfold attempt, bind, reads_. simpl.
  assert (Hb : (_check_recursion_depth env c >=?
                getrecursionlimit env - _recursion_check_buffer (self w)) = false)
    by (rewrite Z.geb_leb; apply Z.leb_gt; lia).
  rewrite Hb. unfold ret, wait_for, on_breaker.
  rewrite (execute_rejected f c t _ Hopen).
  destruct br; eexists; (split; [reflexivity|]); unfold keeps; simpl; repeat split.
Qed.

Lemma attempt_admitted (c : Z) (t : Q) (w : World) :
  below_limit env c w -> admits br w ->
  exists w',
    attempt env task_id f br c t w = (seen (answer f c t), w') /\ keeps w w' /\
    fallback_to_sync (self w') = fallback_to_sync (self w) /\
    execution_stats (self w') = execution_stats (self w).
Proof.
  intros Hlim Hadm. unfold below_limit in Hlim. unfold admits in Hadm.
  unfold attempt, bind, reads_. simpl.
  assert (Hb : (_check_recursion_depth env c >=?
                getrecursionlimit env - _recursion_check_buffer (self w)) = false)
    by (rewrite Z.geb_leb; apply Z.leb_gt; lia).
  rewrite Hb. unfold ret, wait_for, on_breaker.
  destruct (execute_admitted f c t _ Hadm) as (bw & ->).
  destruct br; destruct (answer f c t); eexists; (split; [reflexivity|]);
    unfold keeps; simpl; repeat split.
Qed.

(** Whatever happens in an attempt, it records no event, leaves the buffer
    alone and does not end cancelled: [wait_for] turns the expiry into
    [TimeoutError]. *)
Lemma attempt_keeps (c : Z) (t : Q) (w : World) :
  exists r w',
    attempt env task_id f br c t w = (r, w') /\ keeps w w' /\ r <> Cancelled.
Proof.
  destruct (below_limit_dec c w) as [Hlim | Hlim].
  - destruct (admits_dec w) as [Hadm | Hrej].
    + destruct (attempt_admitted c t w Hlim Hadm) as (w' & Hrun & Hk & _).
      eexists. eexists. split; [exact Hrun|]. split; [exact Hk|].
      destruct (answer f c t); discriminate.
    + destruct (attempt_rejected c t w Hlim Hrej) as (w' & Hrun & Hk & _).
      eexists. eexists. split; [exact Hrun|]. split; [exact Hk | discriminate].
  - rewrite (attempt_gate_closed c t w Hlim).
    eexists. eexists. split; [reflexivity|]. split; [split; reflexivity | discriminate].
Qed.

(** The [except] clauses: a [RecursionError] sets the flag and goes on up,
    anything else is kept as [last_exception]. *)
Lemma on_error_recursion (m : string) (w : World) :
  exists w',
    on_error (RecursionError m) w = (Raise (RecursionError m), w') /\ keeps w w' /\
    fallback_to_sync (self w') = true /\
    circuit_breaker (self w') = circuit_breaker (self w) /\
    given_breaker w' = given_breaker w /\ wclock w' = wclock w.
Proof.
  eexists. split; [reflexivity|]. unfold keeps. simpl. repeat split.
Qed.

Lemma on_error_retryable (e : exn) (w : World) :
  is_RecursionError e = false ->
  exists w',
    on_error e w = (Ok e, w') /\ keeps w w' /\
    fallback_to_sync (self w') = fallback_to_sync (self w) /\
    circuit_breaker (self w') = circuit_breaker (self w) /\
    given_breaker w' = given_breaker w /\ wclock w' = wclock w.
Proof.
  intros H. destruct e; try discriminate;
    (eexists; split; [reflexivity|]; unfold keeps; simpl; repeat split).
Qed.

(** The loop, one round unfolded. *)
Lemma retry_loop_eq (fuel : nat) (c : Z) (t : Q) (last : option exn) (w : World) :
  retry_loop env task_id f max_retries bf br (S fuel) c t last w =
  if c <=? max_retries then
    match attempt env task_id f br c t (record_event (EvAttempt (c + 1) t) w) with
    | (Ok v, w1) => (Ok (Return v), w1)
    | (Raise e, w1) =>
        match on_error e w1 with
        | (Ok e', w2) =>
            if c + 1 <=? max_retries
            then retry_loop env task_id f max_retries bf br fuel (c + 1) (t * bf)%Q
                   (Some e') (record_event (EvSleep (Qpower bf (c + 1 - 1))) w2)
            else retry_loop env task_id f max_retries bf br fuel (c + 1) t (Some e') w2
        | (Raise e', w2) => (Raise e', w2)
        | (Cancelled, w2) => (Cancelled, w2)
        end
    | (Cancelled, w1) => (Cancelled, w1)
    end
  else (Ok (Exhausted c t last), w).
Proof.
  simpl. destruct (c <=? max_retries); [|reflexivity].
  unfold bind, emit, modify, try_except, ret. simpl.
  destruct (attempt env task_id f br c t (record_event (EvAttempt (c + 1) t) w))
    as [[v | e |] w1]; simpl; try reflexivity.
  destruct (on_error e w1) as [[e' | e' |] w2]; simpl; try reflexivity.
  destruct (c + 1 <=? max_retries); reflexivity.
Qed.

End RetryLoopFacts.

(** ** Whole runs of the retry loop *)

Lemma schedule_cons (bf : Q) (n : nat) (c : Z) (t : Q) :
  schedule bf (S (S n)) c t =
  EvAttempt (c + 1) t :: EvSleep (Qpower bf (c + 1 - 1)) ::
  schedule bf (S n) (c + 1) (t * bf)%Q.
Proof. reflexivity. Qed.

(** How an attempt can end. *)
Lemma attempt_outcome (env : Env) (task_id : string) (f : Callable) (br : BreakerRef)
      (c : Z) (t : Q) (w : World) :
  exists r w',
    attempt env task_id f br c t w = (r, w') /\ keeps w w' /\
    match r with
    | Ok v => answer f c t = Completed v
    | Raise e => (~ below_limit env c w /\ is_RecursionError e = true) \/
                 e = rejection f \/ seen (answer f c t) = Raise e
    | Cancelled => False
    end.
Proof.
  destruct (below_limit_dec env c w) as [Hlim | Hlim].
  - destruct (admits_dec br w) as [Hadm | Hrej].
    + destruct (attempt_admitted env task_id f br c t w Hlim Hadm) as (w' & Hrun & Hk & _).
      eexists. eexists. split; [exact Hrun|]. split; [exact Hk|].
      destruct (answer f c t); simpl; auto.
    + destruct (attempt_rejected env task_id f br c t w Hlim Hrej) as (w' & Hrun & Hk & _).
      eexists. eexists. split; [exact Hrun|]. split; [exact Hk|]. auto.
  - rewrite (attempt_gate_closed env task_id f br c t w Hlim).
    eexists. eexists. split; [reflexivity|]. split; [split; reflexivity|].
    left. split; [exact Hlim | reflexivity].
Qed.

Lemma below_limit_buffer (env : Env) (c : Z) (w1 w2 : World) :
  _recursion_check_buffer (self w1) = _recursion_check_buffer (self w2) ->
  below_limit env c w1 -> below_limit env c w2.
Proof. unfold below_limit. intros ->. trivial. Qed.

(** Every run of the loop, however its attempts end: it makes some number
    [n] of attempts and its events are [schedule n]. It stops before the
    budget is used up only when the last attempt returned or met a
    [RecursionError]; when it runs out of attempts, the timeout is still that
    of the last attempt and [last_exception] is what that attempt raised. *)
Lemma retry_loop_runs_schedule (env : Env) (task_id : string) (f : Callable)
      (mr : Z) (bf : Q) (br : BreakerRef) (fuel : nat) :
  forall (c : Z) (t : Q) (last : option exn) (w : World),
    (Z.to_nat (mr + 1 - c) < fuel)%nat ->
    exists (n : nat) (r : Result LoopExit) (w' : World),
      retry_loop env task_id f mr bf br fuel c t last w = (r, w') /\
      trace w' = (trace w ++ schedule bf n c t)%list /\
      _recursion_check_buffer (self w') = _recursion_check_buffer (self w) /\
      Z.of_nat n <= Z.max 0 (mr + 1 - c) /\
      match r with
      | Ok (Return v) =>
          (1 <= n)%nat /\
          answer f (c + Z.of_nat n - 1) (grown bf (n - 1) t) = Completed v
      | Raise e =>
          (1 <= n)%nat /\ is_RecursionError e = true /\
          fallback_to_sync (self w') = true /\
          (~ below_limit env (c + Z.of_nat n - 1) w \/
           answer f (c + Z.of_nat n - 1) (grown bf (n - 1) t) = Failed e)
      | Ok (Exhausted cr ct le) =>
          Z.of_nat n = Z.max 0 (mr + 1 - c) /\ cr = c + Z.of_nat n /\
          ct = grown bf (n - 1) t /\
          (n = 0%nat -> le = last) /\
          ((1 <= n)%nat ->
           exists e, le = Some e /\ is_RecursionError e = false /\
                     (e = rejection f \/
                      seen (answer f (c + Z.of_nat n - 1) (grown bf (n - 1) t)) = Raise e))
      | Ok OutOfFuel | Cancelled => False
      end.
Proof.
  induction fuel as [|fuel IH]; intros c t last w Hfuel; [lia|].
  rewrite retry_loop_eq. destruct (c <=? mr) eqn:Hc.
  - apply Z.leb_le in Hc.
    destruct (attempt_outcome env task_id f br c t (record_event (EvAttempt (c + 1) t) w))
      as (r1 & w1 & Hrun & [Htr1 Hbuf1] & Hout).
    rewrite Hrun. simpl in Htr1, Hbuf1.
    destruct r1 as [v | e |]; [| | contradiction].
    + exists 1%nat. eexists. eexists. split; [reflexivity|].
      simpl. change (Z.of_nat 1) with 1. rewrite ?Z.add_simpl_r.
      repeat split; try assumption; lia.
    + destruct (is_RecursionError e) eqn:Hrec.
      * destruct e; try discriminate.
        destruct (on_error_recursion msg w1) as (w2 & Herr & [Htr2 Hbuf2] & Hflag & _).
        rewrite Herr. exists 1%nat. eexists. eexists. split; [reflexivity|].
        simpl. change (Z.of_nat 1) with 1. rewrite ?Z.add_simpl_r. rewrite Htr2, Hbuf2.
        repeat split; try assumption; try lia.
        destruct Hout as [[Hlim _] | [Hrej | Hseen]].
        -- left. intros Hb. apply Hlim.
           apply (below_limit_buffer env c w); [reflexivity | exact Hb].
        -- discriminate Hrej.
        -- right. destruct (answer f c t); simpl in Hseen; congruence.
      * destruct (on_error_retryable e w1 Hrec) as (w2 & Herr & [Htr2 Hbuf2] & _).
        rewrite Herr.
        assert (Hseen : e = rejection f \/ seen (answer f c t) = Raise e).
        { destruct Hout as [[_ Hr] | H]; [congruence | exact H]. }
        destruct (c + 1 <=? mr) eqn:Hc1.
        -- apply Z.leb_le in Hc1.
           destruct (IH (c + 1) (t * bf)%Q (Some e)
                        (record_event (EvSleep (Qpower bf (c + 1 - 1))) w2))
             as (n & r & w' & Hloop & Htr & Hbuf & Hle & Hcase); [lia|].
           assert (Hn : (1 <= n)%nat).
           { destruct r as [[v | cr ct le |] | e' |]; try tauto; lia. }
           destruct n as [|n]; [lia|].
           exists (S (S n)), r, w'. split; [exact Hloop|].
           split.
           { rewrite Htr. simpl trace. rewrite Htr2, Htr1. rewrite schedule_cons.
             rewrite <- !app_assoc. reflexivity. }
           split; [simpl in Hbuf; congruence|].
           split; [lia|].
           replace (c + Z.of_nat (S (S n)) - 1) with (c + 1 + Z.of_nat (S n) - 1) by lia.
           replace (grown bf (S (S n) - 1) t) with (grown bf (S n - 1) (t * bf)%Q)
             by (simpl; rewrite Nat.sub_0_r; reflexivity).
           destruct r as [[v | cr ct le |] | e' |]; try contradiction.
           ++ destruct Hcase as [_ Hans]. split; [lia | exact Hans].
           ++ destruct Hcase as (Hn' & Hcr & Hct & H0 & H1).
              repeat split; try lia; try assumption.
              intros _. apply H1. lia.
           ++ destruct Hcase as (_ & Hr & Hflag & Hwhy).
              repeat split; try assumption; try lia.
              destruct Hwhy as [Hlim | Hans]; [left | right; exact Hans].
              intros Hb. apply Hlim.
              apply (below_limit_buffer env _ w); [|exact Hb].
              simpl. congruence.
        -- apply Z.leb_gt in Hc1.
           destruct fuel as [|fuel]; [lia|].
           rewrite retry_loop_eq.
           assert (Hc2 : (c + 1 <=? mr) = false) by (apply Z.leb_gt; lia).
           rewrite Hc2. exists 1%nat. eexists. eexists. split; [reflexivity|].
           simpl. change (Z.of_nat 1) with 1. rewrite ?Z.add_simpl_r. rewrite Htr2, Hbuf2.
           repeat split; try assumption; try lia.
           intros _. exists e. repeat split; assumption.
  - apply Z.leb_gt in Hc. exists 0%nat. eexists. eexists. split; [reflexivity|].
    simpl. rewrite app_nil_r. repeat split; lia.
Qed.

(** How an attempt can end, with what decided it: the depth gate, the
    breaker, or the answer of the callable. *)
Lemma attempt_cases (env : Env) (task_id : string) (f : Callable) (br : BreakerRef)
      (c : Z) (t : Q) (w : World) :
  exists r w',
    attempt env task_id f br c t w = (r, w') /\ keeps w w' /\
    match r with
    | Ok v => below_limit env c w /\ admits br w /\ answer f c t = Completed v
    | Raise e =>
        (~ below_limit env c w /\ is_RecursionError e = true) \/
        (below_limit env c w /\ ~ admits br w /\ e = rejection f) \/
        (below_limit env c w /\ admits br w /\ seen (answer f c t) = Raise e)
    | Cancelled => False
    end.
Proof.
  destruct (below_limit_dec env c w) as [Hlim | Hlim].
  - destruct (admits_dec br w) as [Hadm | Hrej].
    + destruct (attempt_admitted env task_id f br c t w Hlim Hadm) as (w' & Hrun & Hk & _).
      eexists. eexists. split; [exact Hrun|]. split; [exact Hk|].
      destruct (answer f c t); simpl; auto.
    + destruct (attempt_rejected env task_id f br c t w Hlim Hrej) as (w' & Hrun & Hk & _).
      eexists. eexists. split; [exact Hrun|]. split; [exact Hk|]. auto.
  - rewrite (attempt_gate_closed env task_id f br c t w Hlim).
    eexists. eexists. split; [reflexivity|]. split; [split; reflexivity|].
    left. split; [exact Hlim | reflexivity].
Qed.

(** Every run of the loop with the history of its attempts: the events are
    [schedule n]; each attempt before the last passed the depth gate and
    failed with an exception that is not a [RecursionError]; the last one
    returned, or met a [RecursionError], or was attempt [max_retries + 1]. *)
Lemma retry_loop_history (env : Env) (task_id : string) (f : Callable)
      (mr : Z) (bf : Q) (br : BreakerRef) (fuel : nat) :
  forall (c : Z) (t : Q) (last : option exn) (w : World),
    (Z.to_nat (mr + 1 - c) < fuel)%nat ->
    exists (n : nat) (r : Result LoopExit) (w' : World),
      retry_loop env task_id f mr bf br fuel c t last w = (r, w') /\
      trace w' = (trace w ++ schedule bf n c t)%list /\
      Z.of_nat n <= Z.max 0 (mr + 1 - c) /\
      (forall j : nat, (S j < n)%nat ->
         below_limit env (c + Z.of_nat j) w /\
         exists e, is_RecursionError e = false /\
                   (e = rejection f \/
                    seen (answer f (c + Z.of_nat j) (grown bf j t)) = Raise e)) /\
      match r with
      | Ok (Return v) =>
          (1 <= n)%nat /\ below_limit env (c + Z.of_nat n - 1) w /\
          answer f (c + Z.of_nat n - 1) (grown bf (n - 1) t) = Completed v
      | Raise e =>
          (1 <= n)%nat /\ is_RecursionError e = true /\
          (~ below_limit env (c + Z.of_nat n - 1) w \/
           (below_limit env (c + Z.of_nat n - 1) w /\
            answer f (c + Z.of_nat n - 1) (grown bf (n - 1) t) = Failed e))
      | Ok (Exhausted cr ct le) =>
          Z.of_nat n = Z.max 0 (mr + 1 - c) /\ cr = c + Z.of_nat n /\
          ct = grown bf (n - 1) t /\
          (n = 0%nat -> le = last) /\
          ((1 <= n)%nat ->
           below_limit env (c + Z.of_nat n - 1) w /\
           exists e, le = Some e /\ is_RecursionError e = false /\
                     (e = rejection f \/
                      seen (answer f (c + Z.of_nat n - 1) (grown bf (n - 1) t)) = Raise e))
      | Ok OutOfFuel | Cancelled => False
      end.
Proof.
  induction fuel as [|fuel IH]; intros c t last w Hfuel; [lia|].
  rewrite retry_loop_eq. destruct (c <=? mr) eqn:Hc.
  - apply Z.leb_le in Hc.
    destruct (attempt_cases env task_id f br c t (record_event (EvAttempt (c + 1) t) w))
      as (r1 & w1 & Hrun & [Htr1 Hbuf1] & Hout).
    rewrite Hrun. simpl in Htr1, Hbuf1.
    change (below_limit env c (record_event (EvAttempt (c + 1) t) w))
      with (below_limit env c w) in Hout.
    destruct r1 as [v | e |]; [| | contradiction].
    + exists 1%nat. eexists. eexists. split; [reflexivity|].
      simpl. change (Z.of_nat 1) with 1. rewrite ?Z.add_simpl_r.
      destruct Hout as (Hlim & _ & Hans).
      repeat split; try assumption; try lia.
    + destruct (is_RecursionError e) eqn:Hrec.
      * destruct e; try discriminate.
        destruct (on_error_recursion msg w1) as (w2 & Herr & [Htr2 Hbuf2] & Hflag & _).
        rewrite Herr. exists 1%nat. eexists. eexists. split; [reflexivity|].
        simpl. change (Z.of_nat 1) with 1. rewrite ?Z.add_simpl_r. rewrite Htr2.
        repeat split; try assumption; try lia.
        destruct Hout as [[Hlim _] | [(_ & _ & Hrej) | (Hlim & _ & Hseen)]].
        -- left. exact Hlim.
        -- discriminate Hrej.
        -- right. split; [exact Hlim|].
           destruct (answer f c t); simpl in Hseen; congruence.
      * destruct (on_error_retryable e w1 Hrec) as (w2 & Herr & [Htr2 Hbuf2] & _).
        rewrite Herr.
        assert (Hlim : below_limit env c w).
        { destruct Hout as [[_ Hr] | [(H & _) | (H & _)]]; [congruence | exact H | exact H]. }
        assert (Hseen : e = rejection f \/ seen (answer f c t) = Raise e).
        { destruct Hout as [[_ Hr] | [(_ & _ & H) | (_ & _ & H)]];
            [congruence | left; exact H | right; exact H]. }
        destruct (c + 1 <=? mr) eqn:Hc1.
        -- apply Z.leb_le in Hc1.
           destruct (IH (c + 1) (t * bf)%Q (Some e)
                        (record_event (EvSleep (Qpower bf (c + 1 - 1))) w2))
             as (n & r & w' & Hloop & Htr & Hle & Hhist & Hcase); [lia|].
           assert (Hn : (1 <= n)%nat).
           { destruct r as [[v | cr ct le |] | e' |]; try tauto; lia. }
           destruct n as [|n]; [lia|].
           assert (Hbuf : _recursion_check_buffer
                            (self (record_event (EvSleep (Qpower bf (c + 1 - 1))) w2))
                          = _recursion_check_buffer (self w))
             by (simpl; congruence).
           assert (Hback : forall k, below_limit env k
                             (record_event (EvSleep (Qpower bf (c + 1 - 1))) w2) <->
                           below_limit env k w)
             by (intros k; unfold below_limit; rewrite Hbuf; tauto).
           exists (S (S n)), r, w'. split; [exact Hloop|].
           split.
           { rewrite Htr. simpl trace. rewrite Htr2, Htr1. rewrite schedule_cons.
             rewrite <- !app_assoc. reflexivity. }
           split; [lia|].
           split.
           { intros [|j] Hj.
             - simpl. rewrite Z.add_0_r. split; [exact Hlim|].
               exists e. split; assumption.
             - destruct (Hhist j) as (Hl & e' & He' & Hwhy); [lia|].
               replace (c + Z.of_nat (S j)) with (c + 1 + Z.of_nat j) by lia.
               split; [apply Hback; exact Hl|].
               exists e'. split; [exact He' | exact Hwhy]. }
           replace (c + Z.of_nat (S (S n)) - 1) with (c + 1 + Z.of_nat (S n) - 1) by lia.
           replace (grown bf (S (S n) - 1) t) with (grown bf (S n - 1) (t * bf)%Q)
             by (simpl; rewrite Nat.sub_0_r; reflexivity).
           destruct r as [[v | cr ct le |] | e' |]; try contradiction.
           ++ destruct Hcase as (_ & Hl & Hans).
              split; [lia|]. split; [apply Hback; exact Hl | exact Hans].
           ++ destruct Hcase as (Hn' & Hcr & Hct & H0 & H1).
              repeat split; try lia; try assumption.
              ** apply Hback. apply H1. lia.
              ** apply H1. lia.
           ++ destruct Hcase as (_ & Hr & Hwhy).
              repeat split; try assumption; try lia.
              destruct Hwhy as [Hl | [Hl Hans]].
              ** left. intros Hb. apply Hl, Hback, Hb.
              ** right. split; [apply Hback; exact Hl | exact Hans].
        -- apply Z.leb_gt in Hc1.
           destruct fuel as [|fuel]; [lia|].
           rewrite retry_loop_eq.
           assert (Hc2 : (c + 1 <=? mr) = false) by (apply Z.leb_gt; lia).
           rewrite Hc2. exists 1%nat. eexists. eexists. split; [reflexivity|].
           simpl. change (Z.of_nat 1) with 1. rewrite ?Z.add_simpl_r. rewrite Htr2.
           repeat split; try assumption; try lia.
           exists e. repeat split; assumption.
  - apply Z.leb_gt in Hc. exists 0%nat. eexists. eexists. split; [reflexivity|].
    simpl. rewrite app_nil_r. repeat split; lia.
Qed.

(** One failed attempt and what follows it. Attempt [k] starts with
    [current_retry = k - 1]; if it passes the depth gate and fails in a way
    the loop retries (the breaker rejects the call, the budget expires, or
    the callable raises something other than [RecursionError]), then for
    [k <= max_retries] the loop sleeps [backoff_factor ** (k - 1)] and starts
    attempt [k + 1] under the timeout of attempt [k] times the factor; for
    [k = max_retries + 1] it leaves the loop with no further event and the
    timeout as it was. *)
Lemma retry_loop_failed_attempt (env : Env) (task_id : string) (f : Callable)
      (mr : Z) (bf : Q) (br : BreakerRef) (fuel : nat) (k : Z) (t : Q)
      (last : option exn) (w : World) :
  k <= mr + 1 -> (Z.to_nat (mr + 2 - k) < fuel)%nat ->
  below_limit env (k - 1) w ->
  ~ admits br w \/ retryable (answer f (k - 1) t) ->
  exists (e : exn) (r : Result LoopExit) (w' : World),
    retry_loop env task_id f mr bf br fuel (k - 1) t last w = (r, w') /\
    is_RecursionError e = false /\
    ((~ admits br w /\ e = rejection f) \/
     (admits br w /\ seen (answer f (k - 1) t) = Raise e)) /\
    if k <=? mr then
      exists rest : list event,
        trace w' = (trace w ++ EvAttempt k t :: EvSleep (Qpower bf (k - 1)) ::
                               EvAttempt (k + 1) (t * bf)%Q :: rest)%list
    else
      trace w' = (trace w ++ [EvAttempt k t])%list /\
      r = Ok (Exhausted k t (Some e)).
Proof.
  intros Hk Hfuel Hlim Hfail.
  destruct fuel as [|fuel]; [lia|].
  rewrite retry_loop_eq.
  assert (Hc : (k - 1 <=? mr) = true) by (apply Z.leb_le; lia).
  rewrite Hc. replace (k - 1 + 1) with k by lia.
  set (w0 := record_event (EvAttempt k t) w).
  assert (Hcause : exists e w1,
             attempt env task_id f br (k - 1) t w0 = (Raise e, w1) /\ keeps w0 w1 /\
             is_RecursionError e = false /\
             ((~ admits br w /\ e = rejection f) \/
              (admits br w /\ seen (answer f (k - 1) t) = Raise e))).
  { destruct (admits_dec br w) as [Hadm | Hrej].
    - destruct Hfail as [Hrej | Hret]; [contradiction|].
      destruct (attempt_admitted env task_id f br (k - 1) t w0 Hlim Hadm)
        as (w1 & Hrun & Hkeep & _).
      destruct (answer f (k - 1) t) as [v | e |] eqn:Hans; simpl in Hret;
        [contradiction | |].
      + exists e, w1. repeat split; try apply Hkeep; try assumption.
        right. split; [exact Hadm | reflexivity].
      + exists (TimeoutError ""), w1. repeat split; try apply Hkeep; try assumption.
        right. split; [exact Hadm | reflexivity].
    - destruct (attempt_rejected env task_id f br (k - 1) t w0 Hlim Hrej)
        as (w1 & Hrun & Hkeep & _).
      exists (rejection f), w1. repeat split; try apply Hkeep; try assumption.
      left. split; [exact Hrej | reflexivity]. }
  destruct Hcause as (e & w1 & Hrun & [Htr1 Hbuf1] & Hrec & Hwhy).
  rewrite Hrun.
  destruct (on_error_retryable e w1 Hrec) as (w2 & Herr & [Htr2 Hbuf2] & _).
  rewrite Herr. exists e.
  destruct (k <=? mr) eqn:Hk1.
  - apply Z.leb_le in Hk1.
    destruct (retry_loop_runs_schedule env task_id f mr bf br fuel k (t * bf)%Q (Some e)
                (record_event (EvSleep (Qpower bf (k - 1))) w2))
      as (n & r & w' & Hloop & Htr & _ & Hle & Hcase); [lia|].
    exists r, w'. split; [exact Hloop|]. split; [exact Hrec|]. split; [exact Hwhy|].
    assert (Hn : (1 <= n)%nat).
    { destruct r as [[v | cr ct le |] | e' |]; try tauto; lia. }
    destruct n as [|n]; [lia|].
    exists (match n with
            | O => []
            | S _ => EvSleep (Qpower bf (k + 1 - 1)) :: schedule bf n (k + 1) (t * bf * bf)%Q
            end).
    rewrite Htr. simpl trace. rewrite Htr2, Htr1. simpl trace.
    rewrite <- !app_assoc. reflexivity.
  - apply Z.leb_gt in Hk1.
    destruct fuel as [|fuel]; [lia|].
    rewrite retry_loop_eq.
    assert (Hc2 : (k <=? mr) = false) by (apply Z.leb_gt; lia).
    rewrite Hc2. exists (Ok (Exhausted k t (Some e))), w2.
    split; [reflexivity|]. split; [exact Hrec|]. split; [exact Hwhy|].
    split; [|reflexivity]. rewrite Htr2, Htr1. reflexivity.
Qed.

(** C7. The retry loop of [execute_with_resilience] for a function, from
    [current_retry = 0] under a positive [initial_timeout] and with a
    positive [backoff_factor]; timeouts and sleeps are the products and
    powers the code itself computes.

    A whole run makes some number [n] of attempts and its events are exactly
    attempt 1, sleep, attempt 2, sleep, ..., attempt [n]: attempt 1 runs
    under [initial_timeout], the sleep after attempt [k] lasts
    [backoff_factor ** (k - 1)] seconds, attempt [k + 1] runs under the
    timeout of attempt [k] multiplied by [backoff_factor], and nothing
    follows attempt [n]. Every attempt before the last passed the depth gate
    and failed with an exception other than [RecursionError] (the breaker's
    rejection, or what the callable raised, [TimeoutError] on expiry).
    Attempt [n] is the last because it returned the value the callable
    completed with, or because a [RecursionError] left the loop (the gate was
    closed, or the callable raised it), or because it was attempt
    [max_retries + 1] and failed: then [current_timeout] is still the
    timeout of that attempt and [last_exception] is what it raised.

    And one step, at any attempt [k] of any run, whatever its positive
    timeout [t] and the state [w] it starts in: if attempt [k] passes the
    gate and fails in a way the loop retries (the breaker rejects the call,
    or the callable times out or raises something other than
    [RecursionError]), then for [k <= max_retries] the loop sleeps
    [backoff_factor ** (k - 1)] seconds and starts attempt [k + 1] under
    the timeout of attempt [k] times [backoff_factor]; for
    [k = max_retries + 1] it leaves the loop with no sleep and the timeout
    unchanged. *)
Theorem retry_backoff_schedule (env : Env) (task_id : string) (f : Callable)
        (max_retries : Z) (initial_timeout backoff_factor : Q) (br : BreakerRef) :
  is_function f = true ->
  (0 < initial_timeout)%Q -> (0 < backoff_factor)%Q ->
  (forall w : World,
     exists (n : nat) (r : Result LoopExit) (w' : World),
       retry_loop env task_id f max_retries backoff_factor br
         (S (Z.to_nat (max_retries + 1))) 0 initial_timeout None w = (r, w') /\
       trace w' = (trace w ++ schedule backoff_factor n 0 initial_timeout)%list /\
       Z.of_nat n <= Z.max 0 (max_retries + 1) /\
       (forall k : nat, (1 <= k < n)%nat ->
          below_limit env (Z.of_nat k - 1) w /\
          exists e, is_RecursionError e = false /\
                    (e = rejection f \/
                     seen (answer f (Z.of_nat k - 1)
                             (grown backoff_factor (k - 1) initial_timeout)) = Raise e)) /\
       match r with
       | Ok (Return v) =>
           (1 <= n)%nat /\ below_limit env (Z.of_nat n - 1) w /\
           answer f (Z.of_nat n - 1) (grown backoff_factor (n - 1) initial_timeout)
             = Completed v
       | Raise e =>
           (1 <= n)%nat /\ is_RecursionError e = true /\
           (~ below_limit env (Z.of_nat n - 1) w \/
            (below_limit env (Z.of_nat n - 1) w /\
             answer f (Z.of_nat n - 1) (grown backoff_factor (n - 1) initial_timeout)
               = Failed e))
       | Ok (Exhausted current_retry current_timeout last_exception) =>
           Z.of_nat n = Z.max 0 (max_retries + 1) /\
           current_retry = Z.of_nat n /\
           current_timeout = grown backoff_factor (n - 1) initial_timeout /\
           (n = 0%nat -> last_exception = None) /\
           ((1 <= n)%nat ->
            below_limit env (Z.of_nat n - 1) w /\
            exists e, last_exception = Some e /\ is_RecursionError e = false /\
                      (e = rejection f \/
                       seen (answer f (Z.of_nat n - 1)
                               (grown backoff_factor (n - 1) initial_timeout)) = Raise e))
       | Ok OutOfFuel | Cancelled => False
       end) /\
  (forall (k : Z) (t : Q) (last : option exn) (w : World) (fuel : nat),
     1 <= k <= max_retries + 1 -> (Z.to_nat (max_retries + 2 - k) < fuel)%nat ->
     (0 < t)%Q ->
     below_limit env (k - 1) w ->
     ~ admits br w \/ retryable (answer f (k - 1) t) ->
     exists (e : exn) (r : Result LoopExit) (w' : World),
       retry_loop env task_id f max_retries backoff_factor br fuel (k - 1) t last w
         = (r, w') /\
       is_RecursionError e = false /\
       ((~ admits br w /\ e = rejection f) \/
        (admits br w /\ seen (answer f (k - 1) t) = Raise e)) /\
       if k <=? max_retries then
         exists rest : list event,
           trace w' = (trace w ++ EvAttempt k t :: EvSleep (Qpower backoff_factor (k - 1)) ::
                                  EvAttempt (k + 1) (t * backoff_factor)%Q :: rest)%list
       else
         trace w' = (trace w ++ [EvAttempt k t])%list /\
         r = Ok (Exhausted k t (Some e))).
Proof.
  intros _ _ _. split.
  - intros w.
    destruct (retry_loop_history env task_id f max_retries backoff_factor br
                (S (Z.to_nat (max_retries + 1))) 0 initial_timeout None w)
      as (n & r & w' & Hrun & Htr & Hle & Hhist & Hcase).
    { rewrite Z.sub_0_r. lia. }
    exists n, r, w'. rewrite Z.sub_0_r in *.
    split; [exact Hrun|]. split; [exact Htr|]. split; [exact Hle|]. split.
    { intros [|j] Hk; [lia|]. destruct (Hhist j) as (Hl & e & He & Hwhy); [lia|].
      replace (Z.of_nat (S j) - 1) with (0 + Z.of_nat j) by lia.
      replace (S j - 1)%nat with j by lia.
      split; [exact Hl|]. exists e. split; assumption. }
    rewrite !Z.add_0_l in Hcase. exact Hcase.
  - intros k t last w fuel [_ Hk] Hfuel _ Hlim Hfail.
    apply retry_loop_failed_attempt; assumption.
Qed.

(** An instance of C7: a coroutine function that raises "boom" twice and
    then returns 7, run with [max_retries = 2], 180 seconds and factor 3/2. *)
Lemma retry_backoff_schedule_witness :
  let f := CoroutineFunction "op"
             (fun n _ => if n <? 2 then Failed (Exception "boom")
                         else Completed (VInt 7)) in
  let env := {| stack_depth := fun _ => 30; getrecursionlimit := 1000 |} in
  let w := {| self := BaseAsyncAgent__init__;
              given_breaker := CircuitBreaker__init__ 12 90 2;
              wclock := {| readings := fun n => inject_Z (Z.of_nat n + 1); reads := 0 |};
              trace := [] |} in
  is_function f = true /\
  exists (e : exn) (r : Result LoopExit) (w' : World),
    retry_loop env "t" f 2 (3 # 2) OwnBreaker 4 (1 - 1) 180 None w = (r, w') /\
    is_RecursionError e = false /\
    ((~ admits OwnBreaker w /\ e = rejection f) \/
     (admits OwnBreaker w /\ seen (answer f (1 - 1) 180) = Raise e)) /\
    exists rest : list event,
      trace w' = (trace w ++ EvAttempt 1 180 :: EvSleep (Qpower (3 # 2) (1 - 1)) ::
                             EvAttempt (1 + 1) (180 * (3 # 2))%Q :: rest)%list.
Proof.
  intros f env w. split; [reflexivity|].
  apply (proj2 (retry_backoff_schedule env "t" f 2 180 (3 # 2) OwnBreaker
                  eq_refl eq_refl eq_refl)
           1 180%Q None w 4%nat).
  - lia.
  - simpl. lia.
  - reflexivity.
  - unfold below_limit. simpl. lia.
  - right. simpl. reflexivity.
Defined.

(** ** The schedule in closed form *)

(** With floats read as exact rationals, as everywhere in this file, the
    products the code computes are the powers of the specification. The
    statement on the loop above does not rest on this. *)

Lemma Qpower_succ_nat (q : Q) (m : nat) :
  (q ^ Z.of_nat (S m) == q ^ Z.of_nat m * q)%Q.
Proof.
  rewrite Nat2Z.inj_succ. unfold Z.succ.
  rewrite Qpower_plus' by lia. reflexivity.
Qed.

(** [m] multiplications by the factor give [t * factor^m]. *)
Lemma grown_closed (bf : Q) (m : nat) :
  forall t : Q, (grown bf m t == t * bf ^ Z.of_nat m)%Q.
Proof.
  induction m as [|m IH]; intros t.
  - simpl. ring.
  - simpl grown. rewrite IH, Qpower_succ_nat. ring.
Qed.

(** The events the code produces are those the specification describes. *)
Lemma schedule_matches_spec (it bf : Q) (n : nat) :
  forall (j N : nat) (t : Q),
    N = (j + n)%nat -> (t == it * bf ^ Z.of_nat j)%Q ->
    Forall2 event_equiv
      (schedule bf n (Z.of_nat j) t)
      (flat_map
         (fun k : nat =>
            EvAttempt (Z.of_nat k) (it * Qpower bf (Z.of_nat k - 1))%Q ::
            if (k <? N)%nat then [EvSleep (Qpower bf (Z.of_nat k - 1))] else [])
         (seq (S j) n)).
Proof.
  induction n as [|n IH]; intros j N t HN Ht; [constructor|].
  simpl seq. simpl flat_map.
  replace (Z.of_nat (S j) - 1) with (Z.of_nat j) by lia.
  destruct n as [|n].
  - simpl. destruct (Nat.ltb_spec (S j) N) as [Hlt | _]; [lia|].
    constructor; [|constructor]. simpl. split; [lia | exact Ht].
  - rewrite schedule_cons.
    destruct (Nat.ltb_spec (S j) N) as [_ | Hge]; [|lia].
    constructor; [simpl; split; [lia | exact Ht]|].
    simpl app. constructor.
    + simpl. rewrite Z.add_simpl_r. reflexivity.
    + replace (Z.of_nat j + 1) with (Z.of_nat (S j)) by lia.
      apply IH; [lia|]. rewrite Ht, Qpower_succ_nat. ring.
Qed.

Lemma schedule_is_spec_schedule (it bf : Q) (n : nat) :
  Forall2 event_equiv (schedule bf n 0 it) (spec_schedule it bf n).
Proof.
  unfold spec_schedule.
  apply (schedule_matches_spec it bf n 0 n it); [reflexivity|]. simpl. ring.
Qed.

(** ** Exhaustion *)

(** With a negative budget the loop body never runs. *)
Lemma retry_loop_no_attempt (env : Env) (task_id : string) (f : Callable)
      (mr : Z) (bf : Q) (br : BreakerRef) (fuel : nat) (c : Z) (t : Q)
      (last : option exn) (w : World) :
  mr < c ->
  retry_loop env task_id f mr bf br (S fuel) c t last w = (Ok (Exhausted c t last), w).
Proof.
  intros H. rewrite retry_loop_eq.
  assert (Hc : (c <=? mr) = false) by (apply Z.leb_gt; lia).
  rewrite Hc. reflexivity.
Qed.

(** What [execute_with_resilience] does with a function: the loop, then the
    two [raise] statements after it. *)
Lemma execute_with_resilience_function `{AgentClass} (env : Env) (task_id : string)
      (f : Callable) (mr : Z) (it bf : Q) (cbo : option BreakerRef) (w : World) :
  is_function f = true ->
  execute_with_resilience env task_id f mr it bf cbo w =
  match retry_loop env task_id f mr bf
          (actual_breaker cbo) (S (Z.to_nat (mr + 1))) 0 it None w with
  | (Ok (Return v), w') => (Ok (Some v), w')
  | (Ok (Exhausted _ _ (Some e)), w') => (Raise e, w')
  | (Ok (Exhausted _ _ None), w') =>
      (Raise (Exception ("Task '" ++ task_id ++
                "' failed after max retries without a specific exception.")), w')
  | (Ok OutOfFuel, w') => (Ok None, w')
  | (Raise e, w') => (Raise e, w')
  | (Cancelled, w') => (Cancelled, w')
  end.
Proof.
  intros Hf. destruct f; try discriminate; unfold execute_with_resilience, bind;
    match goal with |- context [retry_loop ?x1 ?x2 ?x3 ?x4 ?x5 ?x6 ?x7 ?x8 ?x9 ?y1 ?y2] =>
      destruct (retry_loop x1 x2 x3 x4 x5 x6 x7 x8 x9 y1 y2)
        as [[[v | cr ct [e|] |] | e |] w']
    end; reflexivity.
Qed.

(** The fuel [execute_with_resilience] gives its loop is enough: the call
    always ends with a value or an exception. *)
Lemma execute_with_resilience_total `{AgentClass} (env : Env) (task_id : string)
      (f : Callable) (mr : Z) (it bf : Q) (cbo : option BreakerRef) (w : World) :
  exists w',
    (exists v, execute_with_resilience env task_id f mr it bf cbo w = (Ok (Some v), w')) \/
    (exists e, execute_with_resilience env task_id f mr it bf cbo w = (Raise e, w')).
Proof.
  destruct (is_function f) eqn:Hf.
  - rewrite (execute_with_resilience_function env task_id f mr it bf cbo w Hf).
    destruct (retry_loop_runs_schedule env task_id f mr bf
                (actual_breaker cbo) (S (Z.to_nat (mr + 1))) 0 it None w)
      as (n & r & w' & Hrun & _ & _ & _ & Hcase); [rewrite Z.sub_0_r; lia|].
    rewrite Hrun. exists w'.
    destruct r as [[v | cr ct [e|] |] | e |]; try contradiction; eauto.
  - destruct f as [nm run | run | nm call | nm call]; try discriminate.
    all: unfold execute_with_resilience, try_except, bind, emit, modify, wait_for,
           await, ret, get_fallback; simpl.
    all: destruct (run it) as [v0 | e |]; simpl; eauto.
    all: destruct (_get_fallback_result task_id (execution_stats (self w))) as [v st];
         eauto.
Qed.




(** ** Recursion errors *)

(** C8. Take the loop at the start of any attempt (any [current_retry <=
    max_retries], timeout, recorded exception and state).
    (1) If the measured stack depth is at or past [recursion limit - buffer],
    the loop raises the preemptive [RecursionError] to its caller: after the
    attempt has started nothing more happens (no sleep, no further attempt),
    the breaker is not touched and [fallback_to_sync] is set.
    (2) If the depth is below and the operation, let through by the breaker,
    raises a [RecursionError], that error goes to the caller in the same
    way, with [fallback_to_sync] set.
    (3), (4) The same for a call of [execute_with_resilience] with a function
    and a budget of at least one attempt, at its first attempt: the call
    raises with a single attempt started and zero retries. *)
Theorem recursion_error_propagates_at_once `{AgentClass} (env : Env) (task_id : string)
        (f : Callable) (max_retries : Z) (bf : Q) :
  (forall (br : BreakerRef) (fuel : nat) (c : Z) (t : Q) (last : option exn) (w : World),
     c <= max_retries -> ~ below_limit env c w ->
     exists w',
       retry_loop env task_id f max_retries bf br (S fuel) c t last w =
       (Raise (RecursionError ("Preemptive recursion depth stop for "
                               ++ task_full_id task_id c)), w') /\
       trace w' = (trace w ++ [EvAttempt (c + 1) t])%list /\
       fallback_to_sync (self w') = true /\
       circuit_breaker (self w') = circuit_breaker (self w) /\
       given_breaker w' = given_breaker w) /\
  (forall (br : BreakerRef) (fuel : nat) (c : Z) (t : Q) (last : option exn) (w : World)
          (m : string),
     c <= max_retries -> below_limit env c w -> admits br w ->
     answer f c t = Failed (RecursionError m) ->
     exists w',
       retry_loop env task_id f max_retries bf br (S fuel) c t last w =
       (Raise (RecursionError m), w') /\
       trace w' = (trace w ++ [EvAttempt (c + 1) t])%list /\
       fallback_to_sync (self w') = true) /\
  (forall (it : Q) (cbo : option BreakerRef) (w : World),
     is_function f = true -> 0 <= max_retries -> ~ below_limit env 0 w ->
     exists w',
       execute_with_resilience env task_id f max_retries it bf cbo w =
       (Raise (RecursionError ("Preemptive recursion depth stop for "
                               ++ task_id ++ "-attempt-1")), w') /\
       trace w' = (trace w ++ [EvAttempt 1 it])%list /\
       fallback_to_sync (self w') = true) /\
  (forall (it : Q) (cbo : option BreakerRef) (w : World) (m : string),
     is_function f = true -> 0 <= max_retries ->
     below_limit env 0 w -> admits (actual_breaker cbo) w ->
     answer f 0 it = Failed (RecursionError m) ->
     exists w',
       execute_with_resilience env task_id f max_retries it bf cbo w =
       (Raise (RecursionError m), w') /\
       trace w' = (trace w ++ [EvAttempt 1 it])%list /\
       fallback_to_sync (self w') = true).
Proof.
  assert (Hgate : forall (br : BreakerRef) (fuel : nat) (c : Z) (t : Q) (last : option exn) (w : World),
     c <= max_retries -> ~ below_limit env c w ->
     exists w',
       retry_loop env task_id f max_retries bf br (S fuel) c t last w =
       (Raise (RecursionError ("Preemptive recursion depth stop for "
                               ++ task_full_id task_id c)), w') /\
       trace w' = (trace w ++ [EvAttempt (c + 1) t])%list /\
       fallback_to_sync (self w') = true /\
       circuit_breaker (self w') = circuit_breaker (self w) /\
       given_breaker w' = given_breaker w).
  { intros br fuel c t last w Hc Hlim. rewrite retry_loop_eq.
    apply Z.leb_le in Hc. rewrite Hc.
    rewrite attempt_gate_closed by exact Hlim.
    eexists. split; [reflexivity|]. simpl. repeat split. }
  assert (Hop : forall (br : BreakerRef) (fuel : nat) (c : Z) (t : Q)
                       (last : option exn) (w : World) (m : string),
     c <= max_retries -> below_limit env c w -> admits br w ->
     answer f c t = Failed (RecursionError m) ->
     exists w',
       retry_loop env task_id f max_retries bf br (S fuel) c t last w =
       (Raise (RecursionError m), w') /\
       trace w' = (trace w ++ [EvAttempt (c + 1) t])%list /\
       fallback_to_sync (self w') = true).
  { intros br fuel c t last w m Hc Hlim Hadm Hans. rewrite retry_loop_eq.
    apply Z.leb_le in Hc. rewrite Hc.
    destruct (attempt_admitted env task_id f br c t
                (record_event (EvAttempt (c + 1) t) w) Hlim Hadm)
      as (w1 & Hrun & [Htr1 _] & _).
    rewrite Hrun, Hans. simpl seen.
    destruct (on_error_recursion m w1) as (w2 & Herr & [Htr2 _] & Hflag & _).
    rewrite Herr. exists w2. split; [reflexivity|].
    split; [rewrite Htr2, Htr1; reflexivity | exact Hflag]. }
  split; [exact Hgate|]. split; [exact Hop|]. split.
  - intros it cbo w Hf Hmr Hlim.
    rewrite (execute_with_resilience_function env task_id f max_retries it bf
               cbo w Hf).
    destruct (Hgate (actual_breaker cbo) (Z.to_nat (max_retries + 1)) 0 it None w
                Hmr Hlim)
      as (w' & Hrun & Htr & Hflag & _).
    rewrite Hrun. exists w'. repeat split; assumption.
  - intros it cbo w m Hf Hmr Hlim Hadm Hans.
    rewrite (execute_with_resilience_function env task_id f max_retries it bf
               cbo w Hf).
    destruct (Hop (actual_breaker cbo) (Z.to_nat (max_retries + 1)) 0 it None w m
                Hmr Hlim Hadm Hans)
      as (w' & Hrun & Htr & Hflag).
    rewrite Hrun. exists w'. repeat split; assumption.
Qed.

(** An instance of C8: a stack of 950 frames under a limit of 1000 with the
    buffer of 50; and an operation that raises [RecursionError] itself. *)
Lemma recursion_error_propagates_at_once_witness :
  let w := {| self := BaseAsyncAgent__init__;
              given_breaker := CircuitBreaker__init__ 12 90 2;
              wclock := {| readings := fun n => inject_Z (Z.of_nat n + 1); reads := 0 |};
              trace := [] |} in
  (exists w',
     execute_with_resilience
       {| stack_depth := fun _ => 950; getrecursionlimit := 1000 |} "t"
       (CoroutineFunction "op" (fun _ _ => Completed VNone)) 2 180 (3 # 2) None w =
     (Raise (RecursionError "Preemptive recursion depth stop for t-attempt-1"), w') /\
     trace w' = [EvAttempt 1 180] /\ fallback_to_sync (self w') = true) /\
  (exists w',
     execute_with_resilience
       {| stack_depth := fun _ => 30; getrecursionlimit := 1000 |} "t"
       (CoroutineFunction "op" (fun _ _ => Failed (RecursionError "deep")))
       2 180 (3 # 2) None w =
     (Raise (RecursionError "deep"), w') /\
     trace w' = [EvAttempt 1 180] /\ fallback_to_sync (self w') = true).
Proof.
  intros w. split.
  - apply (proj1 (proj2 (proj2
             (recursion_error_propagates_at_once
                {| stack_depth := fun _ => 950; getrecursionlimit := 1000 |} "t"
                (CoroutineFunction "op" (fun _ _ => Completed VNone)) 2 (3 # 2))))
             180%Q None w).
    + reflexivity.
    + lia.
    + unfold below_limit. simpl. lia.
  - apply (proj2 (proj2 (proj2
             (recursion_error_propagates_at_once
                {| stack_depth := fun _ => 30; getrecursionlimit := 1000 |} "t"
                (CoroutineFunction "op" (fun _ _ => Failed (RecursionError "deep")))
                2 (3 # 2))))
             180%Q None w "deep").
    + reflexivity.
    + lia.
    + unfold below_limit. simpl. lia.
    + unfold admits. simpl. discriminate.
    + reflexivity.
Defined.

(** ** Pending objects *)

(** C10. Given a coroutine object or a future, [execute_with_resilience]
    awaits it once under [initial_timeout] and returns: the awaited value
    when the await completes, and otherwise (an exception or the timeout)
    what [_get_fallback_result(task_id)] gives. It never raises, starts no
    attempt of the retry loop and does not sleep (the one event of the call
    is the await), and it leaves both breakers, the clock and the sync-mode
    flag as they were; [execution_stats] changes only as the fallback method
    of the class changes it. *)
Theorem pending_object_bypasses_retry_and_breaker `{AgentClass} (env : Env)
        (task_id : string) (f : Callable) (max_retries : Z)
        (initial_timeout backoff_factor : Q) (circuit_breaker_arg : option BreakerRef)
        (w : World) :
  is_function f = false ->
  exists v w',
    execute_with_resilience env task_id f max_retries initial_timeout backoff_factor
      circuit_breaker_arg w = (Ok (Some v), w') /\
    trace w' = (trace w ++ [EvAwait initial_timeout])%list /\
    circuit_breaker (self w') = circuit_breaker (self w) /\
    given_breaker w' = given_breaker w /\
    wclock w' = wclock w /\
    fallback_to_sync (self w') = fallback_to_sync (self w) /\
    match answer f 0 initial_timeout with
    | Completed v0 => v = v0 /\ execution_stats (self w') = execution_stats (self w)
    | _ => (v, execution_stats (self w')) =
           _get_fallback_result task_id (execution_stats (self w))
    end.
Proof.
  intros Hf. destruct f as [nm run | run | nm call | nm call]; try discriminate.
  all: unfold execute_with_resilience, try_except, bind, emit, modify, wait_for,
         await, ret, get_fallback; simpl.
  all: destruct (run initial_timeout) as [v0 | e |]; simpl.
  all: try (eexists; eexists; split; [reflexivity|]; simpl; repeat split).
  all: destruct (_get_fallback_result task_id (execution_stats (self w))) as [v st];
       eexists; eexists; (split; [reflexivity|]); simpl; repeat split.
Qed.

(** An instance of C10 on the base class: a coroutine object that does not
    finish in time gives the placeholder string. *)
Lemma pending_object_bypasses_retry_and_breaker_witness :
  let w := {| self := BaseAsyncAgent__init__;
              given_breaker := CircuitBreaker__init__ 12 90 2;
              wclock := {| readings := fun n => inject_Z (Z.of_nat n + 1); reads := 0 |};
              trace := [] |} in
  exists v w',
    execute_with_resilience
      {| stack_depth := fun _ => 30; getrecursionlimit := 1000 |} "t"
      (CoroutineObject "c" (fun _ => Expired)) 2 180 (3 # 2) None w
      = (Ok (Some v), w') /\
    trace w' = [EvAwait 180] /\
    circuit_breaker (self w') = circuit_breaker (self w) /\
    given_breaker w' = given_breaker w /\
    wclock w' = wclock w /\
    fallback_to_sync (self w') = false /\
    (v, execution_stats (self w')) = (VStr "FALLBACK_RESULT_FOR_t", zero_stats).
Proof.
  intros w.
  exact (pending_object_bypasses_retry_and_breaker
           {| stack_depth := fun _ => 30; getrecursionlimit := 1000 |} "t"
           (CoroutineObject "c" (fun _ => Expired)) 2 180 (3 # 2) None w eq_refl).
Defined.

(** * Further properties of the infrastructure *)

(** ** The breaker's cycle *)

Ltac run_execute :=
  unfold execute, try_except, await, raise; run_breaker.

(** A success recorded on a HALF_OPEN breaker. *)
Lemma record_success_half_open (b : CircuitBreaker) (c : Clock) :
  _state b = HALF_OPEN ->
  record_success {| cb := b; clock := c |} =
  (Ok tt,
   {| cb := if _success_count b + 1 >=? half_open_attempts b
            then set__success_count 0
                   (set__failure_count 0
                      (set__state CLOSED (set__success_count (_success_count b + 1) b)))
            else set__success_count (_success_count b + 1) b;
      clock := c |}).
Proof.
  intros H. destruct b; simpl in *; subst. run_breaker.
  destruct (_ >=? _); reflexivity.
Qed.

(** A success recorded on a CLOSED breaker clears both counters. *)
Lemma record_success_closed (b : CircuitBreaker) (c : Clock) :
  _state b = CLOSED ->
  record_success {| cb := b; clock := c |} =
  (Ok tt, {| cb := set__success_count 0 (set__failure_count 0 b); clock := c |}).
Proof.
  intros H. destruct b; simpl in *; subst. reflexivity.
Qed.

Lemma record_successes_half_open_below (k : nat) :
  forall (b : CircuitBreaker) (c : Clock),
    _state b = HALF_OPEN ->
    _success_count b + Z.of_nat k < half_open_attempts b ->
    exists b',
      record_successes k {| cb := b; clock := c |} = (Ok tt, {| cb := b'; clock := c |}) /\
      _state b' = HALF_OPEN /\ _success_count b' = _success_count b + Z.of_nat k /\
      _failure_count b' = _failure_count b /\
      half_open_attempts b' = half_open_attempts b.
Proof.
  induction k as [|k IH]; intros b c Hs Hlt.
  - exists b. simpl. unfold ret. repeat split; try assumption; lia.
  - simpl record_successes. unfold bind at 1.
    rewrite (record_success_half_open b c Hs).
    assert (Hb : (_success_count b + 1 >=? half_open_attempts b) = false)
      by (rewrite Z.geb_leb; apply Z.leb_gt; lia).
    rewrite Hb.
    destruct (IH (set__success_count (_success_count b + 1) b) c)
      as (b' & Hrun & Hs' & Hc' & Hf' & Hh'); simpl; try lia; try assumption.
    exists b'. rewrite Hrun. simpl in *. repeat split; try assumption; lia.
Qed.

Lemma record_successes_app (n m : nat) (w : BreakerWorld) :
  record_successes (n + m) w = bind (record_successes n) (fun _ => record_successes m) w.
Proof.
  revert w. induction n as [|n IH]; intros w; simpl.
  - reflexivity.
  - unfold bind in *.
    destruct (record_success w) as [[[]|e|] w1]; [apply IH | reflexivity | reflexivity].
Qed.

(** X1. A probing breaker (stored HalfOpen, no success counted yet, a
    positive [half_open_attempts]) stays HalfOpen, with its failure count as
    it was, for any number of consecutive [record_success()] calls below
    [half_open_attempts]; exactly [half_open_attempts] calls close it and
    clear both counters. *)
Theorem half_open_closes_after_successes (b : CircuitBreaker) (c : Clock) :
  _state b = HALF_OPEN -> _success_count b = 0 -> 0 < half_open_attempts b ->
  (forall k : nat, Z.of_nat k < half_open_attempts b ->
     exists w', record_successes k {| cb := b; clock := c |} = (Ok tt, w') /\
                _state (cb w') = HALF_OPEN /\
                _success_count (cb w') = Z.of_nat k /\
                _failure_count (cb w') = _failure_count b) /\
  (exists w', record_successes (Z.to_nat (half_open_attempts b)) {| cb := b; clock := c |}
              = (Ok tt, w') /\
              _state (cb w') = CLOSED /\
              _failure_count (cb w') = 0 /\ _success_count (cb w') = 0).
Proof.
  intros Hs Hc Hpos. split.
  - intros k Hk.
    destruct (record_successes_half_open_below k b c Hs) as (b' & Hrun & Hs' & Hc' & Hf' & _);
      [lia|].
    eexists. split; [exact Hrun|]. simpl. repeat split; try assumption; lia.
  - remember (Z.to_nat (half_open_attempts b - 1)) as k eqn:Hk.
    replace (Z.to_nat (half_open_attempts b)) with (k + 1)%nat by lia.
    rewrite record_successes_app. unfold bind at 1.
    destruct (record_successes_half_open_below k b c Hs)
      as (b' & Hrun & Hs' & Hc' & Hf' & Hh'); [lia|].
    rewrite Hrun. simpl record_successes. unfold bind at 1.
    rewrite (record_success_half_open b' c Hs').
    assert (Hb : (_success_count b' + 1 >=? half_open_attempts b') = true)
      by (rewrite Z.geb_leb; apply Z.leb_le; lia).
    rewrite Hb. eexists. split; [reflexivity|]. simpl. repeat split.
Qed.

(** An instance of X1: two successes close the default probe. *)
Lemma half_open_closes_after_successes_witness :
  let b := set__failure_count 8 (set__state HALF_OPEN (CircuitBreaker__init__ 8 30 2)) in
  let c := {| readings := fun _ => 5%Q; reads := 0 |} in
  (forall k : nat, Z.of_nat k < 2 ->
     exists w', record_successes k {| cb := b; clock := c |} = (Ok tt, w') /\
                _state (cb w') = HALF_OPEN /\
                _success_count (cb w') = Z.of_nat k /\
                _failure_count (cb w') = 8) /\
  (exists w', record_successes 2 {| cb := b; clock := c |} = (Ok tt, w') /\
              _state (cb w') = CLOSED /\
              _failure_count (cb w') = 0 /\ _success_count (cb w') = 0).
Proof.
  intros b c.
  exact (half_open_closes_after_successes b c eq_refl eq_refl eq_refl).
Defined.

(** X2. Only consecutive failures open a Closed breaker: a success between
    two runs of failures, each shorter than the threshold, starts the count
    again, so the breaker is still Closed and counts the second run only. *)
Theorem success_restarts_failure_count (b : CircuitBreaker) (c : Clock) (j k : nat) :
  _state b = CLOSED -> _failure_count b = 0 ->
  Z.of_nat j < failure_threshold b -> Z.of_nat k < failure_threshold b ->
  exists w',
    (record_failures j ;;; record_success ;;; record_failures k) {| cb := b; clock := c |}
      = (Ok tt, w') /\
    _state (cb w') = CLOSED /\ _failure_count (cb w') = Z.of_nat k.
Proof.
  intros Hs Hc Hj Hk. unfold bind at 1.
  destruct (record_failures_closed_below j b c Hs) as (b1 & c1 & Hrun1 & Hs1 & _ & Hft1 & _);
    try lia.
  rewrite Hrun1. unfold bind at 1.
  rewrite (record_success_closed b1 c1 Hs1).
  destruct (record_failures_closed_below k (set__success_count 0 (set__failure_count 0 b1)) c1)
    as (b2 & c2 & Hrun2 & Hs2 & Hc2 & _); simpl; try assumption; try lia.
  rewrite Hrun2. eexists. split; [reflexivity|]. simpl in *. split; [assumption | lia].
Qed.

(** An instance of X2 on the agents' breaker: 7 failures, a success, 7
    failures. *)
Lemma success_restarts_failure_count_witness :
  exists w',
    (record_failures 7 ;;; record_success ;;; record_failures 7)
      {| cb := CircuitBreaker__init__ 8 30 2;
         clock := {| readings := fun n => inject_Z (Z.of_nat n + 1); reads := 0 |} |}
      = (Ok tt, w') /\
    _state (cb w') = CLOSED /\ _failure_count (cb w') = 7.
Proof.
  exact (success_restarts_failure_count (CircuitBreaker__init__ 8 30 2)
           {| readings := fun n => inject_Z (Z.of_nat n + 1); reads := 0 |} 7 7
           eq_refl eq_refl eq_refl eq_refl).
Defined.

(** An Open breaker read before its recovery time: the read reports Open and
    leaves the breaker as it is. *)
Lemma state_open_stays (b : CircuitBreaker) (c : Clock) :
  _state b = OPEN ->
  (forall t, _last_failure_time b = Some t -> (now c - t <= recovery_timeout b)%Q) ->
  exists c', state {| cb := b; clock := c |} = (Ok OPEN, {| cb := b; clock := c' |}).
Proof.
  intros Hs Hcmp. destruct b as [ft rt hoa st fc sc lft fca]; simpl in *; subst.
  run_breaker. destruct lft as [t|]; simpl; [|eexists; reflexivity].
  destruct (truthy t); simpl; [|eexists; reflexivity].
  specialize (Hcmp t eq_refl). apply Qgtb_false in Hcmp.
  unfold now in *. simpl in *. rewrite Hcmp. eexists. reflexivity.
Qed.

(** An Open breaker read after its recovery time. *)
Lemma state_open_elapsed (b : CircuitBreaker) (c : Clock) (t : Q) :
  _state b = OPEN -> _last_failure_time b = Some t -> ~ (t == 0)%Q ->
  (recovery_timeout b < now c - t)%Q ->
  state {| cb := b; clock := c |} =
  (Ok HALF_OPEN, {| cb := set__success_count 0 (set__state HALF_OPEN b); clock := tick c |}).
Proof.
  intros Hs Ht Hnz Hcmp. apply truthy_true in Hnz. apply Qgtb_true in Hcmp.
  destruct b; simpl in *; subst. run_breaker. rewrite Hnz. simpl.
  unfold now in *. simpl in *. rewrite Hcmp. reflexivity.
Qed.

(** X3. While an Open breaker has not reached its recovery time, [execute]
    raises [CircuitBreakerOpenError] whatever the callable is and would do,
    and changes none of the breaker's fields, the counters included. *)
Theorem open_breaker_rejects_untouched (b : CircuitBreaker) (c : Clock)
        (f : Callable) (n : Z) (budget : Q) :
  _state b = OPEN ->
  (forall t, _last_failure_time b = Some t -> (now c - t <= recovery_timeout b)%Q) ->
  exists c',
    execute f n budget {| cb := b; clock := c |} =
    (Raise (CircuitBreakerOpenError
              ("CircuitBreaker is OPEN for " ++ name_of f ++ ". Call rejected.")),
     {| cb := b; clock := c' |}).
Proof.
  intros Hs Hcmp. destruct (state_open_stays b c Hs Hcmp) as (c' & Hst).
  exists c'. unfold execute. unfold bind at 1. rewrite Hst. reflexivity.
Qed.

(** An instance of X3: a breaker that failed at 10 s, called at 40 s. *)
Lemma open_breaker_rejects_untouched_witness :
  let b := set__last_failure_time (Some 10%Q)
             (set__failure_count 8 (set__state OPEN (CircuitBreaker__init__ 8 30 2))) in
  exists c',
    execute (CoroutineFunction "op" (fun _ _ => Completed VNone)) 0 180
      {| cb := b; clock := {| readings := fun _ => 40%Q; reads := 0 |} |} =
    (Raise (CircuitBreakerOpenError "CircuitBreaker is OPEN for op. Call rejected."),
     {| cb := b; clock := c' |}).
Proof.
  intros b.
  apply (open_breaker_rejects_untouched b {| readings := fun _ => 40%Q; reads := 0 |}
           (CoroutineFunction "op" (fun _ _ => Completed VNone)) 0 180 eq_refl).
  intros t Ht. injection Ht as <-. discriminate.
Defined.

(** [execute] through a Closed breaker, when the callable raises. *)
Lemma execute_closed_failure (b : CircuitBreaker) (c : Clock) (f : Callable)
      (k : Z) (budget : Q) (e : exn) :
  _state b = CLOSED -> answer f k budget = Failed e ->
  execute f k budget {| cb := b; clock := c |} =
  (Raise e, snd (record_failure {| cb := b; clock := c |})).
Proof.
  intros Hs Ha. unfold execute. unfold bind at 1.
  rewrite state_not_open by (simpl; rewrite Hs; discriminate).
  simpl. rewrite Hs. simpl. unfold try_except, bind at 1.
  replace (match f with
           | CoroutineObject _ run => await (run budget)
           | FutureObject run => await (run budget)
           | CoroutineFunction _ call => await (call k budget)
           | PlainFunction _ call => await (call k budget)
           end) with (@await BreakerWorld (answer f k budget))
    by (destruct f; reflexivity).
  rewrite Ha. unfold await, bind.
  destruct (record_failure_total {| cb := b; clock := c |}) as (w1 & ->). reflexivity.
Qed.

(** [execute] through a breaker whose stored state is not OPEN, when the
    callable completes. *)
Lemma execute_admitted_success (b : CircuitBreaker) (c : Clock) (f : Callable)
      (k : Z) (budget : Q) (v : Value) :
  _state b <> OPEN -> answer f k budget = Completed v ->
  execute f k budget {| cb := b; clock := c |} =
  (Ok v, snd (record_success {| cb := b; clock := c |})).
Proof.
  intros Hs Ha. unfold execute. unfold bind at 1.
  rewrite state_not_open by (simpl; exact Hs).
  simpl. destruct (_state b) eqn:E; [| congruence |]; simpl.
  all: unfold try_except, bind at 1.
  all: replace (match f with
                | CoroutineObject _ run => await (run budget)
                | FutureObject run => await (run budget)
                | CoroutineFunction _ call => await (call k budget)
                | PlainFunction _ call => await (call k budget)
                end) with (@await BreakerWorld (answer f k budget))
         by (destruct f; reflexivity).
  all: rewrite Ha; unfold await, bind.
  all: destruct (record_success_total {| cb := b; clock := c |}) as (w1 & ->);
       reflexivity.
Qed.

(** A function is the same callable at every call. *)
Lemma execute_calls_step (f : Callable) (budget : Q) (n : nat) (k : Z) (w : BreakerWorld) :
  is_function f = true ->
  execute_calls f budget (S n) k w =
  let (r, w1) := execute f k budget w in
  let (rs, w2) := execute_calls f budget n (k + 1) w1 in
  (r :: rs, w2).
Proof.
  intros Hf. simpl execute_calls.
  assert (Ha : awaited f = f) by (destruct f; [discriminate | | |]; reflexivity).
  rewrite Ha. destruct (fst (state w)) as [[| |] | |]; reflexivity.
Qed.

Lemma execute_calls_closed_below (f : Callable) (budget : Q) (e : exn) (n : nat) :
  is_function f = true ->
  (forall k, answer f k budget = Failed e) ->
  forall (b : CircuitBreaker) (c : Clock) (k : Z),
    _state b = CLOSED -> 0 <= _failure_count b ->
    _failure_count b + Z.of_nat n < failure_threshold b ->
    exists b' c',
      execute_calls f budget n k {| cb := b; clock := c |} =
        (repeat (Raise e) n, {| cb := b'; clock := c' |}) /\
      _state b' = CLOSED /\ _failure_count b' = _failure_count b + Z.of_nat n /\
      failure_threshold b' = failure_threshold b /\
      recovery_timeout b' = recovery_timeout b.
Proof.
  intros Hfun Hf. induction n as [|n IH]; intros b c k Hs Hc Hlt.
  - exists b, c. simpl. repeat split; try assumption; lia.
  - rewrite (execute_calls_step f budget n k _ Hfun).
    rewrite (execute_closed_failure b c f k budget e Hs (Hf k)).
    rewrite (record_failure_closed b c Hs). simpl snd.
    assert (Hb : (_failure_count b + 1 >=? failure_threshold b) = false)
      by (rewrite Z.geb_leb; apply Z.leb_gt; lia).
    rewrite Hb.
    destruct (IH (set__last_failure_time (Some (now c))
                    (set__failure_count (_failure_count b + 1) b)) (tick c) (k + 1))
      as (b' & c' & Hrun & Hs' & Hc' & Hft & Hrt); simpl; try lia; try assumption.
    exists b', c'. rewrite Hrun. simpl in *. repeat split; try assumption; lia.
Qed.

Lemma execute_calls_app (f : Callable) (budget : Q) (n m : nat) :
  is_function f = true ->
  forall (k : Z) (w : BreakerWorld),
    execute_calls f budget (n + m) k w =
    let (rs1, w1) := execute_calls f budget n k w in
    let (rs2, w2) := execute_calls f budget m (k + Z.of_nat n) w1 in
    ((rs1 ++ rs2)%list, w2).
Proof.
  intros Hfun. induction n as [|n IH]; intros k w.
  - simpl. rewrite Z.add_0_r. destruct (execute_calls f budget m k w). reflexivity.
  - change (S n + m)%nat with (S (n + m)).
    rewrite !(execute_calls_step f budget _ k w Hfun).
    destruct (execute f k budget w) as [r w1].
    rewrite IH. replace (k + 1 + Z.of_nat n) with (k + Z.of_nat (S n)) by lia.
    destruct (execute_calls f budget n (k + 1) w1) as [rs1 w2].
    destruct (execute_calls f budget m (k + Z.of_nat (S n)) w2) as [rs2 w3].
    reflexivity.
Qed.

(** X4. The breaker does its job: on a fresh Closed breaker with threshold
    [n >= 1], [n] calls of [execute] in a row with a function (a coroutine
    function or a plain one, called anew each time) whose call raises [e]
    each raise [e] to the caller (nothing is swallowed) and leave the
    breaker Open; any call made after that, before the recovery time, is
    rejected with [CircuitBreakerOpenError] without running its callable and
    without changing the breaker. *)
Theorem failing_calls_trip_the_breaker (b : CircuitBreaker) (c : Clock) (f : Callable)
        (budget : Q) (e : exn) (n : nat) :
  is_function f = true ->
  _state b = CLOSED -> _failure_count b = 0 ->
  failure_threshold b = Z.of_nat n -> (1 <= n)%nat ->
  (forall k, answer f k budget = Failed e) ->
  exists w',
    execute_calls f budget n 0 {| cb := b; clock := c |} = (repeat (Raise e) n, w') /\
    _state (cb w') = OPEN /\
    _failure_count (cb w') = failure_threshold b /\
    forall (f' : Callable) (k : Z) (budget' : Q),
      (forall t, _last_failure_time (cb w') = Some t ->
                 (now (clock w') - t <= recovery_timeout b)%Q) ->
      exists c'',
        execute f' k budget' w' =
        (Raise (rejection f'), {| cb := cb w'; clock := c'' |}).
Proof.
  intros Hfun Hs Hc Hthr Hn Hf.
  destruct n as [|n]; [lia|]. clear Hn.
  replace (S n) with (n + 1)%nat by lia.
  rewrite (execute_calls_app f budget n 1 Hfun).
  destruct (execute_calls_closed_below f budget e n Hfun Hf b c 0 Hs)
    as (b1 & c1 & Hrun & Hs1 & Hc1 & Hft1 & Hrt1); try lia.
  rewrite Hrun. rewrite (execute_calls_step f budget 0 _ _ Hfun). simpl execute_calls.
  rewrite (execute_closed_failure b1 c1 f _ budget e Hs1 (Hf _)).
  rewrite (record_failure_closed b1 c1 Hs1). simpl snd.
  assert (Hb : (_failure_count b1 + 1 >=? failure_threshold b1) = true)
    by (rewrite Z.geb_leb; apply Z.leb_le; lia).
  rewrite Hb. eexists. split.
  { rewrite repeat_app. reflexivity. }
  simpl. split; [reflexivity|]. split; [lia|].
  intros f' k budget' Hcmp.
  match goal with |- context [execute f' k budget' {| cb := ?b2; clock := ?c2 |}] =>
    destruct (state_open_stays b2 c2) as (c'' & Hst)
  end.
  - reflexivity.
  - intros t Ht. simpl. rewrite Hrt1. apply Hcmp. exact Ht.
  - exists c''. unfold execute. unfold bind at 1. rewrite Hst. reflexivity.
Qed.

(** An instance of X4: three failures trip a breaker of threshold 3. *)
Lemma failing_calls_trip_the_breaker_witness :
  let b := CircuitBreaker__init__ 3 30 2 in
  let c := {| readings := fun n => inject_Z (Z.of_nat n + 1); reads := 0 |} in
  let f := CoroutineFunction "op" (fun _ _ => Failed (Exception "boom")) in
  exists w',
    execute_calls f 180 3 0 {| cb := b; clock := c |}
      = ([Raise (Exception "boom"); Raise (Exception "boom"); Raise (Exception "boom")],
         w') /\
    _state (cb w') = OPEN /\
    _failure_count (cb w') = 3 /\
    forall (f' : Callable) (k : Z) (budget' : Q),
      (forall t, _last_failure_time (cb w') = Some t ->
                 (now (clock w') - t <= 30)%Q) ->
      exists c'',
        execute f' k budget' w' =
        (Raise (rejection f'), {| cb := cb w'; clock := c'' |}).
Proof.
  intros b c f.
  apply (failing_calls_trip_the_breaker b c f 180 (Exception "boom") 3);
    [reflexivity | reflexivity | reflexivity | reflexivity | lia | reflexivity].
Defined.

Lemma execute_calls_half_open_below (f : Callable) (budget : Q) (v : Value) (n : nat) :
  is_function f = true ->
  (forall k, answer f k budget = Completed v) ->
  forall (b : CircuitBreaker) (c : Clock) (k : Z),
    _state b = HALF_OPEN ->
    _success_count b + Z.of_nat n < half_open_attempts b ->
    exists b',
      execute_calls f budget n k {| cb := b; clock := c |} =
        (repeat (Ok v) n, {| cb := b'; clock := c |}) /\
      _state b' = HALF_OPEN /\ _success_count b' = _success_count b + Z.of_nat n /\
      half_open_attempts b' = half_open_attempts b.
Proof.
  intros Hfun Hf. induction n as [|n IH]; intros b c k Hs Hlt.
  - exists b. simpl. repeat split; try assumption; lia.
  - rewrite (execute_calls_step f budget n k _ Hfun).
    rewrite (execute_admitted_success b c f k budget v) by (rewrite ?Hs; auto; discriminate).
    rewrite (record_success_half_open b c Hs). simpl snd.
    assert (Hb : (_success_count b + 1 >=? half_open_attempts b) = false)
      by (rewrite Z.geb_leb; apply Z.leb_gt; lia).
    rewrite Hb.
    destruct (IH (set__success_count (_success_count b + 1) b) c (k + 1))
      as (b' & Hrun & Hs' & Hc' & Hh'); simpl; try lia; try assumption.
    exists b'. rewrite Hrun. simpl in *. repeat split; try assumption; lia.
Qed.

Lemma execute_unfold (f : Callable) (k : Z) (budget : Q) (w : BreakerWorld) :
  execute f k budget w =
  match state w with
  | (Ok s, w') =>
      (if CircuitBreakerState_eqb s OPEN then
         raise (rejection f)
       else
         try_except
           (result <- match f with
                      | FutureObject run => await (run budget)
                      | CoroutineObject _ run => await (run budget)
                      | CoroutineFunction _ call => await (call k budget)
                      | PlainFunction _ call => await (call k budget)
                      end ;;
            record_success ;;;
            ret result)
           (fun e => record_failure ;;; raise e)) w'
  | (Raise e, w') => (Raise e, w')
  | (Cancelled, w') => (Cancelled, w')
  end.
Proof. reflexivity. Qed.

(** The first call through an Open breaker whose recovery time has passed
    goes on as a call through the HalfOpen breaker the read leaves. *)
Lemma execute_open_elapsed (b : CircuitBreaker) (c : Clock) (t : Q) (f : Callable)
      (k : Z) (budget : Q) :
  _state b = OPEN -> _last_failure_time b = Some t -> ~ (t == 0)%Q ->
  (recovery_timeout b < now c - t)%Q ->
  execute f k budget {| cb := b; clock := c |} =
  execute f k budget
    {| cb := set__success_count 0 (set__state HALF_OPEN b); clock := tick c |}.
Proof.
  intros Hs Ht Hnz Hcmp.
  rewrite (execute_unfold f k budget {| cb := b; clock := c |}).
  rewrite (execute_unfold f k budget
             {| cb := set__success_count 0 (set__state HALF_OPEN b); clock := tick c |}).
  rewrite (state_open_elapsed b c t Hs Ht Hnz Hcmp).
  rewrite state_not_open by (simpl; discriminate). reflexivity.
Qed.

(** X5. Recovery through [execute]: an Open breaker whose last failure is
    more than [recovery_timeout] old lets calls through again, and
    [half_open_attempts] calls in a row with a function (called anew each
    time) that complete return their values and leave the breaker Closed
    with both counters at zero. *)
Theorem successful_probes_close_the_breaker (b : CircuitBreaker) (c : Clock) (t : Q)
        (f : Callable) (budget : Q) (v : Value) (m : nat) :
  is_function f = true ->
  _state b = OPEN -> _last_failure_time b = Some t -> ~ (t == 0)%Q ->
  (recovery_timeout b < now c - t)%Q ->
  half_open_attempts b = Z.of_nat m -> (1 <= m)%nat ->
  (forall k, answer f k budget = Completed v) ->
  exists w',
    execute_calls f budget m 0 {| cb := b; clock := c |} = (repeat (Ok v) m, w') /\
    _state (cb w') = CLOSED /\
    _failure_count (cb w') = 0 /\ _success_count (cb w') = 0.
Proof.
  intros Hfun Hs Ht Hnz Hcmp Hhoa Hm Hf.
  destruct m as [|m]; [lia|]. clear Hm.
  assert (Hfirst : forall rest,
            execute_calls f budget (S rest) 0 {| cb := b; clock := c |} =
            execute_calls f budget (S rest) 0
              {| cb := set__success_count 0 (set__state HALF_OPEN b); clock := tick c |}).
  { intros rest. rewrite !(execute_calls_step f budget rest 0 _ Hfun).
    rewrite (execute_open_elapsed b c t f 0 budget Hs Ht Hnz Hcmp). reflexivity. }
  rewrite Hfirst. replace (S m) with (m + 1)%nat by lia.
  rewrite (execute_calls_app f budget m 1 Hfun).
  destruct (execute_calls_half_open_below f budget v m Hfun Hf
              (set__success_count 0 (set__state HALF_OPEN b)) (tick c) 0)
    as (b1 & Hrun & Hs1 & Hc1 & Hh1); simpl; try reflexivity; try lia.
  rewrite Hrun. simpl execute_calls.
  rewrite (execute_admitted_success b1 (tick c) f _ budget v)
    by (rewrite ?Hs1; auto; discriminate).
  rewrite (record_success_half_open b1 (tick c) Hs1). simpl snd.
  assert (Hb : (_success_count b1 + 1 >=? half_open_attempts b1) = true)
    by (rewrite Z.geb_leb; apply Z.leb_le; simpl in *; lia).
  rewrite Hb. eexists. split.
  { rewrite repeat_app. reflexivity. }
  simpl. repeat split.
Qed.

(** An instance of X5: last failure at 10 s, called at 41 s, two probes. *)
Lemma successful_probes_close_the_breaker_witness :
  let b := set__last_failure_time (Some 10%Q)
             (set__failure_count 8 (set__state OPEN (CircuitBreaker__init__ 8 30 2))) in
  exists w',
    execute_calls (CoroutineFunction "op" (fun _ _ => Completed (VInt 7))) 180 2 0
      {| cb := b; clock := {| readings := fun _ => 41%Q; reads := 0 |} |}
      = ([Ok (VInt 7); Ok (VInt 7)], w') /\
    _state (cb w') = CLOSED /\
    _failure_count (cb w') = 0 /\ _success_count (cb w') = 0.
Proof.
  intros b.
  apply (successful_probes_close_the_breaker b
           {| readings := fun _ => 41%Q; reads := 0 |} 10%Q
           (CoroutineFunction "op" (fun _ _ => Completed (VInt 7))) 180 (VInt 7) 2);
    [reflexivity | reflexivity | reflexivity | discriminate | reflexivity | reflexivity
    | lia | reflexivity].
Defined.

(** ** Runs of execute_with_resilience *)

(** A call that runs out of time under a breaker that is not Open: the
    breaker records nothing (the cancellation is no [Exception]). *)
Lemma execute_admitted_expired (b : CircuitBreaker) (c : Clock) (f : Callable)
      (k : Z) (budget : Q) :
  _state b <> OPEN -> answer f k budget = Expired ->
  execute f k budget {| cb := b; clock := c |} = (Cancelled, {| cb := b; clock := c |}).
Proof.
  intros Hs Ha. rewrite execute_unfold.
  rewrite state_not_open by (simpl; exact Hs). simpl.
  destruct (_state b) eqn:E; [| congruence |]; simpl.
  all: unfold try_except, bind at 1.
  all: replace (match f with
                | CoroutineObject _ run => await (run budget)
                | FutureObject run => await (run budget)
                | CoroutineFunction _ call => await (call k budget)
                | PlainFunction _ call => await (call k budget)
                end) with (@await BreakerWorld (answer f k budget))
         by (destruct f; reflexivity).
  all: rewrite Ha; reflexivity.
Qed.

Section RunsOfTheLoop.
Context (env : Env) (task_id : string) (f : Callable)
        (max_retries : Z) (bf : Q) (br : BreakerRef).

(** An attempt that times out leaves the whole state as it was. *)
Lemma attempt_expired (c : Z) (t : Q) (w : World) :
  below_limit env c w -> _state (breaker_at br w) <> OPEN ->
  answer f c t = Expired ->
  attempt env task_id f br c t w = (Raise (TimeoutError ""), w).
Proof.
  intros Hlim Hs Ha. unfold below_limit in Hlim.
  unfold attempt, bind, reads_. simpl.
  assert (Hb : (_check_recursion_depth env c >=?
                getrecursionlimit env - _recursion_check_buffer (self w)) = false)
    by (rewrite Z.geb_leb; apply Z.leb_gt; lia).
  rewrite Hb. unfold ret, wait_for, on_breaker.
  rewrite (execute_admitted_expired _ _ f c t Hs Ha).
  destruct br; destruct w as [[cb0 fl buf st] gb clk tr]; reflexivity.
Qed.

Lemma stored_state_admits (w : World) :
  _state (breaker_at br w) <> OPEN -> admits br w.
Proof.
  intros Hs. unfold admits. rewrite state_not_open by (simpl; exact Hs).
  simpl. congruence.
Qed.

Lemma on_error_timeout (m : string) (w : World) :
  on_error (TimeoutError m) w =
  (Ok (TimeoutError m),
   {| self := set_execution_stats (incr_timeout_occurred (execution_stats (self w)))
                (self w);
      given_breaker := given_breaker w; wclock := wclock w; trace := trace w |}).
Proof. reflexivity. Qed.


(** [k] attempts that time out and one that completes. *)
Lemma retry_loop_timeouts_then_return (v : Value) (k : nat) :
  forall (fuel : nat) (c : Z) (t : Q) (last : option exn) (w : World),
    (k < fuel)%nat -> c + Z.of_nat k <= max_retries ->
    _state (breaker_at br w) <> OPEN ->
    (forall j, c <= j <= c + Z.of_nat k -> below_limit env j w) ->
    (forall j : nat, (j < k)%nat -> answer f (c + Z.of_nat j) (grown bf j t) = Expired) ->
    answer f (c + Z.of_nat k) (grown bf k t) = Completed v ->
    exists w',
      retry_loop env task_id f max_retries bf br fuel c t last w = (Ok (Return v), w') /\
      trace w' = (trace w ++ schedule bf (S k) c t)%list /\
      timeout_occurred (execution_stats (self w')) =
        timeout_occurred (execution_stats (self w)) + Z.of_nat k /\
      circuit_breaker_triggered (execution_stats (self w')) =
        circuit_breaker_triggered (execution_stats (self w)) /\
      fallback_to_sync (self w') = fallback_to_sync (self w).
Proof.
  induction k as [|k IH]; intros fuel c t last w Hfuel Hc Hs Hlim Hexp Hok.
  - destruct fuel as [|fuel]; [lia|]. rewrite retry_loop_eq.
    assert (Hle : (c <=? max_retries) = true) by (apply Z.leb_le; lia).
    rewrite Hle. rewrite Z.add_0_r in Hok. simpl grown in Hok.
    destruct (attempt_admitted env task_id f br c t
                (record_event (EvAttempt (c + 1) t) w))
      as (w1 & Hrun & [Htr _] & Hflag & Hstats).
    { apply (below_limit_buffer env c w); [reflexivity | apply Hlim; lia]. }
    { apply stored_state_admits. destruct br; exact Hs. }
    rewrite Hrun, Hok. simpl seen. exists w1. split; [reflexivity|].
    simpl in *. rewrite Hstats, Hflag, Htr. repeat split; lia.
  - destruct fuel as [|fuel]; [lia|]. rewrite retry_loop_eq.
    assert (Hle : (c <=? max_retries) = true) by (apply Z.leb_le; lia).
    rewrite Hle.
    rewrite attempt_expired.
    + assert (Hle1 : (c + 1 <=? max_retries) = true) by (apply Z.leb_le; lia).
      rewrite on_error_timeout, Hle1.
      match goal with |- context [retry_loop _ _ _ _ _ _ fuel (c + 1) ?t' ?l' ?w'] =>
        destruct (IH fuel (c + 1) t' l' w') as (w2 & Hrun & Htr & Hto & Hcbt & Hflag)
      end.
      * lia.
      * lia.
      * destruct br; exact Hs.
      * intros j Hj. apply (below_limit_buffer env j w); [reflexivity | apply Hlim; lia].
      * intros j Hj. replace (c + 1 + Z.of_nat j) with (c + Z.of_nat (S j)) by lia.
        apply (Hexp (S j)). lia.
      * replace (c + 1 + Z.of_nat k) with (c + Z.of_nat (S k)) by lia. exact Hok.
      * exists w2. split; [exact Hrun|].
        rewrite Htr, Hto, Hcbt, Hflag, schedule_cons. simpl.
        rewrite <- !app_assoc. repeat split; lia.
    + apply (below_limit_buffer env c w); [reflexivity | apply Hlim; lia].
    + destruct br; exact Hs.
    + specialize (Hexp 0%nat). rewrite Z.add_0_r in Hexp. apply Hexp. lia.
Qed.

End RunsOfTheLoop.

Lemma count_attempts_schedule (bf : Q) (n : nat) :
  forall (c : Z) (t : Q), count_attempts (schedule bf n c t) = n.
Proof.
  induction n as [|n IH]; intros c t; [reflexivity|].
  destruct n as [|n]; [reflexivity|].
  rewrite schedule_cons.
  change (count_attempts (EvAttempt (c + 1) t :: EvSleep (bf ^ (c + 1 - 1)) ::
                          schedule bf (S n) (c + 1) (t * bf)%Q))
    with (S (count_attempts (schedule bf (S n) (c + 1) (t * bf)%Q))).
  rewrite IH. reflexivity.
Qed.

(** X6. Retry after timeouts: when the first [k] attempts of a function run
    out of time and attempt [k + 1] completes with [v], within the budget
    ([k <= max_retries]), with the stack below the limit and a breaker that
    is not Open, [execute_with_resilience] returns [v]; it has made [k + 1]
    attempts with [k] sleeps between them, [timeout_occurred] has grown by
    exactly [k], and neither [circuit_breaker_triggered] nor the sync-mode
    flag has changed. *)
Theorem timeouts_then_success `{AgentClass} (env : Env) (task_id : string)
        (f : Callable) (max_retries : Z) (it bf : Q) (cbo : option BreakerRef)
        (w : World) (k : nat) (v : Value) :
  is_function f = true -> Z.of_nat k <= max_retries ->
  _state (breaker_at (actual_breaker cbo) w) <> OPEN ->
  (forall j, 0 <= j <= Z.of_nat k -> below_limit env j w) ->
  (forall j : nat, (j < k)%nat -> answer f (Z.of_nat j) (grown bf j it) = Expired) ->
  answer f (Z.of_nat k) (grown bf k it) = Completed v ->
  exists w',
    execute_with_resilience env task_id f max_retries it bf cbo w = (Ok (Some v), w') /\
    trace w' = (trace w ++ schedule bf (S k) 0 it)%list /\
    count_attempts (trace w') = (count_attempts (trace w) + S k)%nat /\
    timeout_occurred (execution_stats (self w')) =
      timeout_occurred (execution_stats (self w)) + Z.of_nat k /\
    circuit_breaker_triggered (execution_stats (self w')) =
      circuit_breaker_triggered (execution_stats (self w)) /\
    fallback_to_sync (self w') = fallback_to_sync (self w).
Proof.
  intros Hf Hk Hs Hlim Hexp Hok.
  rewrite (execute_with_resilience_function env task_id f max_retries it bf cbo w Hf).
  destruct (retry_loop_timeouts_then_return env task_id f max_retries bf
              (actual_breaker cbo) v k (S (Z.to_nat (max_retries + 1))) 0 it None w)
    as (w' & Hrun & Htr & Hto & Hcbt & Hflag); try assumption; try lia.
  rewrite Hrun. exists w'. split; [reflexivity|]. split; [exact Htr|].
  split; [|repeat split; assumption].
  rewrite Htr. unfold count_attempts. rewrite filter_app, length_app. f_equal.
  apply count_attempts_schedule.
Qed.

(** An instance of X6: two timeouts, then 7, with [max_retries = 2]. *)
Lemma timeouts_then_success_witness :
  let f := CoroutineFunction "op"
             (fun n _ => if n <? 2 then Expired else Completed (VInt 7)) in
  let env := {| stack_depth := fun _ => 30; getrecursionlimit := 1000 |} in
  let w := {| self := BaseAsyncAgent__init__;
              given_breaker := CircuitBreaker__init__ 12 90 2;
              wclock := {| readings := fun n => inject_Z (Z.of_nat n + 1); reads := 0 |};
              trace := [] |} in
  exists w',
    execute_with_resilience env "t" f 2 180 (3 # 2) None w = (Ok (Some (VInt 7)), w') /\
    trace w' = [EvAttempt 1 180; EvSleep ((3 # 2) ^ 0); EvAttempt 2 (180 * (3 # 2));
                EvSleep ((3 # 2) ^ 1); EvAttempt 3 (180 * (3 # 2) * (3 # 2))] /\
    count_attempts (trace w') = 3%nat /\
    timeout_occurred (execution_stats (self w')) = 2 /\
    circuit_breaker_triggered (execution_stats (self w')) = 0 /\
    fallback_to_sync (self w') = false.
Proof.
  intros f env w.
  apply (timeouts_then_success env "t" f 2 180 (3 # 2) None w 2 (VInt 7)).
  - reflexivity.
  - lia.
  - discriminate.
  - intros j Hj. unfold below_limit. simpl. lia.
  - intros j Hj. destruct j as [|[|j]]; [reflexivity | reflexivity | lia].
  - reflexivity.
Defined.


Section ExhaustedRuns.
Context (env : Env) (task_id : string) (f : Callable)
        (max_retries : Z) (bf : Q) (br : BreakerRef).



(** Every attempt out of time: the same, and the breaker is not told. *)
Lemma retry_loop_all_timeouts (k : nat) :
  forall (fuel : nat) (c : Z) (t : Q) (last : option exn) (w : World),
    (S k < fuel)%nat -> c + Z.of_nat k = max_retries ->
    _state (breaker_at br w) <> OPEN ->
    (forall j, c <= j <= max_retries -> below_limit env j w) ->
    (forall j : nat, (j <= k)%nat -> answer f (c + Z.of_nat j) (grown bf j t) = Expired) ->
    exists w',
      retry_loop env task_id f max_retries bf br fuel c t last w =
        (Ok (Exhausted (max_retries + 1) (grown bf k t) (Some (TimeoutError ""))), w') /\
      trace w' = (trace w ++ schedule bf (S k) c t)%list /\
      timeout_occurred (execution_stats (self w')) =
        timeout_occurred (execution_stats (self w)) + Z.of_nat (S k) /\
      circuit_breaker_triggered (execution_stats (self w')) =
        circuit_breaker_triggered (execution_stats (self w)) /\
      fallback_to_sync (self w') = fallback_to_sync (self w) /\
      circuit_breaker (self w') = circuit_breaker (self w) /\
      given_breaker w' = given_breaker w /\ wclock w' = wclock w.
Proof.
  induction k as [|k IH]; intros fuel c t last w Hfuel Hc Hs Hlim Hexp.
  - destruct fuel as [|[|fuel]]; try lia. rewrite retry_loop_eq.
    assert (Hle : (c <=? max_retries) = true) by (apply Z.leb_le; lia).
    rewrite Hle. rewrite attempt_expired.
    + rewrite on_error_timeout.
      assert (Hle1 : (c + 1 <=? max_retries) = false) by (apply Z.leb_gt; lia).
      rewrite Hle1. rewrite retry_loop_no_attempt by lia.
      assert (Hc' : c = max_retries) by lia. subst c.
      eexists. split; [reflexivity|]. simpl. repeat split; try reflexivity; lia.
    + apply (below_limit_buffer env c w); [reflexivity | apply Hlim; lia].
    + destruct br; exact Hs.
    + specialize (Hexp 0%nat). rewrite Z.add_0_r in Hexp. apply Hexp. lia.
  - destruct fuel as [|fuel]; [lia|]. rewrite retry_loop_eq.
    assert (Hle : (c <=? max_retries) = true) by (apply Z.leb_le; lia).
    rewrite Hle. rewrite attempt_expired.
    + assert (Hle1 : (c + 1 <=? max_retries) = true) by (apply Z.leb_le; lia).
      rewrite on_error_timeout, Hle1.
      match goal with |- context [retry_loop _ _ _ _ _ _ fuel (c + 1) ?t' ?l' ?w'] =>
        destruct (IH fuel (c + 1) t' l' w')
          as (w2 & Hloop & Htr & Hto & Hcbt & Hflag & Hown & Hgiven & Hclk)
      end.
      * lia.
      * lia.
      * destruct br; exact Hs.
      * intros j Hj. apply (below_limit_buffer env j w); [reflexivity | apply Hlim; lia].
      * intros j Hj. replace (c + 1 + Z.of_nat j) with (c + Z.of_nat (S j)) by lia.
        apply (Hexp (S j)). lia.
      * exists w2. split; [exact Hloop|].
        rewrite Htr, Hto, Hcbt, Hflag, Hown, Hgiven, Hclk, schedule_cons. simpl.
        rewrite <- !app_assoc. repeat split; lia.
    + apply (below_limit_buffer env c w); [reflexivity | apply Hlim; lia].
    + destruct br; exact Hs.
    + specialize (Hexp 0%nat). rewrite Z.add_0_r in Hexp. apply Hexp. lia.
Qed.

End ExhaustedRuns.

(** X7. Timeouts are not failures for the breaker: when every attempt of a
    function runs out of time (breaker not Open, stack below the limit,
    [max_retries >= 0]), [execute_with_resilience] makes all
    [max_retries + 1] attempts, raises [asyncio.TimeoutError], has counted
    [max_retries + 1] in [timeout_occurred], and has left both breakers and
    the clock exactly as they were: no failure was recorded, so such an
    operation never opens the breaker. *)
Theorem timeouts_never_reach_the_breaker `{AgentClass} (env : Env) (task_id : string)
        (f : Callable) (max_retries : Z) (it bf : Q) (cbo : option BreakerRef)
        (w : World) :
  is_function f = true -> 0 <= max_retries ->
  _state (breaker_at (actual_breaker cbo) w) <> OPEN ->
  (forall j, 0 <= j <= max_retries -> below_limit env j w) ->
  (forall j : nat, Z.of_nat j <= max_retries ->
                   answer f (Z.of_nat j) (grown bf j it) = Expired) ->
  exists w',
    execute_with_resilience env task_id f max_retries it bf cbo w
      = (Raise (TimeoutError ""), w') /\
    count_attempts (trace w') = (count_attempts (trace w) + Z.to_nat (max_retries + 1))%nat /\
    timeout_occurred (execution_stats (self w')) =
      timeout_occurred (execution_stats (self w)) + (max_retries + 1) /\
    circuit_breaker (self w') = circuit_breaker (self w) /\
    given_breaker w' = given_breaker w /\ wclock w' = wclock w.
Proof.
  intros Hf Hmr Hs Hlim Hexp.
  rewrite (execute_with_resilience_function env task_id f max_retries it bf cbo w Hf).
  destruct (retry_loop_all_timeouts env task_id f max_retries bf (actual_breaker cbo)
              (Z.to_nat max_retries) (S (Z.to_nat (max_retries + 1))) 0 it None w)
    as (w' & Hrun & Htr & Hto & _ & _ & Hown & Hgiven & Hclk);
    try assumption; try lia.
  { intros j Hj. apply Hexp. lia. }
  rewrite Hrun. exists w'. split; [reflexivity|].
  split.
  { rewrite Htr. unfold count_attempts. rewrite filter_app, length_app. f_equal.
    replace (Z.to_nat (max_retries + 1)) with (S (Z.to_nat max_retries)) by lia.
    apply count_attempts_schedule. }
  repeat split; try assumption. lia.
Qed.

(** An instance of X7: the agent's defaults and an operation that never
    answers in time. *)
Lemma timeouts_never_reach_the_breaker_witness :
  let f := CoroutineFunction "op" (fun _ _ => Expired) in
  let env := {| stack_depth := fun _ => 30; getrecursionlimit := 1000 |} in
  let w := {| self := BaseAsyncAgent__init__;
              given_breaker := CircuitBreaker__init__ 12 90 2;
              wclock := {| readings := fun n => inject_Z (Z.of_nat n + 1); reads := 0 |};
              trace := [] |} in
  exists w',
    execute_with_resilience env "t" f 2 180 (3 # 2) None w = (Raise (TimeoutError ""), w') /\
    count_attempts (trace w') = 3%nat /\
    timeout_occurred (execution_stats (self w')) = 3 /\
    circuit_breaker (self w') = CircuitBreaker__init__ 8 30 2 /\
    given_breaker w' = CircuitBreaker__init__ 12 90 2 /\
    wclock w' = {| readings := fun n => inject_Z (Z.of_nat n + 1); reads := 0 |}.
Proof.
  intros f env w.
  apply (timeouts_never_reach_the_breaker env "t" f 2 180 (3 # 2) None w).
  - reflexivity.
  - lia.
  - discriminate.
  - intros j Hj. unfold below_limit. simpl. lia.
  - intros j Hj. reflexivity.
Defined.



(** ** Sync mode *)

Section SyncMode.
Context (env : Env) (task_id : string) (f : Callable)
        (max_retries : Z) (bf : Q) (br : BreakerRef).

(** No attempt touches the flag. *)
Lemma attempt_flag (c : Z) (t : Q) (w : World) :
  exists r w',
    attempt env task_id f br c t w = (r, w') /\
    fallback_to_sync (self w') = fallback_to_sync (self w).
Proof.
  destruct (below_limit_dec env c w) as [Hlim | Hlim].
  - destruct (admits_dec br w) as [Hadm | Hrej].
    + destruct (attempt_admitted env task_id f br c t w Hlim Hadm) as (w' & Hrun & _ & Hfl & _).
      eexists. eexists. split; [exact Hrun | exact Hfl].
    + destruct (attempt_rejected env task_id f br c t w Hlim Hrej) as (w' & Hrun & _ & Hfl & _).
      eexists. eexists. split; [exact Hrun | exact Hfl].
  - rewrite (attempt_gate_closed env task_id f br c t w Hlim).
    eexists. eexists. split; reflexivity.
Qed.

(** The [except] clauses set the flag or leave it. *)
Lemma on_error_flag (e : exn) (w : World) :
  fallback_to_sync (self w) = true ->
  fallback_to_sync (self (snd (on_error e w))) = true.
Proof. intros Hfl. destruct e; simpl; try exact Hfl; reflexivity. Qed.

(** The loop never clears the flag. *)
Lemma retry_loop_keeps_flag (fuel : nat) :
  forall (c : Z) (t : Q) (last : option exn) (w : World),
    fallback_to_sync (self w) = true ->
    fallback_to_sync
      (self (snd (retry_loop env task_id f max_retries bf br fuel c t last w))) = true.
Proof.
  induction fuel as [|fuel IH]; intros c t last w Hfl; [exact Hfl|].
  rewrite retry_loop_eq. destruct (c <=? max_retries); [|exact Hfl].
  destruct (attempt_flag c t (record_event (EvAttempt (c + 1) t) w))
    as (r1 & w1 & Hrun & Hfl1).
  rewrite Hrun. simpl in Hfl1. rewrite Hfl in Hfl1.
  destruct r1 as [v | e |]; [exact Hfl1 | | exact Hfl1].
  pose proof (on_error_flag e w1 Hfl1) as Hfl2.
  destruct (on_error e w1) as [[e' | e' |] w2]; simpl in Hfl2; try exact Hfl2.
  destruct (c + 1 <=? max_retries); apply IH; simpl; exact Hfl2.
Qed.

End SyncMode.

(** With the flag set, [_should_use_sync] answers [True] whatever the depth
    of the stack. *)
Lemma should_use_sync_latched (env : Env) (k : Z) (w : World) :
  fallback_to_sync (self w) = true ->
  exists w', _should_use_sync env k w = (Ok true, w') /\
             fallback_to_sync (self w') = true.
Proof.
  intros Hfl. unfold _should_use_sync, bind, reads_, update_self, modify, ret. simpl.
  destruct (_ >=? _); simpl.
  - eexists. split; reflexivity.
  - rewrite Hfl. eexists. split; [reflexivity | exact Hfl].
Qed.

(** X9. Sync mode is a latch. Whatever the callable and however the run
    ends, [execute_with_resilience] leaves [fallback_to_sync] set if it was
    set, and sets it whenever it lets a [RecursionError] out; from then on
    [_should_use_sync] answers [True] at any stack depth, shallow ones
    included. *)
Theorem sync_mode_is_a_latch `{AgentClass} (env : Env) (task_id : string)
        (f : Callable) (max_retries : Z) (it bf : Q) (cbo : option BreakerRef)
        (w w' : World) (r : Result (option Value)) :
  execute_with_resilience env task_id f max_retries it bf cbo w = (r, w') ->
  fallback_to_sync (self w) = true \/
    (exists e, r = Raise e /\ is_RecursionError e = true) ->
  fallback_to_sync (self w') = true /\
  forall (env' : Env) (k : Z),
    exists w'', _should_use_sync env' k w' = (Ok true, w'') /\
                fallback_to_sync (self w'') = true.
Proof.
  intros Hrun Hwhy.
  assert (Hfl : fallback_to_sync (self w') = true).
  { destruct (is_function f) eqn:Hf.
    - rewrite (execute_with_resilience_function env task_id f max_retries it bf cbo w Hf)
        in Hrun.
      destruct Hwhy as [Hset | (e & -> & Hrec)].
      + pose proof (retry_loop_keeps_flag env task_id f max_retries bf (actual_breaker cbo)
                      (S (Z.to_nat (max_retries + 1))) 0 it None w Hset) as Hkeep.
        destruct (retry_loop env task_id f max_retries bf (actual_breaker cbo)
                    (S (Z.to_nat (max_retries + 1))) 0 it None w)
          as [[[v | cr ct [e|] |] | e |] w1]; simpl in Hkeep;
          injection Hrun as _ <-; exact Hkeep.
      + destruct (retry_loop_runs_schedule env task_id f max_retries bf
                    (actual_breaker cbo) (S (Z.to_nat (max_retries + 1))) 0 it None w)
          as (n & r1 & w1 & Hloop & _ & _ & _ & Hcase); [rewrite Z.sub_0_r; lia|].
        rewrite Hloop in Hrun.
        destruct r1 as [[v | cr ct [e1|] |] | e1 |]; try contradiction;
          try discriminate Hrun.
        * injection Hrun as <- <-.
          destruct Hcase as (_ & _ & _ & H0 & Hlast).
          assert (Hn : (1 <= n)%nat).
          { destruct n; [|lia]. discriminate (H0 eq_refl). }
          destruct (Hlast Hn) as (e2 & He2 & Hnr & _).
          injection He2 as <-. congruence.
        * injection Hrun as <- <-. discriminate Hrec.
        * injection Hrun as <- <-. destruct Hcase as (_ & _ & Hflag & _). exact Hflag.
    - destruct f as [nm run | run | nm call | nm call]; try discriminate.
      all: unfold execute_with_resilience, try_except, bind, emit, modify, wait_for,
             await, ret, get_fallback in Hrun; simpl in Hrun.
      all: destruct (run it) as [v0 | e0 |]; simpl in Hrun.
      all: try destruct (_get_fallback_result task_id (execution_stats (self w)))
             as [v st].
      all: injection Hrun as <- <-; simpl.
      all: destruct Hwhy as [Hset | (e & He & _)]; [exact Hset | discriminate He]. }
  split; [exact Hfl|].
  intros env' k. apply should_use_sync_latched. exact Hfl.
Qed.

(** An instance of X9: a fresh agent whose first attempt finds the stack at
    960 of 1000 frames; afterwards a stack of 30 frames still gives [True]. *)
Lemma sync_mode_is_a_latch_witness :
  let f := CoroutineFunction "op" (fun _ _ => Completed (VInt 7)) in
  let env := {| stack_depth := fun _ => 960; getrecursionlimit := 1000 |} in
  let w := {| self := BaseAsyncAgent__init__;
              given_breaker := CircuitBreaker__init__ 12 90 2;
              wclock := {| readings := fun n => inject_Z (Z.of_nat n + 1); reads := 0 |};
              trace := [] |} in
  let run := execute_with_resilience env "t" f 2 180 (3 # 2) None w in
  fallback_to_sync (self w) = false /\
  fallback_to_sync (self (snd run)) = true /\
  forall (env' : Env) (k : Z),
    exists w'', _should_use_sync env' k (snd run) = (Ok true, w'') /\
                fallback_to_sync (self w'') = true.
Proof.
  intros f env w run. split; [reflexivity|].
  apply (sync_mode_is_a_latch env "t" f 2 180 (3 # 2) None w (snd run) (fst run)).
  - apply surjective_pairing.
  - right. eexists. split; reflexivity.
Defined.

(** ** The queue's life cycle *)

(** One round of the worker on a queue that holds an item whose [put] was
    counted: the whole state after it. *)
Lemma worker_iteration_step (wq : AsyncWorkQueue) (item : WorkItem.t)
      (rest : list WorkItem.t) :
  heap (_queue wq) = item :: rest -> 0 < unfinished_tasks (_queue wq) ->
  _worker_iteration wq =
  (Ok Continue,
   {| _queue := {| maxsize := maxsize (_queue wq); heap := rest;
                   unfinished_tasks := unfinished_tasks (_queue wq) - 1;
                   putters := putters (_queue wq) |};
      _workers := _workers wq; _max_workers := _max_workers wq;
      _running := _running wq;
      _results := <[WorkItem.id item := expected_entry item]> (_results wq) |}).
Proof.
  intros Hheap Hu.
  destruct wq as [[ms h u ps] ws mw run res]. simpl in *. subst h.
  assert (Hb : (u <=? 0) = false) by (apply Z.leb_gt; lia).
  unfold expected_entry, call_outcome.
  run_worker.
  destruct (WorkItem.task_func item) as [nm r | r | nm call | nm call]; simpl.
  1, 2: rewrite Hb; reflexivity.
  all: destruct (call (WorkItem.current_retry item) (WorkItem.timeout item))
         as [v | e |]; simpl.
  all: try (destruct v as [| s | z | run']; simpl).
  all: try (destruct (run' (WorkItem.timeout item)) as [v' | e' |]; simpl).
  all: try (destruct e; simpl).
  all: rewrite Hb; reflexivity.
Qed.

(** A round leaves [_running] alone, and ends the loop only when it is
    cleared. *)
Lemma worker_iteration_running (wq : AsyncWorkQueue) :
  exists ctl wq',
    _worker_iteration wq = (Ok ctl, wq') /\ _running wq' = _running wq /\
    (_running wq = true -> ctl = Continue).
Proof.
  destruct wq as [[ms h u ps] ws mw run res]. destruct h as [|item rest].
  - run_worker. destruct run; simpl; eexists; eexists;
      (split; [reflexivity|]); (split; [reflexivity|]); intros; congruence.
  - run_worker.
    destruct (WorkItem.task_func item) as [nm r | r | nm call | nm call]; simpl.
    1, 2: destruct (u <=? 0); simpl; eexists; eexists;
          (split; [reflexivity|]); (split; [reflexivity|]); reflexivity.
    all: destruct (call (WorkItem.current_retry item) (WorkItem.timeout item))
           as [v | e |]; simpl.
    all: try (destruct v as [| s | z | run']; simpl).
    all: try (destruct (run' (WorkItem.timeout item)) as [v' | e' |]; simpl).
    all: try (destruct e; simpl).
    all: destruct (u <=? 0); simpl; eexists; eexists;
         (split; [reflexivity|]); (split; [reflexivity|]); reflexivity.
Qed.

(** X10. A worker of a running queue never returns by itself: however many
    rounds it is given, with work or idle, whatever the callables do, it is
    still in its loop and [_running] is still set. Only [stop()] ends it. *)
Theorem worker_runs_until_stopped (wq : AsyncWorkQueue) (fuel : nat) :
  _running wq = true ->
  exists wq', _worker fuel wq = (Ok None, wq') /\ _running wq' = true.
Proof.
  revert wq. induction fuel as [|fuel IH]; intros wq Hrun.
  - exists wq. split; [reflexivity | exact Hrun].
  - simpl. unfold bind, reads_. simpl. rewrite Hrun. simpl.
    destruct (worker_iteration_running wq) as (ctl & wq1 & Hit & Hr1 & Hctl).
    rewrite Hit, (Hctl Hrun). apply IH. congruence.
Qed.

(** An instance of X10: ten rounds on a running queue with one job. *)
Lemma worker_runs_until_stopped_witness :
  let a := WorkItem.mk "a" (PlainFunction "job" (fun _ _ => Completed (VInt 7)))
             0 3 0 300 0 in
  let wq := snd (enqueue_work a (AsyncWorkQueue__init__ 2 50)) in
  exists wq', _worker 10 wq = (Ok None, wq') /\ _running wq' = true.
Proof.
  intros a wq. exact (worker_runs_until_stopped wq 10 eq_refl).
Defined.




(** ** Handing in work and collecting results *)

(** The queue after a push holds the item and what it held before. *)
Lemma heappush_Permutation (x : WorkItem.t) (l : list WorkItem.t) :
  Permutation (heappush x l) (x :: l).
Proof.
  induction l as [|y l IH]; simpl; [reflexivity|].
  destruct (WorkItem.lt x y); [reflexivity|].
  rewrite IH. apply perm_swap.
Qed.

(** X12. [submit_work] has two outcomes only. On a queue at capacity the
    caller waits in [put] and the queue keeps its items; otherwise the item
    is queued with the items already there (nothing is said on its place
    among them) and its id is returned. The queue is running afterwards in
    both cases, and "Failed to submit work" is never raised. *)
Theorem submit_work_returns_id_or_waits (item : WorkItem.t) (wq : AsyncWorkQueue) :
  exists wq',
    submit_work item wq =
      (if full (_queue wq) then Suspended else Finished (Ok (WorkItem.id item)), wq') /\
    _running wq' = true /\
    Permutation (heap (_queue wq'))
      (if full (_queue wq) then heap (_queue wq) else item :: heap (_queue wq)) /\
    _results wq' = _results wq.
Proof.
  unfold submit_work, enqueue_work.
  assert (Hq : _queue (if negb (_running wq) then start wq else wq) = _queue wq).
  { unfold start. destruct (_running wq); reflexivity. }
  assert (Hr : _running (if negb (_running wq) then start wq else wq) = true).
  { unfold start. destruct (_running wq) eqn:E; simpl; [exact E | reflexivity]. }
  assert (Hres : _results (if negb (_running wq) then start wq else wq) = _results wq).
  { unfold start. destruct (_running wq); reflexivity. }
  unfold put, put_nowait. rewrite Hq.
  destruct (full (_queue wq)); simpl; eexists; (split; [reflexivity|]); simpl;
    (split; [assumption|]); (split; [|assumption]).
  - reflexivity.
  - apply heappush_Permutation.
Qed.

(** X13. What [get_results] selects. While a task is unfinished it waits,
    whatever ids are asked for. With none unfinished, [None] and the empty
    list both give every entry, and a list with at least one id gives
    exactly the entries stored under the listed ids, ids without an entry
    being left out. *)
Theorem get_results_selection (wq : AsyncWorkQueue) :
  (0 < unfinished_tasks (_queue wq) ->
   forall ids, get_results ids wq = (Suspended, wq)) /\
  (unfinished_tasks (_queue wq) = 0 ->
   fst (get_results None wq) = Finished (Ok (collect_entry <$> _results wq)) /\
   fst (get_results (Some []) wq) = Finished (Ok (collect_entry <$> _results wq)) /\
   forall ids, ids <> [] ->
     exists m,
       fst (get_results (Some ids) wq) = Finished (Ok m) /\
       forall k, m !! k = if decide (k ∈ ids) then collect_entry <$> _results wq !! k
                          else None).
Proof.
  split.
  - intros Hpos ids. unfold get_results, join.
    assert (Hb : (unfinished_tasks (_queue wq) >? 0) = true) by (apply Z.gtb_lt; lia).
    rewrite Hb. reflexivity.
  - intros Hzero. unfold get_results, join. rewrite Hzero. simpl.
    split; [reflexivity|]. split; [reflexivity|].
    intros [|id ids] Hne; [congruence|].
    eexists. split; [reflexivity|].
    intros k. rewrite map_lookup_filter, lookup_fmap.
    destruct (_results wq !! k) as [e|]; simpl.
    + destruct (decide (k ∈ id :: ids)) as [Hin | Hout].
      * rewrite option_guard_True by exact Hin. reflexivity.
      * rewrite option_guard_False by exact Hout. reflexivity.
    + destruct (decide (k ∈ id :: ids)); reflexivity.
Qed.

(** X14. From hand-in to result. On a new queue of any size with at least
    one worker, and for an item with a positive timeout, [enqueue_work]
    returns [True] and starts the workers; [get_results] then waits as long
    as the item is unfinished; one round of a worker handles the item; and
    [get_results] now returns a table with exactly one entry, the one of
    that item. *)
Theorem enqueue_process_collect (max_workers max_queue_size : Z) (item : WorkItem.t) :
  1 <= max_workers -> (0 < WorkItem.timeout item)%Q ->
  exists wq1 wq2 wq3,
    enqueue_work item (AsyncWorkQueue__init__ max_workers max_queue_size)
      = (Finished (Ok true), wq1) /\
    _running wq1 = true /\ _workers wq1 = range max_workers /\
    (forall ids, get_results ids wq1 = (Suspended, wq1)) /\
    _worker_iteration wq1 = (Ok Continue, wq2) /\
    get_results None wq2 =
      (Finished (Ok {[ WorkItem.id item := collect_entry (expected_entry item) ]}), wq3).
Proof.
  intros _ _.
  assert (Hfull : full {| maxsize := if max_queue_size >? 0 then max_queue_size else 0;
                          heap := []; unfinished_tasks := 0; putters := [] |} = false).
  { unfold full, qsize. simpl.
    destruct (max_queue_size >? 0) eqn:E; [|reflexivity].
    apply Z.gtb_lt in E.
    assert (H1 : (max_queue_size <=? 0) = false) by (apply Z.leb_gt; lia).
    rewrite H1. rewrite Z.geb_leb. apply Z.leb_gt. lia. }
  unfold enqueue_work, AsyncWorkQueue__init__, start, put, put_nowait. simpl.
  rewrite Hfull. simpl.
  eexists. eexists. eexists. split; [reflexivity|]. simpl.
  split; [reflexivity|]. split; [reflexivity|].
  split; [intros ids; reflexivity|].
  split.
  - apply worker_iteration_step with (rest := []); simpl; [reflexivity | lia].
  - unfold get_results, join. simpl.
    rewrite fmap_insert, fmap_empty, insert_empty. reflexivity.
Qed.

(** An instance of X14: the generator's defaults, three workers and room for
    fifty items, and a job that returns 7. *)
Lemma enqueue_process_collect_witness :
  let item := WorkItem.mk "a" (PlainFunction "job" (fun _ _ => Completed (VInt 7)))
                0 3 0 300 0 in
  exists wq1 wq2 wq3,
    enqueue_work item (AsyncWorkQueue__init__ 3 50) = (Finished (Ok true), wq1) /\
    _running wq1 = true /\ _workers wq1 = range 3 /\
    (forall ids, get_results ids wq1 = (Suspended, wq1)) /\
    _worker_iteration wq1 = (Ok Continue, wq2) /\
    get_results None wq2 =
      (Finished (Ok {[ WorkItem.id item := collect_entry (expected_entry item) ]}), wq3).
Proof.
  intros item. apply (enqueue_process_collect 3 50 item); [lia | reflexivity].
Defined.

(** ** The batch path *)



(** X16. The batch path tags by three cases. For an item whose [put] was
    counted, [_execute_work_item_safe] returns normally and sets the single
    entry of that item: "success" with whatever the callable returned (a
    returned coroutine is stored as it is, not awaited), "timeout" when the
    item's timeout ran out, "error" with [str(e)] for any other exception;
    the item is marked done. *)
Theorem batch_item_three_case_tagging (item : WorkItem.t) (wq : AsyncWorkQueue) :
  0 < unfinished_tasks (_queue wq) ->
  _execute_work_item_safe item wq =
    (Ok tt,
     {| _queue := {| maxsize := maxsize (_queue wq); heap := heap (_queue wq);
                     unfinished_tasks := unfinished_tasks (_queue wq) - 1;
                     putters := putters (_queue wq) |};
        _workers := _workers wq; _max_workers := _max_workers wq;
        _running := _running wq;
        _results := <[WorkItem.id item := batch_entry item]> (_results wq) |}) /\
  status (batch_entry item) =
    match call_outcome item with
    | Completed _ => "success"
    | Expired | Failed (TimeoutError _) => "timeout"
    | Failed _ => "error"
    end /\
  (forall v, call_outcome item = Completed v -> result (batch_entry item) = Some v).
Proof.
  intros Hu. split; [|split].
  - destruct wq as [[ms h u ps] ws mw run res]. simpl in *.
    assert (Hb : (u <=? 0) = false) by (apply Z.leb_gt; lia).
    unfold batch_entry, call_outcome, _execute_work_item_safe.
    run_worker.
    destruct (WorkItem.task_func item) as [nm r | r | nm call | nm call]; simpl.
    1, 2: rewrite Hb; reflexivity.
    all: destruct (call (WorkItem.current_retry item) (WorkItem.timeout item))
           as [v | e |]; simpl.
    all: try (destruct e; simpl).
    all: rewrite Hb; reflexivity.
  - unfold batch_entry. destruct (call_outcome item) as [v | e |]; try reflexivity.
    destruct e; reflexivity.
  - intros v Hv. unfold batch_entry. rewrite Hv. reflexivity.
Qed.

(** An instance of X16: a callable that hands back a coroutine. *)
Lemma batch_item_three_case_tagging_witness :
  let inner := VCoroutine (fun _ => Expired) in
  let item := WorkItem.mk "a" (PlainFunction "job" (fun _ _ => Completed inner))
                0 3 0 300 0 in
  let wq := snd (enqueue_work item (AsyncWorkQueue__init__ 2 50)) in
  _execute_work_item_safe item wq =
    (Ok tt,
     {| _queue := {| maxsize := 50; heap := [item]; unfinished_tasks := 1 - 1;
                     putters := [] |};
        _workers := range 2; _max_workers := 2; _running := true;
        _results := <["a" := success_entry inner]> ∅ |}) /\
  status (batch_entry item) = "success" /\
  (forall v, call_outcome item = Completed v -> result (batch_entry item) = Some v).
Proof.
  intros inner item wq.
  apply (batch_item_three_case_tagging item wq). simpl. lia.
Defined.

(** ** Repair and validation of JSX text *)

Lemma str_app_cons (a : Ascii.ascii) (s t : string) :
  String a s ++ t = String a (s ++ t).
Proof. reflexivity. Qed.

Lemma str_app_assoc (s t u : string) : (s ++ t) ++ u = s ++ t ++ u.
Proof.
  induction s as [|a s IH]; [reflexivity|].
  rewrite !str_app_cons, IH. reflexivity.
Qed.

Lemma str_app_empty_r (s : string) : s ++ EmptyString = s.
Proof.
  induction s as [|a s IH]; [reflexivity|]. rewrite str_app_cons, IH. reflexivity.
Qed.

Lemma str_count_app (c : Ascii.ascii) (s t : string) :
  str_count c (s ++ t) = (str_count c s + str_count c t)%nat.
Proof.
  induction s as [|a s IH]; [reflexivity|].
  rewrite str_app_cons. simpl. rewrite IH. lia.
Qed.

Lemma str_count_times (c d : Ascii.ascii) (n : nat) :
  str_count c (str_times d n) = if Ascii.eqb d c then n else 0%nat.
Proof.
  induction n as [|n IH]; simpl.
  - destruct (Ascii.eqb d c); reflexivity.
  - rewrite IH. destruct (Ascii.eqb d c); reflexivity.
Qed.

(** Appended characters that do not occur in [m] neither complete nor add
    an occurrence of [m]. *)
Lemma prefix_app_times (c : Ascii.ascii) (n : nat) (m : string) :
  str_count c m = 0%nat ->
  forall s, String.prefix m (s ++ str_times c n) = String.prefix m s.
Proof.
  induction m as [|a m IH]; intros Hc s.
  { destruct (s ++ str_times c n); destruct s; reflexivity. }
  simpl in Hc. destruct (Ascii.eqb a c) eqn:Hac; [discriminate|].
  apply Ascii.eqb_neq in Hac. simpl in Hc.
  destruct s as [|b s].
  - change (EmptyString ++ str_times c n) with (str_times c n).
    destruct n as [|n]; simpl; [reflexivity|].
    destruct (Ascii.ascii_dec a c); [contradiction | reflexivity].
  - rewrite str_app_cons. simpl.
    destruct (Ascii.ascii_dec a b); [apply IH; exact Hc | reflexivity].
Qed.

Lemma str_contains_app_times (c : Ascii.ascii) (n : nat) (m : string) :
  str_count c m = 0%nat ->
  forall s, str_contains m (s ++ str_times c n) = str_contains m s.
Proof.
  intros Hc s. induction s as [|b s IH].
  - change (EmptyString ++ str_times c n) with (str_times c n).
    destruct m as [|a m]; [destruct n; reflexivity|].
    simpl in Hc. destruct (Ascii.eqb a c) eqn:Hac; [discriminate|].
    apply Ascii.eqb_neq in Hac.
    induction n as [|n IHn]; [reflexivity|].
    simpl str_times. simpl str_contains at 1.
    destruct (Ascii.ascii_dec a c); [contradiction|]. simpl. exact IHn.
  - pose proof (prefix_app_times c n m Hc (String b s)) as Hp.
    rewrite str_app_cons in *.
    change (String.prefix m (String b (s ++ str_times c n))
            || str_contains m (s ++ str_times c n)
            = String.prefix m (String b s) || str_contains m s).
    rewrite IH, Hp. reflexivity.
Qed.

(** What the repair makes of a text, by its four counts. *)
Lemma fix_all_syntax_errors_eq (s : string) :
  _fix_all_syntax_errors s =
  s ++ str_times "}"%char (str_count "{"%char s - str_count "}"%char s)
    ++ str_times ")"%char (str_count "("%char s - str_count ")"%char s).
Proof.
  unfold _fix_all_syntax_errors.
  destruct (Nat.ltb_spec (str_count "}"%char s) (str_count "{"%char s)) as [Hb | Hb].
  - rewrite !str_count_app, !str_count_times. simpl Ascii.eqb. cbv iota.
    rewrite !Nat.add_0_r.
    destruct (Nat.ltb_spec (str_count ")"%char s) (str_count "("%char s)) as [Hp | Hp].
    + apply str_app_assoc.
    + replace (str_count "("%char s - str_count ")"%char s)%nat with 0%nat by lia.
      simpl str_times. rewrite str_app_empty_r. reflexivity.
  - replace (str_count "{"%char s - str_count "}"%char s)%nat with 0%nat by lia.
    destruct (Nat.ltb_spec (str_count ")"%char s) (str_count "("%char s)) as [Hp | Hp].
    + reflexivity.
    + replace (str_count "("%char s - str_count ")"%char s)%nat with 0%nat by lia.
      symmetry. apply str_app_empty_r.
Qed.

(** The four counts after the repair. *)
Lemma fix_appends_missing_closers_counts (s : string) :
  str_count "{"%char (_fix_all_syntax_errors s) = str_count "{"%char s /\
  str_count "("%char (_fix_all_syntax_errors s) = str_count "("%char s /\
  str_count "}"%char (_fix_all_syntax_errors s)
    = Nat.max (str_count "}"%char s) (str_count "{"%char s) /\
  str_count ")"%char (_fix_all_syntax_errors s)
    = Nat.max (str_count ")"%char s) (str_count "("%char s).
Proof.
  rewrite fix_all_syntax_errors_eq.
  rewrite !str_count_app, !str_count_times. simpl Ascii.eqb. cbv iota.
  repeat split; lia.
Qed.

(** X17. What the repair does. [_fix_all_syntax_errors] only appends: the
    text comes back followed by one [}] per missing closing brace and then
    one [)] per missing closing parenthesis (in that order, wherever the
    openers were). Openers are never touched, so closers in excess stay in
    excess; afterwards no closer is missing, and a second run changes
    nothing. *)
Theorem fix_appends_missing_closers (s : string) :
  let s' := _fix_all_syntax_errors s in
  s' = s ++ str_times "}"%char (str_count "{"%char s - str_count "}"%char s)
         ++ str_times ")"%char (str_count "("%char s - str_count ")"%char s) /\
  str_count "{"%char s' = str_count "{"%char s /\
  str_count "("%char s' = str_count "("%char s /\
  str_count "}"%char s' = Nat.max (str_count "}"%char s) (str_count "{"%char s) /\
  str_count ")"%char s' = Nat.max (str_count ")"%char s) (str_count "("%char s) /\
  _fix_all_syntax_errors s' = s'.
Proof.
  intros s'. subst s'.
  destruct (fix_appends_missing_closers_counts s) as (H1 & H2 & H3 & H4).
  split; [apply fix_all_syntax_errors_eq|].
  repeat split; try assumption.
  rewrite (fix_all_syntax_errors_eq (_fix_all_syntax_errors s)).
  rewrite H1, H2, H3, H4.
  replace (str_count "{"%char s - Nat.max (str_count "}"%char s) (str_count "{"%char s))%nat
    with 0%nat by lia.
  replace (str_count "("%char s - Nat.max (str_count ")"%char s) (str_count "("%char s))%nat
    with 0%nat by lia.
  apply str_app_empty_r.
Qed.

(** X18. Repair, then validation. [_validate_jsx_syntax] accepts a repaired
    text exactly when the original has the three markers ("import React",
    "export const", "return (") and no closing brace or parenthesis in
    excess: missing closers are made up for, closers in excess are not. *)
Theorem repaired_text_validates_iff (s : string) :
  _validate_jsx_syntax (_fix_all_syntax_errors s) =
  str_contains "import React" s && str_contains "export const" s &&
  str_contains "return (" s &&
  (str_count ")"%char s <=? str_count "("%char s)%nat &&
  (str_count "}"%char s <=? str_count "{"%char s)%nat.
Proof.
  unfold _validate_jsx_syntax.
  destruct (fix_appends_missing_closers_counts s) as (H1 & H2 & H3 & H4).
  rewrite H1, H2, H3, H4.
  rewrite fix_all_syntax_errors_eq, <- !str_app_assoc.
  rewrite !str_contains_app_times by reflexivity.
  f_equal; [f_equal|].
  - destruct (Nat.leb_spec (str_count ")"%char s) (str_count "("%char s));
      [apply Nat.eqb_eq | apply Nat.eqb_neq]; lia.
  - destruct (Nat.leb_spec (str_count "}"%char s) (str_count "{"%char s));
      [apply Nat.eqb_eq | apply Nat.eqb_neq]; lia.
Qed.

(** ** The entry points *)

(** X19. The analyzer's batch mode never reaches the retry loop. Its call
    of [execute_with_resilience] names a [timeout] parameter the method does
    not have, so the call raises [TypeError] inside the [try] and the
    handler hands over to the sync mode: for every agent state and
    every callable, [_analyze_content_for_jsx_batch_mode] is the sync mode,
    run on the state as it was. Hence [analyze_content_for_jsx] always
    answers with what the sync mode gives. *)
Theorem analyzer_batch_mode_is_sync_mode `{AgentClass} (env : Env)
        (sync_mode : M World Value) (f : Callable) (is_usable : Value -> bool) :
  (forall task_id w,
     _analyze_content_for_jsx_batch_mode env sync_mode f is_usable task_id w
     = returning sync_mode w) /\
  (forall k task_id w,
     exists w1,
       analyze_content_for_jsx env sync_mode f is_usable k task_id w
       = returning sync_mode w1).
Proof.
  assert (Hbatch : forall task_id w,
            _analyze_content_for_jsx_batch_mode env sync_mode f is_usable task_id w
            = returning sync_mode w) by reflexivity.
  split; [exact Hbatch|].
  intros k task_id w. unfold analyze_content_for_jsx. unfold bind at 1.
  destruct (_should_use_sync env k w) as [[[|] | e |] w0] eqn:Hsync.
  - exists w0. reflexivity.
  - rewrite Hbatch.
    destruct (returning sync_mode w0) as [[v | e |] w'] eqn:Hrun.
    + exists w0. symmetry. exact Hrun.
    + destruct e; try (exists w0; symmetry; exact Hrun); eexists; reflexivity.
    + exists w0. symmetry. exact Hrun.
  - exfalso. unfold _should_use_sync, bind, reads_, update_self, modify, ret in Hsync.
    simpl in Hsync. destruct (_ >=? _); discriminate Hsync.
  - exfalso. unfold _should_use_sync, bind, reads_, update_self, modify, ret in Hsync.
    simpl in Hsync. destruct (_ >=? _); discriminate Hsync.
Qed.

(** The generator's dispatch, once the attempt is counted and
    [_should_use_sync] asked: the flag alone decides. *)
Lemma generate_dispatch `{AgentClass} (env : Env) (batch_mode sync_mode : M World Value)
      (k : Z) (task_id : string) (w : World) :
  generate_jsx_components_async env batch_mode sync_mode k task_id w =
  if fallback_to_sync (self (at_dispatch env k w)) then sync_mode (at_dispatch env k w)
  else
    match batch_mode (at_dispatch env k w) with
    | (Raise (RecursionError _), w') => sync_mode (in_sync_mode w')
    | (Raise (CircuitBreakerOpenError _), w') => sync_mode (in_sync_mode w')
    | (Raise _, w') =>
        (Raise (unexpected_keyword_error "JSXCreatorAgent._get_fallback_result"
                  "template_data"), w')
    | r => r
    end.
Proof.
  unfold generate_jsx_components_async, at_dispatch, _should_use_sync, bind, reads_,
    update_self, modify, ret. simpl.
  destruct (_ >=? _); simpl; [reflexivity|].
  destruct (fallback_to_sync (self w)); simpl; [reflexivity|].
  match goal with |- context [batch_mode ?x] => destruct (batch_mode x) as [[v | e |] w'] end;
    reflexivity.
Qed.

(** X20. The generator answers a failed batch mode with [TypeError]. When
    the batch mode raises anything but [RecursionError] or
    [CircuitBreakerOpenError] (a timeout that outlasted the retries, say),
    the last handler of [generate_jsx_components_async] calls
    [_get_fallback_result] with a [template_data] keyword the method does
    not take: the caller gets [TypeError] in place of the fallback
    components, and [fallback_used] is not counted. *)
Theorem generator_failure_becomes_type_error `{AgentClass} (env : Env)
        (batch_mode sync_mode : M World Value) (k : Z) (task_id : string)
        (w w' : World) (e : exn) :
  fallback_to_sync (self (at_dispatch env k w)) = false ->
  batch_mode (at_dispatch env k w) = (Raise e, w') ->
  is_RecursionError e = false -> is_CircuitBreakerOpenError e = false ->
  generate_jsx_components_async env batch_mode sync_mode k task_id w =
    (Raise (TypeError ("JSXCreatorAgent._get_fallback_result() got an unexpected "
                       ++ "keyword argument 'template_data'")), w') /\
  total_attempts (execution_stats (self (at_dispatch env k w)))
    = total_attempts (execution_stats (self w)) + 1.
Proof.
  intros Hflag Hbatch Hrec Hcb. split.
  - rewrite generate_dispatch, Hflag, Hbatch.
    destruct e; try discriminate; reflexivity.
  - unfold at_dispatch, _should_use_sync, bind, reads_, update_self, modify, ret. simpl.
    destruct (_ >=? _); reflexivity.
Qed.

(** An instance of X20: a fresh agent whose batch mode ends in a timeout. *)
Lemma generator_failure_becomes_type_error_witness :
  let env := {| stack_depth := fun _ => 30; getrecursionlimit := 1000 |} in
  let w := {| self := BaseAsyncAgent__init__;
              given_breaker := CircuitBreaker__init__ 12 90 2;
              wclock := {| readings := fun n => inject_Z (Z.of_nat n + 1); reads := 0 |};
              trace := [] |} in
  generate_jsx_components_async env (raise (TimeoutError "")) (ret VNone) 0 "t" w =
    (Raise (TypeError ("JSXCreatorAgent._get_fallback_result() got an unexpected "
                       ++ "keyword argument 'template_data'")), at_dispatch env 0 w) /\
  total_attempts (execution_stats (self (at_dispatch env 0 w))) = 0 + 1.
Proof.
  intros env w.
  exact (generator_failure_becomes_type_error env (raise (TimeoutError "")) (ret VNone)
           0 "t" w (at_dispatch env 0 w) (TimeoutError "")
           eq_refl eq_refl eq_refl eq_refl).
Defined.

(** X21. The generator leaves batch mode for good. When the batch mode ends
    with [RecursionError] or [CircuitBreakerOpenError] (an Open breaker
    rejected every attempt), [generate_jsx_components_async] sets
    [fallback_to_sync] and answers with the sync mode; as the sync mode does
    not clear the flag, every later call goes to the sync mode whatever the
    stack depth, and the batch mode is not run again. *)
Theorem generator_leaves_batch_mode_for_good `{AgentClass} (env : Env)
        (batch_mode sync_mode : M World Value) (k : Z) (task_id : string)
        (w w' : World) (e : exn) :
  (forall w0, fallback_to_sync (self w0) = true ->
              fallback_to_sync (self (snd (sync_mode w0))) = true) ->
  fallback_to_sync (self (at_dispatch env k w)) = false ->
  batch_mode (at_dispatch env k w) = (Raise e, w') ->
  is_RecursionError e = true \/ is_CircuitBreakerOpenError e = true ->
  generate_jsx_components_async env batch_mode sync_mode k task_id w
    = sync_mode (in_sync_mode w') /\
  fallback_to_sync (self (snd (sync_mode (in_sync_mode w')))) = true /\
  forall (env' : Env) (other_batch_mode : M World Value) (k' : Z) (task_id' : string),
    generate_jsx_components_async env' other_batch_mode sync_mode k' task_id'
      (snd (sync_mode (in_sync_mode w')))
    = sync_mode (at_dispatch env' k' (snd (sync_mode (in_sync_mode w')))).
Proof.
  intros Hkeep Hflag Hbatch Hwhy.
  assert (Hafter : fallback_to_sync (self (snd (sync_mode (in_sync_mode w')))) = true)
    by (apply Hkeep; reflexivity).
  split; [|split; [exact Hafter|]].
  - rewrite generate_dispatch, Hflag, Hbatch.
    destruct Hwhy as [Hr | Hr]; destruct e; try discriminate; reflexivity.
  - intros env' other k' task_id'. rewrite generate_dispatch.
    assert (Hd : fallback_to_sync
                   (self (at_dispatch env' k' (snd (sync_mode (in_sync_mode w'))))) = true).
    { unfold at_dispatch, _should_use_sync, bind, reads_, update_self, modify, ret. simpl.
      destruct (_ >=? _); simpl; [reflexivity | exact Hafter]. }
    rewrite Hd. reflexivity.
Qed.

(** An instance of X21: the batch mode meets an Open breaker. *)
Lemma generator_leaves_batch_mode_for_good_witness :
  let env := {| stack_depth := fun _ => 30; getrecursionlimit := 1000 |} in
  let w := {| self := BaseAsyncAgent__init__;
              given_breaker := CircuitBreaker__init__ 12 90 2;
              wclock := {| readings := fun n => inject_Z (Z.of_nat n + 1); reads := 0 |};
              trace := [] |} in
  let batch_mode : M World Value := raise (CircuitBreakerOpenError "open") in
  let sync_mode : M World Value := ret VNone in
  generate_jsx_components_async env batch_mode sync_mode 0 "t" w
    = sync_mode (in_sync_mode (at_dispatch env 0 w)) /\
  fallback_to_sync (self (snd (sync_mode (in_sync_mode (at_dispatch env 0 w))))) = true /\
  forall (env' : Env) (other_batch_mode : M World Value) (k' : Z) (task_id' : string),
    generate_jsx_components_async env' other_batch_mode sync_mode k' task_id'
      (snd (sync_mode (in_sync_mode (at_dispatch env 0 w))))
    = sync_mode (at_dispatch env' k' (snd (sync_mode (in_sync_mode (at_dispatch env 0 w))))).
Proof.
  intros env w batch_mode sync_mode.
  apply (generator_leaves_batch_mode_for_good env batch_mode sync_mode 0 "t" w
           (at_dispatch env 0 w) (CircuitBreakerOpenError "open")).
  - intros w0 Hw0. exact Hw0.
  - reflexivity.
  - reflexivity.
  - right. reflexivity.
Defined.

(** * Session isolation *)

Import SessionIsolation.

Lemma dict_get_Forall {A} (P : string * A -> Prop) (k : string) (d : list (string * A))
      (v : A) :
  Forall P d -> dict_get k d = Some v -> exists k', P (k', v).
Proof.
  intros Hall Hget. unfold dict_get in Hget.
  destruct (find (fun p => String.eqb (fst p) k) d) as [[k' v']|] eqn:Hfind; [|discriminate].
  injection Hget as <-. apply find_some in Hfind. destruct Hfind as [Hin _].
  exists k'. rewrite Forall_forall in Hall. apply Hall. apply list_elem_of_In. exact Hin.
Qed.

Lemma dict_set_Forall {A} (P : string * A -> Prop) (k : string) (v : A)
      (d : list (string * A)) :
  P (k, v) -> Forall P d -> Forall P (dict_set k v d).
Proof.
  intros Hv Hall. induction Hall as [|[k' v'] d Hp Hall IH]; simpl.
  - constructor; [exact Hv | constructor].
  - destruct (String.eqb k' k); constructor; assumption.
Qed.

Lemma dict_del_Forall {A} (P : string * A -> Prop) (k : string) (d : list (string * A)) :
  Forall P d -> Forall P (dict_del k d).
Proof.
  intros Hall. unfold dict_del. induction Hall as [|p d Hp Hall IH]; simpl.
  - constructor.
  - destruct (negb (String.eqb (fst p) k)); [constructor|]; assumption.
Qed.

(** The filter of the "moderate" level reads the clock and nothing else. *)
Lemma recent_results_frame (l : list StoredResult) :
  forall (m : SessionManager) (c : Clock),
    exists kept c',
      readings c' = readings c /\
      forall m', recent_results l {| manager := m'; time := c |}
                 = (Ok kept, {| manager := m'; time := c' |}).
Proof.
  induction l as [|r l IH]; intros m c.
  - exists [], c. split; reflexivity.
  - destruct (IH m (tick c)) as (kept & c' & Hrd & Hrun).
    eexists. exists c'. split; [exact Hrd|].
    intros m'. simpl. unfold bind, time_time. simpl. rewrite Hrun. reflexivity.
Qed.

Section ManagerFacts.
Context (is_contaminated : Value -> string -> bool).

(** [get_agent_results] looks at the session's config, lock and data, and
    at the clock. *)
Lemma get_agent_results_frame (id agent_name : string) (m1 m2 : SessionManager)
      (c : Clock) :
  dict_get id (sessions m1) = dict_get id (sessions m2) ->
  bool_decide (id ∈ session_locks m1) = bool_decide (id ∈ session_locks m2) ->
  (agent_results <$> session_data m1 !! id) ≫= (.!! agent_name) =
  (agent_results <$> session_data m2 !! id) ≫= (.!! agent_name) ->
  (is_Some (session_data m1 !! id) <-> is_Some (session_data m2 !! id)) ->
  exists r c',
    get_agent_results id agent_name {| manager := m1; time := c |}
      = (r, {| manager := m1; time := c' |}) /\
    get_agent_results id agent_name {| manager := m2; time := c |}
      = (r, {| manager := m2; time := c' |}).
Proof.
  intros Hcfg Hlock Hres Hsome.
  unfold get_agent_results, bind, reads_. cbn [manager]. rewrite <- Hcfg.
  destruct (dict_get id (sessions m1)) as [config|]; [|eexists; eexists; split; reflexivity].
  cbn [manager]. rewrite <- Hlock.
  destruct (bool_decide (id ∈ session_locks m1)); cbn [negb manager];
    [|eexists; eexists; split; reflexivity].
  destruct (session_data m1 !! id) as [d1|] eqn:H1;
    destruct (session_data m2 !! id) as [d2|] eqn:H2; cbn in Hres.
  - assert (Hl : default [] (agent_results d1 !! agent_name)
                 = default [] (agent_results d2 !! agent_name)) by (rewrite Hres; reflexivity).
    rewrite <- Hl.
    destruct (String.eqb (isolation_level config) "strict");
      [eexists; eexists; split; reflexivity|].
    destruct (String.eqb (isolation_level config) "moderate");
      [|eexists; eexists; split; reflexivity].
    destruct (recent_results_frame (default [] (agent_results d1 !! agent_name)) m1 c)
      as (kept & c' & _ & Hrun).
    rewrite !Hrun. eexists. eexists. split; reflexivity.
  - exfalso. assert (Hf : is_Some (@None SessionData)) by (apply Hsome; eauto).
    destruct Hf as [x Hx]. discriminate Hx.
  - exfalso. assert (Hf : is_Some (@None SessionData)) by (apply Hsome; eauto).
    destruct Hf as [x Hx]. discriminate Hx.
  - eexists. eexists. split; reflexivity.
Qed.

End ManagerFacts.

Section SessionTheorems.
Context (is_contaminated : Value -> string -> bool).

Lemma cross_session_off (current agent_name : string) (max_sessions : Z)
      (w : SessionWorld) :
  learning_off (manager w) ->
  get_cross_session_data is_contaminated current agent_name max_sessions w = (Ok [], w).
Proof.
  intros Hoff. unfold get_cross_session_data, bind, reads_.
  destruct (dict_get current (sessions (manager w))) as [config|] eqn:Hget; [|reflexivity].
  destruct (dict_get_Forall _ current _ config Hoff Hget) as (k' & Hp).
  simpl in Hp. rewrite Hp. reflexivity.
Qed.

Lemma create_session_sessions (level uuid8 : string) (fs : FsOutcome) (w : SessionWorld) :
  exists config,
    enable_cross_session_learning config = false /\
    isolation_level config = level /\
    sessions (manager (snd (create_session level uuid8 fs w))) =
    dict_set ("session_" ++ pretty (int_of_float (now (time w))) ++ "_" ++ uuid8) config
      (sessions (manager w)).
Proof.
  eexists. split; [|split]; [| |
    unfold create_session, _create_session_directory, bind, time_time, modify, reads_,
      ret, raise; cbn [manager time snd fst];
    destruct fs; cbn [manager time snd fst sessions];
    try match goal with |- context [dict_get ?k ?d] => destruct (dict_get k d) end;
    reflexivity ]; reflexivity.
Qed.

Lemma store_agent_result_sessions (id agent_name : string) (result : Value)
      (w : SessionWorld) :
  sessions (manager (snd (store_agent_result is_contaminated id agent_name result w)))
  = sessions (manager w) /\
  session_locks (manager (snd (store_agent_result is_contaminated id agent_name result w)))
  = session_locks (manager w).
Proof.
  unfold store_agent_result, bind, reads_, modify, ret, raise, time_time, set_session_data.
  destruct (dict_get id (sessions (manager w))); [|split; reflexivity].
  destruct (bool_decide (id ∈ session_locks (manager w))); cbn [negb];
    [|split; reflexivity].
  destruct (session_data (manager w) !! id); [|split; reflexivity].
  destruct (is_contaminated result (agent_name ++ "_result")); split; reflexivity.
Qed.

Lemma get_agent_results_manager (id agent_name : string) (w : SessionWorld) :
  manager (snd (get_agent_results id agent_name w)) = manager w.
Proof.
  destruct w as [m c].
  destruct (get_agent_results_frame id agent_name m m c) as (r & c' & Hrun & _);
    try reflexivity.
  rewrite Hrun. reflexivity.
Qed.

Lemma cleanup_session_learning_off (id : string) (rm : option exn) (w : SessionWorld) :
  learning_off (manager w) -> learning_off (manager (snd (_cleanup_session id rm w))).
Proof.
  intros Hoff. unfold _cleanup_session, bind, modify, ret, raise, learning_off.
  destruct rm; simpl; apply dict_del_Forall; exact Hoff.
Qed.

Lemma cleanup_sessions_learning_off (ids : list string) (rm : string -> option exn) :
  forall w, learning_off (manager w) ->
            learning_off (manager (snd (cleanup_sessions ids rm w))).
Proof.
  induction ids as [|id ids IH]; intros w Hoff; [exact Hoff|].
  simpl. unfold bind.
  pose proof (cleanup_session_learning_off id (rm id) w Hoff) as H1.
  destruct (_cleanup_session id (rm id) w) as [[[]| e |] w1]; simpl in H1.
  - apply IH. exact H1.
  - exact H1.
  - exact H1.
Qed.

Lemma run_call_learning_off (call : Call) (w : SessionWorld) :
  learning_off (manager w) -> learning_off (manager (run_call is_contaminated call w)).
Proof.
  intros Hoff.
  destruct call as [level uuid8 fs | id a r | id a | cur a mx | id rm | rm]; simpl.
  - destruct (create_session_sessions level uuid8 fs w) as (config & Hc & _ & Hs).
    unfold learning_off. rewrite Hs. apply dict_set_Forall; [exact Hc | exact Hoff].
  - unfold learning_off.
    rewrite (proj1 (store_agent_result_sessions id a r w)). exact Hoff.
  - rewrite get_agent_results_manager. exact Hoff.
  - rewrite cross_session_off by exact Hoff. exact Hoff.
  - apply cleanup_session_learning_off. exact Hoff.
  - unfold cleanup_expired_sessions, bind, time_time. cbn [manager time].
    destruct (expired_sessions_of (sessions (manager w)) (session_data (manager w))
                (now (time w))) as [expired | e |]; cbn [snd manager]; try exact Hoff.
    apply cleanup_sessions_learning_off. exact Hoff.
Qed.

Lemma run_calls_learning_off (calls : list Call) :
  forall w, learning_off (manager w) ->
            learning_off (manager (run_calls is_contaminated calls w)).
Proof.
  induction calls as [|call calls IH]; intros w Hoff; [exact Hoff|].
  simpl. apply IH. apply run_call_learning_off. exact Hoff.
Qed.

End SessionTheorems.

(** X22. Cross-session data is never handed out. Every session
    [create_session] makes has cross-session learning switched off and no
    method of the manager switches it on, so after any sequence of calls on
    a new manager ([create_session], [store_agent_result],
    [get_agent_results], [get_cross_session_data], [_cleanup_session],
    [cleanup_expired_sessions], with any arguments, contamination verdicts
    and file-system failures)
    [get_cross_session_data] returns the empty list and changes nothing,
    whatever other sessions hold. *)
Theorem cross_session_data_is_always_empty (is_contaminated : Value -> string -> bool)
        (calls : list Call) (c : Clock) (current agent_name : string) (max_sessions : Z) :
  let w := run_calls is_contaminated calls
             {| manager := SessionManager__init__; time := c |} in
  learning_off (manager w) /\
  get_cross_session_data is_contaminated current agent_name max_sessions w = (Ok [], w).
Proof.
  intros w.
  assert (Hoff : learning_off (manager w)).
  { apply run_calls_learning_off. constructor. }
  split; [exact Hoff | apply cross_session_off; exact Hoff].
Qed.

(** What [store_agent_result] does to the stored data: to the session it is
    given and, there, to the agent it is given, and to nothing else. *)
Lemma store_agent_result_data (is_contaminated : Value -> string -> bool)
      (id agent_name : string) (result : Value) (w : SessionWorld)
      (id' agent_name' : string) :
  id <> id' \/ agent_name <> agent_name' ->
  (is_Some (session_data
              (manager (snd (store_agent_result is_contaminated id agent_name result w)))
              !! id')
   <-> is_Some (session_data (manager w) !! id')) /\
  (agent_results <$>
     session_data (manager (snd (store_agent_result is_contaminated id agent_name result w)))
       !! id') ≫= (.!! agent_name')
  = (agent_results <$> session_data (manager w) !! id') ≫= (.!! agent_name').
Proof.
  intros Hne.
  unfold store_agent_result, bind, reads_, modify, ret, raise, time_time, set_session_data.
  destruct (dict_get id (sessions (manager w))); [|split; reflexivity].
  destruct (bool_decide (id ∈ session_locks (manager w))); cbn [negb];
    [|split; reflexivity].
  destruct (session_data (manager w) !! id) as [d|] eqn:Hd; [|split; reflexivity].
  destruct (is_contaminated result (agent_name ++ "_result")); cbn [snd manager session_data].
  - destruct (decide (id = id')) as [<- | Hid].
    + rewrite lookup_insert_eq, Hd. split; [split; eauto | reflexivity].
    + rewrite lookup_insert_ne by exact Hid. split; reflexivity.
  - destruct (decide (id = id')) as [<- | Hid].
    + rewrite lookup_insert_eq, Hd. split; [split; eauto|].
      cbn. destruct Hne as [Hne | Hne]; [congruence|].
      rewrite lookup_insert_ne by exact Hne. reflexivity.
    + rewrite lookup_insert_ne by exact Hid. split; reflexivity.
Qed.

(** X23. Results stay where they were stored. Whatever [store_agent_result]
    does for one session and agent (store, refuse as contaminated, or
    raise), what [get_agent_results] returns for any other session, and for
    any other agent of the same session, is what it returned before, at the
    same readings of the clock. *)
Theorem stored_result_stays_with_its_owner (is_contaminated : Value -> string -> bool)
        (id agent_name : string) (result : Value) (w : SessionWorld)
        (id' agent_name' : string) (c : Clock) :
  id <> id' \/ agent_name <> agent_name' ->
  fst (get_agent_results id' agent_name'
         {| manager := manager (snd (store_agent_result is_contaminated id agent_name
                                       result w));
            time := c |})
  = fst (get_agent_results id' agent_name' {| manager := manager w; time := c |}).
Proof.
  intros Hne.
  destruct (store_agent_result_sessions is_contaminated id agent_name result w)
    as [Hs Hl].
  destruct (store_agent_result_data is_contaminated id agent_name result w
              id' agent_name' Hne) as [Hsome Hres].
  destruct (get_agent_results_frame id' agent_name'
              (manager (snd (store_agent_result is_contaminated id agent_name result w)))
              (manager w) c) as (r & c' & Hrun1 & Hrun2).
  - rewrite Hs. reflexivity.
  - rewrite Hl. reflexivity.
  - exact Hres.
  - exact Hsome.
  - rewrite Hrun1, Hrun2. reflexivity.
Qed.

(** An instance of X23: two sessions, a result stored in the second. *)
Lemma stored_result_stays_with_its_owner_witness :
  let ic : Value -> string -> bool := fun _ _ => false in
  let c := {| readings := fun n => inject_Z (Z.of_nat n + 100); reads := 0 |} in
  let w0 := {| manager := SessionManager__init__; time := c |} in
  let w := run_calls ic [CreateSession "strict" "0000000a" FsOk;
                         StoreAgentResult "session_100_0000000a" "OrgAgent" (VInt 1);
                         CreateSession "strict" "0000000b" FsOk] w0 in
  fst (get_agent_results "session_100_0000000a" "OrgAgent"
         {| manager := manager (snd (store_agent_result ic "session_104_0000000b" "OrgAgent"
                                       (VInt 2) w));
            time := c |})
  = fst (get_agent_results "session_100_0000000a" "OrgAgent"
           {| manager := manager w; time := c |}).
Proof.
  intros ic c w0 w.
  apply (stored_result_stays_with_its_owner ic "session_104_0000000b" "OrgAgent" (VInt 2) w
           "session_100_0000000a" "OrgAgent" c).
  left. discriminate.
Defined.

Lemma dict_get_set_eq {A} (k : string) (v : A) (d : list (string * A)) :
  dict_get k (dict_set k v d) = Some v.
Proof.
  unfold dict_get. induction d as [|[k' v'] d IH]; simpl.
  - rewrite String.eqb_refl. reflexivity.
  - destruct (String.eqb k' k) eqn:E; simpl.
    + rewrite String.eqb_refl. reflexivity.
    + rewrite E. exact IH.
Qed.

(** [get_agent_results] on a session that has its lock and its data, of a
    level that does not look at the clock. *)
Lemma get_agent_results_eq (id agent_name : string) (m : SessionManager) (c : Clock)
      (config : SessionConfig) (d : SessionData) :
  dict_get id (sessions m) = Some config -> id ∈ session_locks m ->
  session_data m !! id = Some d -> isolation_level config <> "moderate" ->
  get_agent_results id agent_name {| manager := m; time := c |} =
  (Ok (map stored_result (default [] (agent_results d !! agent_name))),
   {| manager := m; time := c |}).
Proof.
  intros Hcfg Hin Hdata Hlevel. apply String.eqb_neq in Hlevel.
  assert (Hlock : bool_decide (id ∈ session_locks m) = true)
    by (apply bool_decide_eq_true_2; exact Hin).
  unfold get_agent_results, bind, reads_. cbn [manager]. rewrite Hcfg.
  cbn [manager]. rewrite Hlock. cbn [negb manager]. rewrite Hdata, Hlevel.
  destruct (String.eqb (isolation_level config) "strict"); reflexivity.
Qed.

(** [store_agent_result] on such a session. *)
Lemma store_agent_result_eq (is_contaminated : Value -> string -> bool)
      (id agent_name : string) (result : Value) (m : SessionManager) (c : Clock)
      (config : SessionConfig) (d : SessionData) :
  dict_get id (sessions m) = Some config -> id ∈ session_locks m ->
  session_data m !! id = Some d ->
  store_agent_result is_contaminated id agent_name result {| manager := m; time := c |} =
  (Ok (negb (is_contaminated result (agent_name ++ "_result"))),
   {| manager :=
        {| sessions := sessions m;
           session_data :=
             <[id :=
                 if is_contaminated result (agent_name ++ "_result") then
                   {| created_at := created_at d; agent_results := agent_results d;
                      contamination_log :=
                        (contamination_log d ++
                         [{| agent := agent_name; detected_at := now c;
                             contamination_type := "agent_result" |}])%list |}
                 else
                   {| created_at := created_at d;
                      agent_results :=
                        <[agent_name :=
                            (default [] (agent_results d !! agent_name) ++
                             [{| timestamp := now c; stored_result := result;
                                 isolation_verified := true |}])%list]>
                          (agent_results d);
                      contamination_log := contamination_log d |}]>
               (session_data m);
           session_locks := session_locks m |};
      time := tick c |}).
Proof.
  intros Hcfg Hin Hdata.
  assert (Hlock : bool_decide (id ∈ session_locks m) = true)
    by (apply bool_decide_eq_true_2; exact Hin).
  unfold store_agent_result, bind, reads_. cbn [manager]. rewrite Hcfg.
  cbn [manager]. rewrite Hlock. cbn [negb manager]. rewrite Hdata.
  destruct (is_contaminated result (agent_name ++ "_result")); reflexivity.
Qed.

(** What [create_session] leaves when it returns. *)
Lemma create_session_returns (level uuid8 : string) (fs : FsOutcome)
      (w w1 : SessionWorld) (id : string) :
  create_session level uuid8 fs w = (Ok id, w1) ->
  exists config data c1,
    isolation_level config = level /\ agent_results data = ∅ /\
    w1 = {| manager := {| sessions := dict_set id config (sessions (manager w));
                          session_data := <[id := data]> (session_data (manager w));
                          session_locks := {[ id ]} ∪ session_locks (manager w) |};
            time := c1 |}.
Proof.
  intros Hcreate.
  unfold create_session, _create_session_directory, bind, time_time, modify, reads_,
    ret, raise in Hcreate.
  cbn [manager time snd fst sessions] in Hcreate.
  destruct fs as [| e | e]; cbn [manager time snd fst sessions] in Hcreate;
    try discriminate Hcreate.
  - rewrite dict_get_set_eq in Hcreate. injection Hcreate as <- <-.
    eexists. eexists. eexists. split; [|split]; [| |reflexivity]; reflexivity.
  - rewrite dict_get_set_eq in Hcreate. discriminate Hcreate.
Qed.

(** X24. A session's own results come back. In a session [create_session]
    has just returned, of any isolation level but "moderate" (which also
    looks at the age of a result), nothing is stored yet, even when the new
    id is one that was in use; [store_agent_result] returns [True] and
    [get_agent_results] then returns exactly that result, unless the result
    is judged contaminated: then it returns [False] and the result is never
    handed out. *)
Theorem session_round_trip (is_contaminated : Value -> string -> bool)
        (level uuid8 : string) (fs : FsOutcome) (w w1 : SessionWorld) (id : string)
        (agent_name : string) (result : Value) :
  create_session level uuid8 fs w = (Ok id, w1) ->
  level <> "moderate" ->
  get_agent_results id agent_name w1 = (Ok [], w1) /\
  exists w2,
    store_agent_result is_contaminated id agent_name result w1
      = (Ok (negb (is_contaminated result (agent_name ++ "_result"))), w2) /\
    get_agent_results id agent_name w2
      = (Ok (if is_contaminated result (agent_name ++ "_result") then [] else [result]),
         w2).
Proof.
  intros Hcreate Hlevel.
  destruct (create_session_returns level uuid8 fs w w1 id Hcreate)
    as (config & data & c1 & Hcfg & Hres & ->).
  assert (Hin : id ∈ ({[ id ]} ∪ session_locks (manager w) : gset string)) by set_solver.
  split.
  - rewrite (get_agent_results_eq id agent_name _ c1 config data);
      [ | apply dict_get_set_eq | exact Hin | apply lookup_insert_eq | congruence ].
    rewrite Hres, lookup_empty. reflexivity.
  - rewrite (store_agent_result_eq is_contaminated id agent_name result _ c1 config data);
      [ | apply dict_get_set_eq | exact Hin | apply lookup_insert_eq ].
    eexists. split; [reflexivity|].
    cbn [sessions session_locks session_data].
    erewrite get_agent_results_eq;
      [ | apply dict_get_set_eq | exact Hin | apply lookup_insert_eq | congruence ].
    destruct (is_contaminated result (agent_name ++ "_result")); cbn [agent_results].
    + rewrite Hres, lookup_empty. reflexivity.
    + rewrite lookup_insert_eq, Hres, lookup_empty. reflexivity.
Qed.

(** An instance of X24: a strict session on a new manager. *)
Lemma session_round_trip_witness :
  let ic : Value -> string -> bool := fun _ _ => false in
  let c := {| readings := fun n => inject_Z (Z.of_nat n + 100); reads := 0 |} in
  let w := {| manager := SessionManager__init__; time := c |} in
  let w1 := snd (create_session "strict" "0000000a" FsOk w) in
  get_agent_results "session_100_0000000a" "OrgAgent" w1 = (Ok [], w1) /\
  exists w2,
    store_agent_result ic "session_100_0000000a" "OrgAgent" (VInt 1) w1 = (Ok true, w2) /\
    get_agent_results "session_100_0000000a" "OrgAgent" w2 = (Ok [VInt 1], w2).
Proof.
  intros ic c w w1.
  apply (session_round_trip ic "strict" "0000000a" FsOk w w1 "session_100_0000000a"
           "OrgAgent" (VInt 1)).
  - reflexivity.
  - discriminate.
Defined.

(** X25. The window of [get_previous_results]. With [max_results = 0] it
    returns every result of the agent in its session, not none; with a
    positive [max_results] the last [max_results] of them (all when there
    are fewer); with a negative one all but the first [-max_results]. *)
Theorem previous_results_window (a : SessionAware) (max_results : Z)
        (w w' : SessionWorld) (results : list Value) :
  get_agent_results (current_session_id a) (agent_name_of a) w = (Ok results, w') ->
  exists window,
    get_previous_results a max_results w = (Ok window, w') /\
    (max_results = 0 -> window = results) /\
    (0 < max_results ->
     window = skipn (length results - Z.to_nat max_results) results) /\
    (max_results < 0 -> window = skipn (Z.to_nat (- max_results)) results).
Proof.
  intros Hget. unfold get_previous_results, bind. rewrite Hget.
  destruct results as [|r results].
  - exists []. split; [reflexivity|].
    repeat split; intros; rewrite skipn_nil; reflexivity.
  - eexists. split; [reflexivity|].
    unfold slice_last. remember (r :: results) as l eqn:Hl. clear Hl.
    repeat split; intros Hn.
    + subst max_results. change (- 0 <? 0) with false. cbv iota. change (- 0) with 0.
      replace (Z.to_nat (Z.min 0 (Z.of_nat (length l)))) with 0%nat by lia. reflexivity.
    + assert (Hb : (- max_results <? 0) = true) by (apply Z.ltb_lt; lia).
      rewrite Hb. f_equal. lia.
    + assert (Hb : (- max_results <? 0) = false) by (apply Z.ltb_ge; lia).
      rewrite Hb.
      destruct (Z_le_gt_dec (- max_results) (Z.of_nat (length l))) as [Hle | Hgt].
      * f_equal. lia.
      * rewrite !skipn_all2 by lia. reflexivity.
Qed.

(** An instance of X25: three results stored, [max_results = 0]. *)
Lemma previous_results_window_witness :
  let ic : Value -> string -> bool := fun _ _ => false in
  let c := {| readings := fun n => inject_Z (Z.of_nat n + 100); reads := 0 |} in
  let a := {| current_session_id := "session_100_0000000a"; agent_name_of := "OrgAgent" |} in
  let w := run_calls ic [CreateSession "strict" "0000000a" FsOk;
                         StoreAgentResult "session_100_0000000a" "OrgAgent" (VInt 1);
                         StoreAgentResult "session_100_0000000a" "OrgAgent" (VInt 2);
                         StoreAgentResult "session_100_0000000a" "OrgAgent" (VInt 3)]
             {| manager := SessionManager__init__; time := c |} in
  exists window,
    get_previous_results a 0 w = (Ok window, w) /\
    (0 = 0 -> window = [VInt 1; VInt 2; VInt 3]) /\
    (0 < 0 -> window = skipn (3 - Z.to_nat 0) [VInt 1; VInt 2; VInt 3]) /\
    (0 < 0 -> window = skipn (Z.to_nat (- 0)) [VInt 1; VInt 2; VInt 3]).
Proof.
  intros ic c a w.
  apply (previous_results_window a 0 w w [VInt 1; VInt 2; VInt 3]).
  vm_compute. reflexivity.
Defined.

(** ** Expiry of sessions *)

Lemma dict_get_del_eq {A} (k : string) (d : list (string * A)) :
  dict_get k (dict_del k d) = None.
Proof.
  unfold dict_get, dict_del. induction d as [|[k' v'] d IH]; simpl; [reflexivity|].
  destruct (String.eqb k' k) eqn:E; simpl; [exact IH|]. rewrite E. exact IH.
Qed.

Lemma dict_get_del_ne {A} (k k' : string) (d : list (string * A)) :
  k <> k' -> dict_get k (dict_del k' d) = dict_get k d.
Proof.
  intros Hne. unfold dict_get, dict_del.
  induction d as [|[k0 v0] d IH]; simpl; [reflexivity|].
  destruct (String.eqb k0 k') eqn:E; simpl.
  - apply String.eqb_eq in E. subst k0.
    assert (E' : String.eqb k' k = false) by (apply String.eqb_neq; congruence).
    rewrite E'. exact IH.
  - destruct (String.eqb k0 k); [reflexivity | exact IH].
Qed.

Lemma dict_get_NoDup {A} (k : string) (v : A) (d : list (string * A)) :
  NoDup (map fst d) -> In (k, v) d -> dict_get k d = Some v.
Proof.
  unfold dict_get. induction d as [|[k0 v0] d IH]; intros Hnd Hin; [destruct Hin|].
  simpl in *. apply NoDup_cons in Hnd. destruct Hnd as [Hnot Hnd].
  destruct Hin as [Heq | Hin].
  - injection Heq as -> ->. rewrite String.eqb_refl. reflexivity.
  - destruct (String.eqb k0 k) eqn:E.
    + apply String.eqb_eq in E. subst k0. exfalso. apply Hnot.
      apply list_elem_of_In. apply (in_map fst) in Hin. exact Hin.
    + apply IH; assumption.
Qed.

(** The ids the first loop collects. *)
Lemma expired_sessions_of_spec (items : list (string * SessionConfig))
      (data : gmap string SessionData) (t : Q) :
  (forall id config, In (id, config) items -> is_Some (data !! id)) ->
  exists expired,
    expired_sessions_of items data t = Ok expired /\
    forall id,
      In id expired <->
      exists config d,
        In (id, config) items /\ data !! id = Some d /\
        Qgtb (t - created_at d) (inject_Z (data_retention_hours config * 3600)) = true.
Proof.
  induction items as [|[id0 config0] items IH]; intros Hdata.
  - exists []. split; [reflexivity|]. intros id. split; [intros [] | intros (c & d & [] & _)].
  - destruct IH as (expired & Hrun & Hspec).
    { intros id config Hin. apply (Hdata id config). right. exact Hin. }
    destruct (Hdata id0 config0 (or_introl eq_refl)) as [d0 Hd0].
    simpl. rewrite Hd0, Hrun.
    destruct (Qgtb (t - created_at d0) (inject_Z (data_retention_hours config0 * 3600)))
      eqn:Hexp.
    + eexists. split; [reflexivity|]. intros id. split.
      * intros [<- | Hin].
        -- exists config0, d0. split; [left; reflexivity | split; assumption].
        -- apply Hspec in Hin. destruct Hin as (c & d & Hin & Hd & Hq).
           exists c, d. split; [right; exact Hin | split; assumption].
      * intros (c & d & [Heq | Hin] & Hd & Hq).
        -- injection Heq as -> ->. left. reflexivity.
        -- right. apply Hspec. exists c, d. split; [exact Hin | split; assumption].
    + exists expired. split; [reflexivity|]. intros id. split.
      * intros Hin. apply Hspec in Hin. destruct Hin as (c & d & Hin & Hd & Hq).
        exists c, d. split; [right; exact Hin | split; assumption].
      * intros (c & d & [Heq | Hin] & Hd & Hq).
        -- injection Heq as -> ->. rewrite Hd0 in Hd. injection Hd as <-. congruence.
        -- apply Hspec. exists c, d. split; [exact Hin | split; assumption].
Qed.

Lemma cleanup_session_ok (id : string) (w : SessionWorld) :
  _cleanup_session id None w =
  (Ok tt,
   {| manager := {| sessions := dict_del id (sessions (manager w));
                    session_data := delete id (session_data (manager w));
                    session_locks := session_locks (manager w) ∖ {[ id ]} |};
      time := time w |}).
Proof. reflexivity. Qed.

(** The second loop, when no directory removal fails. *)
Lemma cleanup_sessions_spec (rm : string -> option exn) (ids : list string) :
  (forall id, rm id = None) ->
  forall w, exists w',
    cleanup_sessions ids rm w = (Ok tt, w') /\
    forall id,
      (In id ids ->
       dict_get id (sessions (manager w')) = None /\
       session_data (manager w') !! id = None /\
       id ∉ session_locks (manager w')) /\
      (~ In id ids ->
       dict_get id (sessions (manager w')) = dict_get id (sessions (manager w)) /\
       session_data (manager w') !! id = session_data (manager w) !! id /\
       (id ∈ session_locks (manager w') <-> id ∈ session_locks (manager w))).
Proof.
  intros Hrm. induction ids as [|id0 ids IH]; intros w.
  - exists w. split; [reflexivity|]. intros id. split; [intros [] | intros _].
    split; [reflexivity | split; reflexivity].
  - simpl. unfold bind at 1. rewrite Hrm, cleanup_session_ok.
    match goal with |- context [cleanup_sessions ids rm ?w1] =>
      destruct (IH w1) as (w' & Hrun & Hspec)
    end.
    rewrite Hrun. exists w'. split; [reflexivity|].
    intros id. destruct (Hspec id) as [Hin Hout].
    destruct (in_dec string_dec id ids) as [Hrest | Hrest].
    + split; [intros _; apply Hin; exact Hrest|].
      intros Hno. exfalso. apply Hno. right. exact Hrest.
    + destruct (Hout Hrest) as (Hs & Hd & Hl). cbn [manager sessions session_data
        session_locks] in Hs, Hd, Hl.
      split.
      * intros [<- | Habs]; [|contradiction].
        rewrite Hs, Hd, dict_get_del_eq, lookup_delete_eq.
        split; [reflexivity | split; [reflexivity|]].
        rewrite Hl, elem_of_difference, elem_of_singleton. intros [_ Hx]. apply Hx.
        reflexivity.
      * intros Hno. assert (Hne : id <> id0) by (intros ->; apply Hno; left; reflexivity).
        rewrite Hs, Hd, dict_get_del_ne by exact Hne.
        rewrite lookup_delete_ne by congruence.
        split; [reflexivity | split; [reflexivity|]].
        rewrite Hl, elem_of_difference, elem_of_singleton.
        split; [intros [Hx _]; exact Hx | intros Hx; split; [exact Hx | exact Hne]].
Qed.

Lemma dict_get_In {A} (k : string) (v : A) (d : list (string * A)) :
  dict_get k d = Some v -> In (k, v) d.
Proof.
  unfold dict_get. intros Hget.
  destruct (find (fun p => String.eqb (fst p) k) d) as [[k' v']|] eqn:Hfind; [|discriminate].
  injection Hget as <-. apply find_some in Hfind. destruct Hfind as [Hin Heq].
  simpl in Heq. apply String.eqb_eq in Heq. subst k'. exact Hin.
Qed.

(** X26. Expiry removes the expired sessions and no other. On a manager
    whose sessions all have their data, when no directory removal fails,
    [cleanup_expired_sessions] returns normally; a session whose age at that
    moment exceeds its retention time ([data_retention_hours] hours) is gone
    with its data and its lock, and every other session is there as before,
    with its configuration, its data and its lock. *)
Theorem cleanup_removes_expired_sessions_only (rm : string -> option exn)
        (w : SessionWorld) :
  NoDup (map fst (sessions (manager w))) ->
  (forall id config, In (id, config) (sessions (manager w)) ->
                     is_Some (session_data (manager w) !! id)) ->
  (forall id, rm id = None) ->
  exists w',
    cleanup_expired_sessions rm w = (Ok tt, w') /\
    forall id config d,
      dict_get id (sessions (manager w)) = Some config ->
      session_data (manager w) !! id = Some d ->
      if Qgtb (now (time w) - created_at d)
              (inject_Z (data_retention_hours config * 3600))
      then dict_get id (sessions (manager w')) = None /\
           session_data (manager w') !! id = None /\
           id ∉ session_locks (manager w')
      else dict_get id (sessions (manager w')) = Some config /\
           session_data (manager w') !! id = Some d /\
           (id ∈ session_locks (manager w') <-> id ∈ session_locks (manager w)).
Proof.
  intros Hnd Hdata Hrm.
  destruct (expired_sessions_of_spec (sessions (manager w)) (session_data (manager w))
              (now (time w)) Hdata) as (expired & Hexp & Hspec).
  destruct (cleanup_sessions_spec rm expired Hrm
              {| manager := manager w; time := tick (time w) |}) as (w' & Hrun & Hkeep).
  exists w'. split.
  - unfold cleanup_expired_sessions, bind, time_time. cbn [manager time].
    rewrite Hexp. exact Hrun.
  - intros id config d Hget Hd. destruct (Hkeep id) as [Hin Hout].
    cbn [manager] in Hin, Hout.
    destruct (Qgtb (now (time w) - created_at d)
                   (inject_Z (data_retention_hours config * 3600))) eqn:Hq.
    + apply Hin. apply Hspec. exists config, d.
      split; [apply dict_get_In; exact Hget | split; assumption].
    + assert (Hno : ~ In id expired).
      { intros Habs. apply Hspec in Habs. destruct Habs as (c' & d' & Hin' & Hd' & Hq').
        rewrite (dict_get_NoDup id c' _ Hnd Hin') in Hget. injection Hget as ->.
        rewrite Hd in Hd'. injection Hd' as <-. congruence. }
      destruct (Hout Hno) as (Hs & Hdd & Hl). rewrite Hs, Hdd.
      split; [exact Hget | split; [exact Hd | exact Hl]].
Qed.

(** An instance of X26: at 100000 s, a session made at 0 s and one made at
    90000 s, both kept for 24 hours. *)
Lemma cleanup_removes_expired_sessions_only_witness :
  let config id := {| session_id := id; isolation_level := "strict";
                      data_retention_hours := 24;
                      enable_cross_session_learning := false;
                      vector_index_isolation := true |} in
  let data (t : Q) := {| created_at := t; agent_results := ∅; contamination_log := [] |} in
  let w := {| manager :=
                {| sessions := [("old", config "old"); ("new", config "new")];
                   session_data := <["old" := data 0%Q]> (<["new" := data 90000%Q]> ∅);
                   session_locks := {[ "old"; "new" ]} |};
              time := {| readings := fun _ => 100000%Q; reads := 0 |} |} in
  exists w',
    cleanup_expired_sessions (fun _ => None) w = (Ok tt, w') /\
    forall id cfg d,
      dict_get id (sessions (manager w)) = Some cfg ->
      session_data (manager w) !! id = Some d ->
      if Qgtb (now (time w) - created_at d) (inject_Z (data_retention_hours cfg * 3600))
      then dict_get id (sessions (manager w')) = None /\
           session_data (manager w') !! id = None /\
           id ∉ session_locks (manager w')
      else dict_get id (sessions (manager w')) = Some cfg /\
           session_data (manager w') !! id = Some d /\
           (id ∈ session_locks (manager w') <-> id ∈ session_locks (manager w)).
Proof.
  intros config data w.
  apply (cleanup_removes_expired_sessions_only (fun _ => None) w).
  - simpl. apply NoDup_cons. split; [|apply NoDup_cons; split; [|apply NoDup_nil; exact I]].
    + intros Hin. apply list_elem_of_In in Hin. simpl in Hin.
      destruct Hin as [H | []]. discriminate H.
    + intros Hin. apply list_elem_of_In in Hin. destruct Hin.
  - intros id cfg Hin. simpl in Hin.
    destruct Hin as [H | [H | []]]; injection H as <- <-; vm_compute; eauto.
  - reflexivity.
Defined.

(** * Getting out: reset and hard stop *)

(** X27. The generator's reset undoes the latch, inside a running event
    loop only. There [JSXCreatorAgent.reset_system_state] returns normally
    from any state, with the breaker Closed, both of its counters and all
    statistics at zero and [fallback_to_sync] cleared, so that with the
    stack below the limit the next [generate_jsx_components_async] runs the
    batch mode again. Called with no event loop running it raises
    [RuntimeError] at [asyncio.create_task]: breaker and flag are reset by
    then, the statistics are left as they were. *)
Theorem creator_reset_restores_batch_mode `{AgentClass} (env : Env)
        (batch_mode sync_mode : M World Value) (k : Z) (task_id : string) (w : World) :
  below_limit env k w ->
  let after loop_is_running :=
    {| self := snd (JSXCreatorAgent.reset_system_state loop_is_running (self w));
       given_breaker := given_breaker w; wclock := wclock w; trace := trace w |} in
  (fst (JSXCreatorAgent.reset_system_state true (self w)) = Ok tt /\
   _state (circuit_breaker (self (after true))) = CLOSED /\
   _failure_count (circuit_breaker (self (after true))) = 0 /\
   _success_count (circuit_breaker (self (after true))) = 0 /\
   fallback_to_sync (self (after true)) = false /\
   execution_stats (self (after true)) = zero_stats /\
   fallback_to_sync (self (at_dispatch env k (after true))) = false /\
   forall v w2,
     batch_mode (at_dispatch env k (after true)) = (Ok v, w2) ->
     generate_jsx_components_async env batch_mode sync_mode k task_id (after true)
     = (Ok v, w2)) /\
  (fst (JSXCreatorAgent.reset_system_state false (self w))
     = Raise (RuntimeError "no running event loop") /\
   _state (circuit_breaker (self (after false))) = CLOSED /\
   fallback_to_sync (self (after false)) = false /\
   execution_stats (self (after false)) = execution_stats (self w)).
Proof.
  intros Hlim after. unfold below_limit in Hlim.
  assert (Hflag : fallback_to_sync (self (at_dispatch env k (after true))) = false).
  { unfold at_dispatch, _should_use_sync, bind, reads_, update_self, modify, ret. simpl.
    assert (Hb : (_check_recursion_depth env k >=?
                  getrecursionlimit env - _recursion_check_buffer (self w)) = false)
      by (rewrite Z.geb_leb; apply Z.leb_gt; lia).
    rewrite Hb. reflexivity. }
  split.
  - split; [reflexivity|]. repeat (split; [reflexivity|]).
    split; [exact Hflag|].
    intros v w2 Hbatch. rewrite generate_dispatch, Hflag, Hbatch. reflexivity.
  - repeat split.
Qed.

(** An instance of X27: an agent in sync mode with a tripped breaker. *)
Lemma creator_reset_restores_batch_mode_witness :
  let env := {| stack_depth := fun _ => 30; getrecursionlimit := 1000 |} in
  let tripped :=
    {| circuit_breaker :=
         set__failure_count 8 (set__state OPEN (CircuitBreaker__init__ 8 30 2));
       fallback_to_sync := true;
       _recursion_check_buffer := 50;
       execution_stats :=
         {| total_attempts := 5; successful_executions := 3; fallback_used := 1;
            circuit_breaker_triggered := 1; timeout_occurred := 2 |} |} in
  let w := {| self := tripped; given_breaker := CircuitBreaker__init__ 12 90 2;
              wclock := {| readings := fun n => inject_Z (Z.of_nat n + 1); reads := 0 |};
              trace := [] |} in
  let batch_mode : M World Value := ret (VInt 7) in
  let sync_mode : M World Value := ret VNone in
  let after loop_is_running :=
    {| self := snd (JSXCreatorAgent.reset_system_state loop_is_running (self w));
       given_breaker := given_breaker w; wclock := wclock w; trace := trace w |} in
  (fst (JSXCreatorAgent.reset_system_state true (self w)) = Ok tt /\
   _state (circuit_breaker (self (after true))) = CLOSED /\
   _failure_count (circuit_breaker (self (after true))) = 0 /\
   _success_count (circuit_breaker (self (after true))) = 0 /\
   fallback_to_sync (self (after true)) = false /\
   execution_stats (self (after true)) = zero_stats /\
   fallback_to_sync (self (at_dispatch env 0 (after true))) = false /\
   forall v w2,
     batch_mode (at_dispatch env 0 (after true)) = (Ok v, w2) ->
     generate_jsx_components_async env batch_mode sync_mode 0 "t" (after true)
     = (Ok v, w2)) /\
  (fst (JSXCreatorAgent.reset_system_state false (self w))
     = Raise (RuntimeError "no running event loop") /\
   _state (circuit_breaker (self (after false))) = CLOSED /\
   fallback_to_sync (self (after false)) = false /\
   execution_stats (self (after false)) = execution_stats (self w)).
Proof.
  intros env tripped w batch_mode sync_mode.
  apply (creator_reset_restores_batch_mode env batch_mode sync_mode 0 "t" w).
  unfold below_limit. simpl. lia.
Defined.


